(** * desktop-tool/src/pdf_maker.py: the PdfExporter pipeline

    A shallow embedding of [PdfExporter] (configuration, slot resolution,
    image conditioning, the sequential and the A3 grid layout) together with
    the Python runtime pieces it relies on: exceptions, binary64 arithmetic,
    [str] methods and insertion-ordered dictionaries. *)

From Stdlib Require Import ZArith QArith Qround Qabs Lia Bool Ascii String.
From Stdlib Require Import DecimalString DecimalZ DecimalN DecimalPos.
From stdpp Require Import list sorting.

Local Open Scope Z_scope.

(** ** Python exceptions and fallible results *)

Inductive exception : Type :=
  | AttributeError
  | KeyError
  | IndexError
  | ValueError
  | TypeError
  | ZeroDivisionError
  | OverflowError.

Inductive result (A : Type) : Type :=
  | Ok (a : A)
  | Raise (e : exception).

Arguments Ok {A} a.
Arguments Raise {A} e.

Definition rbind {A B : Type} (r : result A) (k : A -> result B) : result B :=
  match r with
  | Ok a => k a
  | Raise e => Raise e
  end.

(** ** Binary64 arithmetic

    A finite Python [float] is carried by the rational number it denotes.
    [round] is round-to-nearest, ties-to-even, onto the binary64 grid
    (53-bit significands, subnormals below 2^-1022).  Infinities and NaN are
    not represented: the operations that raise [OverflowError] in Python do
    so here, and the others are only used far below the overflow threshold. *)

Module Binary64.

Definition float : Type := Q.

(** Nearest integer to [n / d] for [0 < d], ties to even. *)
Definition rne_div (n d : Z) : Z :=
  let q := n `div` d in
  match 2 * (n `mod` d) ?= d with
  | Lt => q
  | Gt => q + 1
  | Eq => if Z.even q then q else q + 1
  end.

(** The exponent [e] of the unit in the last place of [n / d], [0 < n],
    [0 < d]: [2^52 <= n / (d * 2^e) < 2^53], clipped at the subnormal
    exponent. *)
Definition exponent (n d : Z) : Z :=
  let k := Z.log2 n - Z.log2 d in
  let e := if d * 2 ^ Z.log2 n <=? n * 2 ^ Z.log2 d then k - 52 else k - 53 in
  Z.max e (-1074).

Definition round_pos (n d : Z) : float :=
  let e := exponent n d in
  if 0 <=? e then inject_Z (rne_div n (d * 2 ^ e) * 2 ^ e)
  else rne_div (n * 2 ^ (- e)) d # Z.to_pos (2 ^ (- e)).

Definition round (q : Q) : float :=
  match Qnum q with
  | Z0 => 0%Q
  | Zpos n => round_pos (Zpos n) (Zpos (Qden q))
  | Zneg n => Qopp (round_pos (Zpos n) (Zpos (Qden q)))
  end.

Definition Qlt_bool (x y : Q) : bool := negb (Qle_bool y x).

Definition overflows (x : float) : bool := Qle_bool (inject_Z (2 ^ 1024)) (Qabs x).

(** [float(z)] for a Python int. *)
Definition of_int (z : Z) : result float :=
  let r := round (inject_Z z) in
  if overflows r then Raise OverflowError else Ok r.

(** A float literal written in decimal, such as [0.5] or [0.14]. *)
Definition literal (q : Q) : float := round q.

(** [a / b] on Python ints: the correctly rounded quotient. *)
Definition true_div (a b : Z) : result float :=
  if b =? 0 then Raise ZeroDivisionError
  else
    let r := round (Z.sgn b * a # Z.to_pos (Z.abs b)) in
    if overflows r then Raise OverflowError else Ok r.

(** An int operand of a float operation, or an int handed to [FPDF]: the
    ints promoted in this file are coordinates and counts far below 2^1024,
    the bound past which Python raises [OverflowError]. *)
Definition promote (z : Z) : float := round (inject_Z z).

Definition fadd (x y : float) : float := round (x + y).
Definition fsub (x y : float) : float := round (x - y).
Definition fmul (x y : float) : float := round (x * y).

(** [int(x)]: truncation towards zero. *)
Definition to_int (x : float) : Z :=
  if Qle_bool 0 x then Qfloor x else Qceiling x.

(** C's [fmod]: exact, with the sign of [x]. *)
Definition c_fmod (x y : float) : float :=
  (x - y * inject_Z (to_int (x / y)))%Q.

(** [x % y] on floats (CPython's [float_rem]): [fmod], then moved to the
    sign of the divisor. *)
Definition float_mod (x y : float) : result float :=
  if Qeq_bool y 0 then Raise ZeroDivisionError
  else
    let m := c_fmod x y in
    Ok (if Qeq_bool m 0 then 0%Q
        else if xorb (Qlt_bool y 0) (Qlt_bool m 0) then fadd m y
        else m).

(** [round(x, 1)]: the exact value of [x] is rounded half-even to one
    decimal, and the decimal is read back as the nearest binary64. *)
Definition round1 (x : float) : float :=
  round (rne_div (10 * Qnum x) (Zpos (Qden x)) # 10).

Definition feqb (x y : float) : bool := Qeq_bool x y.

End Binary64.

(** ** Python [str] methods used by the exporter

    Strings are sequences of code points below 256. *)

Module PyStr.

(** [s.endswith(suffix)] *)
Fixpoint endswith (s suffix : string) : bool :=
  if String.eqb s suffix then true
  else match s with
       | EmptyString => false
       | String _ t => endswith t suffix
       end.

(** [sub in s] *)
Fixpoint contains (sub s : string) : bool :=
  if String.prefix sub s then true
  else match s with
       | EmptyString => false
       | String _ t => contains sub t
       end.

Fixpoint rfind_from (c : ascii) (s : string) (i last : Z) : Z :=
  match s with
  | EmptyString => last
  | String a t => rfind_from c t (i + 1) (if Ascii.eqb a c then i else last)
  end.

(** [s.rfind(c)] for a one-character needle: the last index, or -1. *)
Definition rfind (s : string) (c : ascii) : Z := rfind_from c s 0 (-1).

(** [s[:stop]], where a negative [stop] counts from the end. *)
Definition slice_to (s : string) (stop : Z) : string :=
  let n := Z.of_nat (String.length s) in
  let k := if stop <? 0 then Z.max 0 (n + stop) else Z.min stop n in
  substring 0 (Z.to_nat k) s.

Definition is_space (c : ascii) : bool :=
  let n := N_of_ascii c in
  ((9 <=? n) && (n <=? 13) || (28 <=? n) && (n <=? 32)
   || (n =? 133) || (n =? 160))%N.

Definition is_linebreak (c : ascii) : bool :=
  let n := N_of_ascii c in
  ((10 <=? n) && (n <=? 13) || (28 <=? n) && (n <=? 30) || (n =? 133))%N.

Fixpoint lstrip (s : string) : string :=
  match s with
  | EmptyString => EmptyString
  | String c t => if is_space c then lstrip t else s
  end.

Fixpoint rstrip (s : string) : string :=
  match s with
  | EmptyString => EmptyString
  | String c t =>
      match rstrip t with
      | EmptyString => if is_space c then EmptyString else String c EmptyString
      | t' => String c t'
      end
  end.

(** [s.strip()] *)
Definition strip (s : string) : string := rstrip (lstrip s).

(** [s.split(sep)] for a one-character separator: empty fields are kept. *)
Fixpoint split (sep : ascii) (s : string) : list string :=
  match s with
  | EmptyString => [EmptyString]
  | String c t =>
      if Ascii.eqb c sep then EmptyString :: split sep t
      else match split sep t with
           | [] => [String c EmptyString]
           | field :: fields => String c field :: fields
           end
  end.

(** [s.splitlines()] *)
Fixpoint splitlines (s : string) : list string :=
  match s with
  | EmptyString => []
  | String c t =>
      if is_linebreak c then
        match t with
        | String c' t' =>
            if Ascii.eqb c "013" && Ascii.eqb c' "010"
            then EmptyString :: splitlines t'
            else EmptyString :: splitlines t
        | EmptyString => [EmptyString]
        end
      else match splitlines t with
           | [] => [String c EmptyString]
           | line :: lines => String c line :: lines
           end
  end.

(** Underscores of an integer literal: single, and only between two other
    characters. *)
Fixpoint drop_underscores (s : string) : option string :=
  match s with
  | EmptyString => Some EmptyString
  | String c t =>
      if Ascii.eqb c "_" then None
      else match t with
           | String "_" t' =>
               match t' with
               | EmptyString => None
               | String c' _ =>
                   if Ascii.eqb c' "_" then None
                   else String c <$> drop_underscores t'
               end
           | _ => String c <$> drop_underscores t
           end
  end.

(** The whitespace that [int()] skips around a numeral: the ASCII
    whitespace, and the two other spaces below 256.  The separators
    0x1c to 0x1f, which [str.strip()] removes, are not part of it. *)
Definition is_int_space (c : ascii) : bool :=
  let n := N_of_ascii c in
  ((9 <=? n) && (n <=? 13) || (n =? 32) || (n =? 133) || (n =? 160))%N.

Fixpoint int_lstrip (s : string) : string :=
  match s with
  | EmptyString => EmptyString
  | String c t => if is_int_space c then int_lstrip t else s
  end.

Fixpoint int_rstrip (s : string) : string :=
  match s with
  | EmptyString => EmptyString
  | String c t =>
      match int_rstrip t with
      | EmptyString => if is_int_space c then EmptyString else String c EmptyString
      | t' => String c t'
      end
  end.

(** The most digits [int()] reads from a string in base ten
    ([sys.int_max_str_digits], as CPython sets it by default). *)
Definition int_max_str_digits : Z := 4300.

(** [int(s)] in base ten: surrounding whitespace, an optional sign, then
    decimal digits, at most [int_max_str_digits] of them. *)
Definition split_sign (s : string) : bool * string :=
  match s with
  | String "-" t => (true, t)
  | String "+" t => (false, t)
  | _ => (false, s)
  end.

Definition py_int (s : string) : result Z :=
  let '(negative, body) := split_sign (int_rstrip (int_lstrip s)) in
  match drop_underscores body with
  | Some digits =>
      if Z.of_nat (String.length digits) <=? int_max_str_digits then
        match NilZero.uint_of_string digits with
        | Some d => Ok (if negative then - Z.of_uint d else Z.of_uint d)
        | None => Raise ValueError
        end
      else Raise ValueError
  | None => Raise ValueError
  end.

(** Decimal numerals, and strings without a given character (used to
    describe what [identify] prints). *)
Definition is_digit (c : ascii) : bool :=
  let n := N_of_ascii c in ((48 <=? n) && (n <=? 57))%N.

Fixpoint lacks (sep : ascii) (s : string) : bool :=
  match s with
  | EmptyString => true
  | String c t => negb (Ascii.eqb c sep) && lacks sep t
  end.

Fixpoint digits_only (s : string) : bool :=
  match s with
  | EmptyString => true
  | String c t => is_digit c && digits_only t
  end.

(** [str(z)] on an int, as interpolated by an f-string. *)
Definition str_of_int (z : Z) : string := NilZero.string_of_int (Z.to_int z).

End PyStr.

Notation "'let+' x ':=' r 'in' k" := (rbind r (fun x => k))
  (at level 10, x pattern, r at level 100, k at level 200).

(** ** Python dictionaries with integer keys

    A [dict] keeps its keys in insertion order; assigning to a key that is
    already present keeps its position.  [sorted] is Python's [sorted] on a
    list of ints. *)

Module PyDict.

Definition dict (V : Type) : Type := list (Z * V).

Section Ops.
Context {V : Type}.

Fixpoint get (k : Z) (d : dict V) : option V :=
  match d with
  | [] => None
  | (k', v) :: rest => if k =? k' then Some v else get k rest
  end.

Fixpoint set (k : Z) (v : V) (d : dict V) : dict V :=
  match d with
  | [] => [(k, v)]
  | (k', v') :: rest =>
      if k =? k' then (k, v) :: rest else (k', v') :: set k v rest
  end.

Definition keys (d : dict V) : list Z := d.*1.

(** [d[k]] *)
Definition item (k : Z) (d : dict V) : result V :=
  match get k d with
  | Some v => Ok v
  | None => Raise KeyError
  end.
End Ops.

Definition sorted (l : list Z) : list Z := merge_sort Z.le l.

End PyDict.

(** ** The data the exporter works on *)

(** [src.order]: a card image with the slots it fills and the local path of
    its artifact, and the two collections of an order. *)
Record CardImage : Type := { slots : list Z; file_path : string }.
Record CardImageCollection : Type := { cards : list CardImage }.
Record CardOrder : Type :=
  { fronts : CardImageCollection; backs : CardImageCollection }.

(** The calls made on an [FPDF] object, in order. *)
Inductive pdf_op : Type :=
  | AddPage
  | Image (image_path : string) (x y w h : Binary64.float)
  | DashedLine (x1 y1 x2 y2 : Binary64.float) (dash_length space_length : Z).

Inductive page_format : Type :=
  | A3
  | CardSize (w h : Binary64.float).

Record FPDF : Type :=
  { orientation : string; page_unit : string; format : page_format;
    ops : list pdf_op }.

(** The document after further calls. *)
Definition extend (doc : FPDF) (more : list pdf_op) : FPDF :=
  {| orientation := orientation doc; page_unit := page_unit doc;
     format := format doc; ops := ops doc ++ more |}.

(** The external commands handed to [subprocess.run], by the method that
    issues them. *)
Inductive tool_call : Type :=
  | MagickConvert (image_path jpeg_path : string)
  | MagickCompress (jpeg_path : string)
  | MogrifyResize (jpeg_path : string)
  | MogrifyShaveCrop (jpeg_path : string)
  | IdentifyVerbose (jpeg_path : string).

Definition quoted (s : string) : string :=
  (String "034" s ++ String "034" EmptyString)%string.

Definition command (c : tool_call) : string :=
  match c with
  | MagickConvert image_path jpeg_path =>
      "magick " ++ quoted image_path ++ " " ++ quoted jpeg_path
  | MagickCompress jpeg_path =>
      "magick " ++ quoted jpeg_path
      ++ " -strip -interlace Plane -gaussian-blur 0.05 -quality 85% "
      ++ quoted jpeg_path
  | MogrifyResize jpeg_path =>
      "mogrify -resize " ++ quoted "60%" ++ " " ++ quoted jpeg_path
  | MogrifyShaveCrop jpeg_path =>
      "mogrify -shave " ++ quoted "2.8%x2.8%" ++ " -gravity center -crop "
      ++ quoted "63:88" ++ " " ++ quoted jpeg_path
  | IdentifyVerbose jpeg_path => "identify -verbose " ++ quoted jpeg_path
  end%string.

(** What the run does to the outside, in time order. *)
Inductive event : Type :=
  | Download (images : CardImageCollection)
  | Run (call : tool_call)
  | Place (image_path : string)
  | Output (file_name : string).

(** Answers of the two prompts of [ask_questions]. *)
Inductive py_value : Type :=
  | PyNone
  | PyInt (z : Z)
  | PyStr (s : string).

Record answers : Type := { split_faces : bool; cards_per_file : py_value }.

(** [int(v)] *)
Definition int_of_value (v : py_value) : result Z :=
  match v with
  | PyNone => Raise TypeError
  | PyInt z => Ok z
  | PyStr s => PyStr.py_int s
  end.

(** The local constants shared by [export_a3] and [add_a3_page]
    (millimetres on an A3 sheet in landscape). *)
Module Sheet.
Definition line_w : Binary64.float := Binary64.literal (14 # 100).
Definition line_lv : Z := 297.
Definition line_lh : Z := 440.
Definition image_w : Z := 63.
Definition image_h : Z := 88.
Definition top : Z := 15.
Definition left : Z := 20.
Definition gap : Binary64.float := Binary64.literal (5 # 10).
Definition tenth : Binary64.float := Binary64.literal (1 # 10).
End Sheet.

(** ** The exporter

    The outside world (the file system and the ImageMagick tools) is a
    parameter: [run] is [subprocess.run(command, shell=True)] and gives the
    new world and the captured standard output, [path_exists] is
    [os.path.exists], [download_images] is the collection's method of that
    name.  A [machine] holds the attributes of the [PdfExporter] object, the
    world, the files written by [FPDF.output] and the journal of events. *)

Class Outside (World : Type) : Type :=
  { run : string -> World -> World * string;
    path_exists : World -> string -> bool;
    download_images : CardImageCollection -> World -> World }.

Section Exporter.

Context {World : Type} {outside : Outside World}.

Import Binary64 PyStr PyDict.

Record machine : Type := Machine
  { order : CardOrder;
    state : string;
    pdf : option FPDF;
    card_width_in_inches : float;
    card_height_in_inches : float;
    file_num : Z;
    number_of_cards_per_file : Z;
    paths_by_slot : dict (string * string);
    save_path : string;
    separate_faces : bool;
    current_face : string;
    world : World;
    written : list (string * FPDF);
    journal : list event }.

Definition with_state (s : string) (m : machine) : machine :=
  Machine (order m) s (pdf m) (card_width_in_inches m)
    (card_height_in_inches m) (file_num m) (number_of_cards_per_file m)
    (paths_by_slot m) (save_path m) (separate_faces m) (current_face m)
    (world m) (written m) (journal m).

Definition with_pdf (p : option FPDF) (m : machine) : machine :=
  Machine (order m) (state m) p (card_width_in_inches m)
    (card_height_in_inches m) (file_num m) (number_of_cards_per_file m)
    (paths_by_slot m) (save_path m) (separate_faces m) (current_face m)
    (world m) (written m) (journal m).

Definition with_file_num (n : Z) (m : machine) : machine :=
  Machine (order m) (state m) (pdf m) (card_width_in_inches m)
    (card_height_in_inches m) n (number_of_cards_per_file m)
    (paths_by_slot m) (save_path m) (separate_faces m) (current_face m)
    (world m) (written m) (journal m).

Definition with_number_of_cards_per_file (n : Z) (m : machine) : machine :=
  Machine (order m) (state m) (pdf m) (card_width_in_inches m)
    (card_height_in_inches m) (file_num m) n
    (paths_by_slot m) (save_path m) (separate_faces m) (current_face m)
    (world m) (written m) (journal m).

Definition with_paths_by_slot (d : dict (string * string)) (m : machine)
  : machine :=
  Machine (order m) (state m) (pdf m) (card_width_in_inches m)
    (card_height_in_inches m) (file_num m) (number_of_cards_per_file m)
    d (save_path m) (separate_faces m) (current_face m)
    (world m) (written m) (journal m).

Definition with_separate_faces (b : bool) (m : machine) : machine :=
  Machine (order m) (state m) (pdf m) (card_width_in_inches m)
    (card_height_in_inches m) (file_num m) (number_of_cards_per_file m)
    (paths_by_slot m) (save_path m) b (current_face m)
    (world m) (written m) (journal m).

Definition with_current_face (face : string) (m : machine) : machine :=
  Machine (order m) (state m) (pdf m) (card_width_in_inches m)
    (card_height_in_inches m) (file_num m) (number_of_cards_per_file m)
    (paths_by_slot m) (save_path m) (separate_faces m) face
    (world m) (written m) (journal m).

Definition with_world (w : World) (m : machine) : machine :=
  Machine (order m) (state m) (pdf m) (card_width_in_inches m)
    (card_height_in_inches m) (file_num m) (number_of_cards_per_file m)
    (paths_by_slot m) (save_path m) (separate_faces m) (current_face m)
    w (written m) (journal m).

Definition with_written (l : list (string * FPDF)) (m : machine) : machine :=
  Machine (order m) (state m) (pdf m) (card_width_in_inches m)
    (card_height_in_inches m) (file_num m) (number_of_cards_per_file m)
    (paths_by_slot m) (save_path m) (separate_faces m) (current_face m)
    (world m) l (journal m).

Definition with_journal (l : list event) (m : machine) : machine :=
  Machine (order m) (state m) (pdf m) (card_width_in_inches m)
    (card_height_in_inches m) (file_num m) (number_of_cards_per_file m)
    (paths_by_slot m) (save_path m) (separate_faces m) (current_face m)
    (world m) (written m) l.

Definition record (e : event) (m : machine) : machine :=
  with_journal (journal m ++ [e]) m.

(** Methods run on a machine and either return or raise; the machine
    reached when an exception is raised is kept. *)
Definition M (A : Type) : Type := machine -> result A * machine.

Definition ret {A : Type} (a : A) : M A := fun m => (Ok a, m).

Definition bind {A B : Type} (c : M A) (k : A -> M B) : M B :=
  fun m =>
    match c m with
    | (Ok a, m') => k a m'
    | (Raise e, m') => (Raise e, m')
    end.

Definition lift {A : Type} (r : result A) : M A := fun m => (r, m).

Definition read {A : Type} (f : machine -> A) : M A := fun m => (Ok (f m), m).

Definition update (f : machine -> machine) : M unit := fun m => (Ok tt, f m).

Notation "'let*' x ':=' c 'in' k" := (bind c (fun x => k))
  (at level 10, x pattern, c at level 100, k at level 200).
Notation "c1 >> c2" := (bind c1 (fun _ => c2))
  (at level 90, right associativity).

(** [for x in l: body(x)] *)
Fixpoint for_each {A : Type} (l : list A) (body : A -> M unit) : M unit :=
  match l with
  | [] => ret tt
  | x :: rest => body x >> for_each rest body
  end.

(** A [for] loop that also updates a local variable. *)
Fixpoint for_each_with {A S : Type} (l : list A) (s : S)
    (body : S -> A -> M S) : M S :=
  match l with
  | [] => ret s
  | x :: rest => let* s' := body s x in for_each_with rest s' body
  end.

(** [a % b] on ints. *)
Definition int_mod (a b : Z) : result Z :=
  if b =? 0 then Raise ZeroDivisionError else Ok (a `mod` b).

(** [l[i]] on a list. *)
Definition index {A : Type} (l : list A) (i : Z) : result A :=
  let j := if i <? 0 then i + Z.of_nat (length l) else i in
  if j <? 0 then Raise IndexError
  else match l !! Z.to_nat j with
       | Some a => Ok a
       | None => Raise IndexError
       end.

(** [l.index(x)] on a list of strings. *)
Fixpoint list_index (x : string) (l : list string) : result Z :=
  match l with
  | [] => Raise ValueError
  | y :: rest =>
      if String.eqb y x then Ok 0
      else let+ i := list_index x rest in Ok (i + 1)
  end.

(** *** Calls on the [FPDF] object held in [self.pdf] *)

Definition pdf_call (op : pdf_op) : M unit :=
  fun m =>
    match pdf m with
    | None => (Raise AttributeError, m)
    | Some doc => (Ok tt, with_pdf (Some (extend doc [op])) m)
    end.

Definition pdf_add_page : M unit := pdf_call AddPage.

Definition pdf_image (image_path : string) (x y w h : float) : M unit :=
  pdf_call (Image image_path x y w h) >> update (record (Place image_path)).

Definition pdf_dashed_line (x1 y1 x2 y2 : float) (dash space : Z) : M unit :=
  pdf_call (DashedLine x1 y1 x2 y2 dash space).

Definition pdf_output (file_name : string) : M unit :=
  fun m =>
    match pdf m with
    | None => (Raise AttributeError, m)
    | Some doc =>
        (Ok tt,
         record (Output file_name)
           (with_written (written m ++ [(file_name, doc)]) m))
    end.

(** [subprocess.run(command, shell=True, ...)] *)
Definition subprocess_run (call : tool_call) : M string :=
  fun m =>
    let (w, stdout) := run (command call) (world m) in
    (Ok stdout, record (Run call) (with_world w m)).

(** *** Methods of [PdfExporter] *)

Definition set_state (s : string) : M unit := update (with_state s).

Definition ask_questions (a : answers) : M unit :=
  if split_faces a then
    update (with_separate_faces true) >>
    update (with_number_of_cards_per_file 1)
  else
    let* int_cards_per_file := lift (int_of_value (cards_per_file a)) in
    update (with_number_of_cards_per_file
              (if int_cards_per_file <? 1 then 1 else int_cards_per_file)).

Definition generate_pdf : M unit :=
  update (fun m =>
    with_pdf (Some {| orientation := "P"; page_unit := "in";
                      format := CardSize (card_width_in_inches m)
                                         (card_height_in_inches m);
                      ops := [] |}) m).

Definition generate_pdf_a3 : M unit :=
  update (with_pdf (Some {| orientation := "L"; page_unit := "mm";
                            format := A3; ops := [] |})).

Definition add_image (image_path : string) : M unit :=
  pdf_add_page >>
  let* w := read card_width_in_inches in
  let* h := read card_height_in_inches in
  pdf_image image_path (promote 0) (promote 0) w h.

Definition save_file : M unit :=
  let* save_path := read save_path in
  let* file_num := read file_num in
  pdf_output (save_path ++ str_of_int file_num ++ ".pdf")%string.

Definition slots_to_paths (c : CardImageCollection) : dict string :=
  foldl (fun by_slots card =>
           foldl (fun by_slots slot => set slot (file_path card) by_slots)
                 by_slots (slots card))
        [] (cards c).

Fixpoint pair_paths (backs_by_slots fronts_by_slots : dict string)
    (slots : list Z) (paths_by_slot : dict (string * string))
  : result (dict (string * string)) :=
  match slots with
  | [] => Ok paths_by_slot
  | slot :: rest =>
      let+ fallback := item 0 backs_by_slots in
      let+ front := item slot fronts_by_slots in
      pair_paths backs_by_slots fronts_by_slots rest
        (set slot (default fallback (get slot backs_by_slots), front)
             paths_by_slot)
  end.

Definition download_and_collect_images : M unit :=
  let* order := read order in
  update (fun m => record (Download (fronts order))
                     (with_world (download_images (fronts order) (world m)) m)) >>
  update (fun m => record (Download (backs order))
                     (with_world (download_images (backs order) (world m)) m)) >>
  let backs_by_slots := slots_to_paths (backs order) in
  let fronts_by_slots := slots_to_paths (fronts order) in
  let* paths_by_slot :=
    lift (pair_paths backs_by_slots fronts_by_slots (keys fronts_by_slots) []) in
  update (with_paths_by_slot paths_by_slot).

Definition export_slot (slot : Z) : M unit :=
  let* paths_by_slot := read paths_by_slot in
  let* (back_path, front_path) := lift (item slot paths_by_slot) in
  set_state ("Working on slot " ++ str_of_int slot) >>
  (if slot =? 0 then generate_pdf
   else
     let* number_of_cards_per_file := read number_of_cards_per_file in
     let* r := lift (int_mod slot number_of_cards_per_file) in
     if r =? 0 then
       set_state ("Saving PDF #" ++ str_of_int slot) >>
       save_file >>
       let* file_num := read file_num in
       update (with_file_num (file_num + 1)) >>
       generate_pdf
     else ret tt) >>
  set_state ("Adding images for slot " ++ str_of_int slot) >>
  add_image back_path >>
  add_image front_path.

Definition export : M unit :=
  let* paths_by_slot := read paths_by_slot in
  for_each (sorted (keys paths_by_slot)) export_slot >>
  let* file_num := read file_num in
  set_state ("Saving PDF #" ++ str_of_int file_num) >>
  save_file.

(** One turn of the loop over the faces in [export_separate_faces]; the
    tuple of the slot is indexed as the two-element sequence it is. *)
Definition export_face (all_faces : list string) (slot : Z)
    (image_paths_tuple : string * string) (face : string) : M unit :=
  let* face_index := lift (list_index face all_faces) in
  update (with_current_face face) >>
  generate_pdf >>
  let* image_path :=
    lift (index [fst image_paths_tuple; snd image_paths_tuple] face_index) in
  add_image image_path >>
  set_state ("Saving " ++ face ++ " PDF for slot " ++ str_of_int slot) >>
  save_file >>
  if face_index =? 1 then
    let* file_num := read file_num in
    update (with_file_num (file_num + 1))
  else ret tt.

Definition export_separate_faces_slot (all_faces : list string) (slot : Z)
  : M unit :=
  let* paths_by_slot := read paths_by_slot in
  let* image_paths_tuple := lift (item slot paths_by_slot) in
  set_state ("Working on slot " ++ str_of_int slot) >>
  for_each all_faces (export_face all_faces slot image_paths_tuple).

Definition export_separate_faces : M unit :=
  let all_faces := ["backs"; "fronts"]%string in
  let* paths_by_slot := read paths_by_slot in
  for_each (sorted (keys paths_by_slot)) (export_separate_faces_slot all_faces).

(** The page of cut guides that starts every A3 sheet. *)
Definition add_a3_page : M unit :=
  let v (z : Z) := promote z in
  let line_w := Sheet.line_w in
  let gap := Sheet.gap in
  pdf_add_page >>
  pdf_dashed_line (fsub (v Sheet.left) line_w) (v 0)
                  (fsub (v Sheet.left) line_w) (v Sheet.line_lv) 1 2 >>
  pdf_dashed_line
    (fadd (fadd (v (Sheet.left + Sheet.image_w * 6)) (fmul gap (v 5))) Sheet.tenth)
    (v 0)
    (fadd (fadd (v (Sheet.left + Sheet.image_w * 6)) (fmul gap (v 5))) Sheet.tenth)
    (v Sheet.line_lv) 1 2 >>
  pdf_dashed_line (v 0) (fsub (v Sheet.top) line_w)
                  (v Sheet.line_lh) (fsub (v Sheet.top) line_w) 1 2 >>
  pdf_dashed_line
    (v 0)
    (fadd (fadd (v (Sheet.top + Sheet.image_h * 3)) (fmul gap (v 2))) Sheet.tenth)
    (v Sheet.line_lh)
    (fadd (fadd (v (Sheet.top + Sheet.image_h * 3)) (fmul gap (v 2))) Sheet.tenth)
    1 2 >>
  for_each (seqZ 1 5) (fun i =>
    let base := fadd (v (Sheet.left + Sheet.image_w * i)) (fmul gap (v (i - 1))) in
    pdf_dashed_line (fadd base Sheet.tenth) (v 0)
                    (fadd base Sheet.tenth) (v Sheet.line_lv) 1 2 >>
    pdf_dashed_line (fsub (fadd base gap) line_w) (v 0)
                    (fsub (fadd base gap) line_w) (v Sheet.line_lv) 1 2) >>
  for_each (seqZ 1 2) (fun i =>
    let base := fadd (v (Sheet.top + Sheet.image_h * i)) (fmul gap (v (i - 1))) in
    pdf_dashed_line (v 0) (fadd base Sheet.tenth)
                    (v Sheet.line_lh) (fadd base Sheet.tenth) 1 2 >>
    pdf_dashed_line (v 0) (fsub (fadd base gap) line_w)
                    (v Sheet.line_lh) (fsub (fadd base gap) line_w) 1 2).

(** [int(i / 6 % 3)] *)
Definition grid_row (i : Z) : result Z :=
  let+ sixth := true_div i 6 in
  let+ r := float_mod sixth (promote 3) in
  Ok (to_int r).

Definition export_a3_slot (i slot : Z) : M Z :=
  let* paths_by_slot := read paths_by_slot in
  let* image_paths_tuple := lift (item slot paths_by_slot) in
  set_state ("Working on slot " ++ str_of_int slot) >>
  (if (0 <? i) && (i `mod` 18 =? 0) then add_a3_page else ret tt) >>
  let x := fadd (promote (Sheet.left + (i `mod` 6) * Sheet.image_w))
                (fmul (promote (i `mod` 6)) Sheet.gap) in
  let* row := lift (grid_row i) in
  let* row' := lift (grid_row i) in
  let y := fadd (promote (Sheet.top + row * Sheet.image_h))
                (fmul (promote row') Sheet.gap) in
  pdf_image (snd image_paths_tuple) x y
            (promote Sheet.image_w) (promote Sheet.image_h) >>
  ret (i + 1).

Definition export_a3 : M unit :=
  generate_pdf_a3 >>
  add_a3_page >>
  let* paths_by_slot := read paths_by_slot in
  let* _ := for_each_with (sorted (keys paths_by_slot)) 0 export_a3_slot in
  save_file.

(** *** Conditioning *)

Definition new_jpg_path (image_path : string) : string :=
  let last_dot_index := rfind image_path "." in
  (slice_to image_path last_dot_index ++ ".jpg")%string.

Definition convert_to_jpg (image_path : string) : M string :=
  if endswith image_path "jpg" then ret image_path
  else
    let jpeg_path := new_jpg_path image_path in
    let* found := read (fun m => path_exists (world m) jpeg_path) in
    if found then ret jpeg_path
    else subprocess_run (MagickConvert image_path jpeg_path) >> ret jpeg_path.

Definition compress_image (jpeg_path : string) : M unit :=
  subprocess_run (MagickCompress jpeg_path) >> ret tt.

Definition downsize_image (jpeg_path : string) : M unit :=
  subprocess_run (MogrifyResize jpeg_path) >> ret tt.

Definition cut_and_reshape (jpeg_path : string) : M unit :=
  subprocess_run (MogrifyShaveCrop jpeg_path) >> ret tt.

(** The width and height read off a line of [identify -verbose]. *)
Definition geometry_of_line (line : string) : result (Z * Z) :=
  let+ field := index (split " " (strip line)) 1 in
  let+ size := index (split "+" field) 0 in
  match split "x" size with
  | [w; h] =>
      let+ w := py_int w in
      let+ h := py_int h in
      Ok (w, h)
  | _ => Raise ValueError
  end.

(** One turn of the loop over the output lines, on the three local flags
    [(need_downsize, need_reshape, need_compression)]. *)
Definition inspect_line (flags : bool * bool * bool) (line : string)
  : result (bool * bool * bool) :=
  let '(need_downsize, need_reshape, need_compression) := flags in
  if contains "Geometry" line then
    let+ (w, h) := geometry_of_line line in
    let+ w_ratio := true_div w 63 in
    let w_rel := round1 w_ratio in
    let+ h_ratio := true_div h 88 in
    let h_rel := round1 h_ratio in
    Ok (need_downsize,
        if feqb w_rel h_rel then false else need_reshape,
        need_compression)
  else Ok flags.

Fixpoint inspect_lines (output : list string) (flags : bool * bool * bool)
  : result (bool * bool * bool) :=
  match output with
  | [] => Ok flags
  | line :: rest =>
      let+ flags' := inspect_line flags line in
      inspect_lines rest flags'
  end.

Definition images_havent_been_prepared (jpeg_path : string) : M (list bool) :=
  let* output := subprocess_run (IdentifyVerbose jpeg_path) in
  let output := splitlines output in
  let need_downsize := false in
  let need_reshape := true in
  let need_compression := false in
  let* (need_downsize, need_reshape, need_compression) :=
    lift (inspect_lines output (need_downsize, need_reshape, need_compression)) in
  ret [need_downsize; need_reshape; need_compression].

Definition prepare_slot (slot : Z) : M unit :=
  let* paths := read paths_by_slot in
  let* front_back_image_tuple := lift (item slot paths) in
  let* jpeg_path := convert_to_jpg (snd front_back_image_tuple) in
  update (fun m =>
    with_paths_by_slot
      (set slot (fst front_back_image_tuple, jpeg_path) (paths_by_slot m)) m) >>
  let need_downsize := 0 in
  let need_reshape := 1 in
  let need_compression := 2 in
  let* preparadness_check_result := images_havent_been_prepared jpeg_path in
  let* compression := lift (index preparadness_check_result need_compression) in
  (if compression : bool then compress_image jpeg_path else ret tt) >>
  let* reshape := lift (index preparadness_check_result need_reshape) in
  (if reshape : bool then cut_and_reshape jpeg_path else ret tt) >>
  let* downsize := lift (index preparadness_check_result need_downsize) in
  (if downsize : bool then downsize_image jpeg_path else ret tt).

Definition prepare_images : M unit :=
  let* paths := read paths_by_slot in
  for_each (keys paths) prepare_slot.

Definition execute : M unit :=
  download_and_collect_images >>
  let* separate_faces := read separate_faces in
  if separate_faces : bool then
    update (with_number_of_cards_per_file 1) >>
    prepare_images >>
    export_a3
  else export.

End Exporter.

(** ** A small outside world for the examples

    The world is the list of the paths that exist; every command prints the
    same text and leaves the files alone; downloading creates the artifacts
    of the collection. *)

Module Demo.

Definition outside (stdout : string) : Outside (list string) :=
  {| run := fun _ w => (w, stdout);
     path_exists := fun w p => existsb (String.eqb p) w;
     download_images := fun c w => w ++ map file_path (cards c) |}.

Definition exporter (o : CardOrder) (split : bool) (per_file : Z)
    (paths : PyDict.dict (string * string)) : @machine (list string) :=
  {| order := o; state := "Initialising"; pdf := None;
     card_width_in_inches := Binary64.literal (273 # 100);
     card_height_in_inches := Binary64.literal (371 # 100);
     file_num := 1; number_of_cards_per_file := per_file;
     paths_by_slot := paths; save_path := "export/cards/";
     separate_faces := split; current_face := "all";
     world := []; written := []; journal := [] |}.

Definition no_order : CardOrder :=
  {| fronts := {| cards := [] |}; backs := {| cards := [] |} |}.

Definition twenty_slots : PyDict.dict (string * string) :=
  (fun slot => (slot, ("back.png", "front.jpg")%string)) <$> seqZ 0 20.

Definition five_slots : PyDict.dict (string * string) :=
  [ (3, ("b3.png", "f3.png")); (0, ("b0.png", "f0.png"));
    (1, ("b1.png", "f1.png")); (4, ("b4.png", "f4.png"));
    (2, ("b2.png", "f2.png")) ]%string.

(** Slot 0 has a back of its own, slot 1 has none. *)
Definition order_with_back_at_zero : CardOrder :=
  {| fronts := {| cards := [ {| slots := [0; 1]; file_path := "front.png" |} ] |};
     backs := {| cards := [ {| slots := [0]; file_path := "back0.png" |} ] |} |}.

(** Slot 1 has a back of its own, slot 0 has none. *)
Definition order_without_back_at_zero : CardOrder :=
  {| fronts := {| cards := [ {| slots := [0; 1]; file_path := "front.png" |} ] |};
     backs := {| cards := [ {| slots := [1]; file_path := "back1.png" |} ] |} |}.

Definition geometry (w h : string) : string :=
  ("Image:" ++ String "010" "  Geometry: " ++ w ++ "x" ++ h ++ "+0+0"
   ++ String "010" "  Page geometry: " ++ w ++ "x" ++ h ++ "+0+0")%string.

End Demo.

(** ** Vocabulary of the properties *)

(** An image as it lies in a finished document: the page it is on (pages
    are counted from 0 in the order of [add_page]) and its box. *)
Record placement : Type :=
  { on_page : Z; placed_path : string;
    at_x : Binary64.float; at_y : Binary64.float;
    width : Binary64.float; height : Binary64.float }.

(** The images of a call sequence, [page] being the index of the page that
    is open before the first call (-1 when none is). *)
Fixpoint placements (page : Z) (calls : list pdf_op) : list placement :=
  match calls with
  | [] => []
  | AddPage :: rest => placements (page + 1) rest
  | Image p x y w h :: rest =>
      {| on_page := page; placed_path := p; at_x := x; at_y := y;
         width := w; height := h |} :: placements page rest
  | DashedLine _ _ _ _ _ _ :: rest => placements page rest
  end.

Fixpoint page_count (calls : list pdf_op) : Z :=
  match calls with
  | [] => 0
  | AddPage :: rest => 1 + page_count rest
  | _ :: rest => page_count rest
  end.

(** The eighteen cut guides drawn by [add_a3_page] after [add_page]. *)
Definition cut_guides : list pdf_op :=
  let v (z : Z) := Binary64.promote z in
  let fadd := Binary64.fadd in
  let fsub := Binary64.fsub in
  let fmul := Binary64.fmul in
  let line_w := Sheet.line_w in
  let gap := Sheet.gap in
  [ DashedLine (fsub (v Sheet.left) line_w) (v 0)
               (fsub (v Sheet.left) line_w) (v Sheet.line_lv) 1 2;
    DashedLine
      (fadd (fadd (v (Sheet.left + Sheet.image_w * 6)) (fmul gap (v 5))) Sheet.tenth)
      (v 0)
      (fadd (fadd (v (Sheet.left + Sheet.image_w * 6)) (fmul gap (v 5))) Sheet.tenth)
      (v Sheet.line_lv) 1 2;
    DashedLine (v 0) (fsub (v Sheet.top) line_w)
               (v Sheet.line_lh) (fsub (v Sheet.top) line_w) 1 2;
    DashedLine
      (v 0)
      (fadd (fadd (v (Sheet.top + Sheet.image_h * 3)) (fmul gap (v 2))) Sheet.tenth)
      (v Sheet.line_lh)
      (fadd (fadd (v (Sheet.top + Sheet.image_h * 3)) (fmul gap (v 2))) Sheet.tenth)
      1 2 ]
  ++ flat_map (fun i =>
       let base := fadd (v (Sheet.left + Sheet.image_w * i)) (fmul gap (v (i - 1))) in
       [ DashedLine (fadd base Sheet.tenth) (v 0)
                    (fadd base Sheet.tenth) (v Sheet.line_lv) 1 2;
         DashedLine (fsub (fadd base gap) line_w) (v 0)
                    (fsub (fadd base gap) line_w) (v Sheet.line_lv) 1 2 ])
       [1; 2; 3; 4; 5]
  ++ flat_map (fun i =>
       let base := fadd (v (Sheet.top + Sheet.image_h * i)) (fmul gap (v (i - 1))) in
       [ DashedLine (v 0) (fadd base Sheet.tenth)
                    (v Sheet.line_lh) (fadd base Sheet.tenth) 1 2;
         DashedLine (v 0) (fsub (fadd base gap) line_w)
                    (v Sheet.line_lh) (fsub (fadd base gap) line_w) 1 2 ])
       [1; 2].

(** The corner of the [i]-th image of the grid, as [export_a3] computes it
    once the row [int(i / 6 % 3)] is known. *)
Definition sheet_x (i : Z) : Binary64.float :=
  Binary64.fadd (Binary64.promote (Sheet.left + (i `mod` 6) * Sheet.image_w))
                (Binary64.fmul (Binary64.promote (i `mod` 6)) Sheet.gap).

Definition sheet_y (row : Z) : Binary64.float :=
  Binary64.fadd (Binary64.promote (Sheet.top + row * Sheet.image_h))
                (Binary64.fmul (Binary64.promote row) Sheet.gap).

(** The front and the back image of a slot of the mapping. *)
Definition front_of (paths : PyDict.dict (string * string)) (slot : Z) : string :=
  default EmptyString (snd <$> PyDict.get slot paths).

Definition back_of (paths : PyDict.dict (string * string)) (slot : Z) : string :=
  default EmptyString (fst <$> PyDict.get slot paths).

(** The page break in front of the [i]-th image of the grid. *)
Definition page_break (i : Z) : list pdf_op :=
  if (0 <? i) && (i `mod` 18 =? 0) then AddPage :: cut_guides else [].

Definition grid_image (paths : PyDict.dict (string * string)) (i slot : Z)
  : pdf_op :=
  Image (front_of paths slot) (sheet_x i) (sheet_y ((i `div` 6) `mod` 3))
        (Binary64.promote Sheet.image_w) (Binary64.promote Sheet.image_h).

(** The calls that the loop of [export_a3] adds for the slots [slots], the
    first of them being the [i]-th image. *)
Fixpoint grid_calls (paths : PyDict.dict (string * string)) (i : Z)
    (slots : list Z) : list pdf_op :=
  match slots with
  | [] => []
  | slot :: rest =>
      page_break i ++ grid_image paths i slot :: grid_calls paths (i + 1) rest
  end.

(** The page that is open when the [i]-th image is reached. *)
Definition page_before (i : Z) : Z := if i =? 0 then 0 else (i - 1) `div` 18.

(** A computation that only calls the open document: it adds the calls [l]
    and leaves the rest of the machine alone. *)
Definition emits {World : Type} (c : @M World unit) (l : list pdf_op) : Prop :=
  forall m doc, pdf m = Some doc ->
    c m = (Ok tt, with_pdf (Some (extend doc l)) m).

(** Sequential mode: the two pages of a slot, a document of card-sized
    pages, and the number of documents. *)
Definition slot_pages (paths : PyDict.dict (string * string))
    (w h : Binary64.float) (slot : Z) : list pdf_op :=
  [ AddPage;
    Image (back_of paths slot) (Binary64.promote 0) (Binary64.promote 0) w h;
    AddPage;
    Image (front_of paths slot) (Binary64.promote 0) (Binary64.promote 0) w h ].

Definition card_document (w h : Binary64.float) (calls : list pdf_op) : FPDF :=
  {| orientation := "P"; page_unit := "in"; format := CardSize w h;
     ops := calls |}.

Definition ceil_div (n k : Z) : Z := (n + k - 1) `div` k.

(** The name under which [save_file] writes document number [num]. *)
Definition document_name (save_path : string) (num : Z) : string :=
  (save_path ++ PyStr.str_of_int num ++ ".pdf")%string.

(** A run of [c] from [m] that does not raise [ZeroDivisionError] and
    keeps the number of cards per file. *)
Definition steady_at {World A : Type} (c : @M World A) (m : machine) : Prop :=
  fst (c m) <> Raise ZeroDivisionError
  /\ number_of_cards_per_file (snd (c m)) = number_of_cards_per_file m.

(** The tool calls that conditioning is seen to make: format conversion,
    inspection, and shave-and-crop. *)
Definition conditioning_call (c : tool_call) : bool :=
  match c with
  | MagickConvert _ _ | MogrifyShaveCrop _ | IdentifyVerbose _ => true
  | MagickCompress _ | MogrifyResize _ => false
  end.

(** A run of [c] from [m] that keeps the slot mapping and adds to the
    journal only events that satisfy [P]. *)
Definition lays {World A : Type} (P : event -> Prop) (c : @M World A)
    (m : machine) : Prop :=
  paths_by_slot (snd (c m)) = paths_by_slot m
  /\ exists events, journal (snd (c m)) = journal m ++ events /\ Forall P events.



(** The events of any layout. *)
Definition layout_event (e : event) : Prop :=
  (exists image_path, e = Place image_path) \/ (exists file_name, e = Output file_name).

(** The line of [identify -verbose] that gives the size of an image of
    [w] by [h] pixels. *)
Definition geometry_line (w h : Z) : string :=
  ("  Geometry: " ++ PyStr.str_of_int w ++ "x" ++ PyStr.str_of_int h
   ++ "+0+0")%string.

(** A dashed line, which [add_a3_page] always draws parallel to an axis,
    runs through the inside of the box at [(x, y)] of size [w] by [h]. *)
Definition crosses (g : pdf_op) (x y w h : Binary64.float) : bool :=
  match g with
  | DashedLine x1 y1 x2 y2 _ _ =>
      let lt := Binary64.Qlt_bool in
      Qeq_bool x1 x2 && lt x x1 && lt x1 (x + w)%Q
        && lt y1 (y + h)%Q && lt y y2
      || Qeq_bool y1 y2 && lt y y1 && lt y1 (y + h)%Q
           && lt x1 (x + w)%Q && lt x x2
  | _ => false
  end.

(** Two boxes of size [w] by [h] with no inner point in common. *)
Definition boxes_apart (x y x' y' w h : Binary64.float) : Prop :=
  (x + w <= x' \/ x' + w <= x \/ y + h <= y' \/ y' + h <= y)%Q.



(** The document that sequential mode writes for a run of slots: the back
    and the front of each, in order. *)
Definition sequential_document (paths : PyDict.dict (string * string))
    (dir : string) (w h : Binary64.float) (num : Z) (run : list Z)
  : string * FPDF :=
  (document_name dir num, card_document w h (flat_map (slot_pages paths w h) run)).

(** The documents that [export_separate_faces] writes for the slots
    [slots], the first of them under the number [num]: one page with the
    back, then one page with the front. *)
Fixpoint face_documents (paths : PyDict.dict (string * string))
    (dir : string) (w h : Binary64.float) (num : Z) (slots : list Z)
  : list (string * FPDF) :=
  match slots with
  | [] => []
  | slot :: rest =>
      (document_name dir num,
       card_document w h
         [AddPage;
          Image (back_of paths slot) (Binary64.promote 0) (Binary64.promote 0) w h])
      :: (document_name dir num,
          card_document w h
            [AddPage;
             Image (front_of paths slot) (Binary64.promote 0) (Binary64.promote 0) w h])
      :: face_documents paths dir w h (num + 1) rest
  end.

(** * Properties *)

(** ** Binary64: rounding and the row of the grid *)

Section FloatFacts.

Import Binary64.

Lemma rne_div_bounds n d :
  0 < d -> 2 * n - d <= 2 * (d * rne_div n d) <= 2 * n + d.
Proof.
  intros Hd. unfold rne_div.
  pose proof (Z.div_mod n d ltac:(lia)) as E.
  pose proof (Z.mod_pos_bound n d Hd) as B.
  destruct (Z.compare_spec (2 * (n `mod` d)) d) as [H|H|H];
    [destruct (Z.even _)| |]; nia.
Qed.

(** Below 3 * 2^52 the quotient by 6 has at least two fractional bits. *)
Lemma exponent_div6 i :
  0 < i < 3 * 2 ^ 52 -> exists s, exponent i 6 = - s /\ 2 <= s <= 55.
Proof.
  intros Hi. unfold exponent.
  change (Z.log2 6) with 2.
  pose proof (Z.log2_nonneg i) as L0.
  destruct (Z.log2_spec i ltac:(lia)) as [Hlo Hhi].
  set (L := Z.log2 i) in *.
  assert (HL : L <= 53).
  { apply Z.lt_succ_r. apply (Z.pow_lt_mono_r_iff 2); lia. }
  destruct (Z.leb_spec (6 * 2 ^ L) (i * 2 ^ 2)) as [Ht|Ht].
  - assert (L <= 52).
    { apply Z.lt_succ_r. apply (Z.pow_lt_mono_r_iff 2); lia. }
    exists (54 - L). lia.
  - exists (55 - L). lia.
Qed.

Lemma Qfloor_sub_Z x z : Qfloor (x - inject_Z z) = Qfloor x - z.
Proof.
  destruct x as [n d]. unfold Qfloor, Qminus, Qplus, Qopp, inject_Z. simpl.
  rewrite Pos.mul_1_r, Z.mul_1_r.
  replace (n + - z * Z.pos d) with (n + (- z) * Z.pos d) by lia.
  rewrite Z.div_add by lia. lia.
Qed.

Lemma Qfloor_div3 x : Qfloor (x / 3) = Qfloor x `div` 3.
Proof.
  destruct x as [n d]. unfold Qfloor, Qdiv, Qmult, Qinv. simpl.
  rewrite Z.mul_1_r, Pos2Z.inj_mul. rewrite Z.div_div by lia. reflexivity.
Qed.

Lemma to_int_nonneg x : (0 <= x)%Q -> to_int x = Qfloor x.
Proof.
  intros H. unfold to_int. apply Qle_bool_iff in H. now rewrite H.
Qed.

Lemma Qle_bool_comp x x' y y' :
  x == x' -> y == y' -> Qle_bool x y = Qle_bool x' y'.
Proof.
  intros Hx Hy. apply eq_iff_eq_true. rewrite !Qle_bool_iff, Hx, Hy. reflexivity.
Qed.

Lemma to_int_comp x y : x == y -> to_int x = to_int y.
Proof.
  intros H. unfold to_int.
  rewrite (Qle_bool_comp 0 0 x y), (Qfloor_comp x y), (Qceiling_comp x y);
    auto with qarith.
Qed.

Lemma Qfloor_nonneg x : 0 <= Qfloor x -> (0 <= x)%Q.
Proof.
  intros H. eapply Qle_trans; [|apply Qfloor_le].
  change 0%Q with (inject_Z 0). now rewrite <- Zle_Qle.
Qed.

Lemma nonneg_Qfloor x : (0 <= x)%Q -> 0 <= Qfloor x.
Proof. intros H. change 0 with (Qfloor 0). now apply Qfloor_resp_le. Qed.

(** [int(x % 3)] on a non-negative float is the integer part of [x]
    modulo 3: the remainder is exact and keeps its integer part. *)
Lemma float_mod3_to_int x y :
  (0 <= x)%Q -> y == 3 ->
  exists m, float_mod x y = Ok m /\ to_int m = Qfloor x `mod` 3.
Proof.
  intros Hx Hy. unfold float_mod.
  assert (Qeq_bool y 0 = false) as ->.
  { apply not_true_is_false. intros E. apply Qeq_bool_eq in E.
    rewrite Hy in E. discriminate E. }
  set (m := c_fmod x y).
  assert (Hm : m == x - inject_Z (3 * (Qfloor x `div` 3))).
  { unfold m, c_fmod.
    assert (D : (x / y == x / 3)%Q) by now rewrite Hy.
    rewrite (to_int_comp _ _ D), to_int_nonneg, Qfloor_div3.
    - rewrite Hy, inject_Z_mult. reflexivity.
    - apply Qfloor_nonneg. rewrite Qfloor_div3.
      apply Z.div_pos; [now apply nonneg_Qfloor | lia]. }
  assert (Hf : Qfloor m = Qfloor x `mod` 3).
  { rewrite (Qfloor_comp _ _ Hm), Qfloor_sub_Z.
    rewrite Z.mod_eq by lia. reflexivity. }
  assert (Hm0 : (0 <= m)%Q).
  { apply Qfloor_nonneg. rewrite Hf. apply Z.mod_pos_bound. lia. }
  eexists. split; [reflexivity|].
  destruct (Qeq_bool m 0) eqn:E.
  - apply Qeq_bool_eq in E. rewrite <- Hf. symmetry.
    rewrite <- (to_int_nonneg m Hm0). now apply to_int_comp.
  - assert (Qlt_bool y 0 = false) as ->.
    { unfold Qlt_bool. rewrite (Qle_bool_comp 0 0 y 3) by (auto with qarith).
      reflexivity. }
    assert (Qlt_bool m 0 = false) as ->.
    { unfold Qlt_bool. apply Qle_bool_iff in Hm0. now rewrite Hm0. }
    simpl. now rewrite to_int_nonneg.
Qed.

(** [i / 6] is a float whose integer part is the integer quotient. *)
Lemma true_div6_floor i :
  0 <= i < 3 * 2 ^ 52 ->
  exists x, true_div i 6 = Ok x /\ (0 <= x)%Q /\ Qfloor x = i `div` 6.
Proof.
  intros Hi. unfold true_div. simpl (6 =? 0).
  change (Z.sgn 6) with 1. rewrite Z.mul_1_l.
  change (Z.to_pos (Z.abs 6)) with 6%positive.
  destruct (Z.eq_dec i 0) as [->|Hne].
  { exists 0%Q. repeat split; discriminate. }
  assert (Hpos : 0 < i) by lia.
  destruct (exponent_div6 i ltac:(lia)) as (s & He & Hs).
  assert (Hr : round (i # 6) = rne_div (i * 2 ^ s) 6 # Z.to_pos (2 ^ s)).
  { unfold round. simpl Qnum. simpl Qden. destruct i as [|p|p]; try lia.
    unfold round_pos. rewrite He.
    destruct (Z.leb_spec 0 (- s)); [lia|]. now rewrite Z.opp_involutive. }
  rewrite Hr. clear Hr He.
  set (T := 2 ^ s).
  assert (HT : 4 <= T).
  { change 4 with (2 ^ 2). apply Z.pow_le_mono_r; lia. }
  set (m := rne_div (i * T) 6).
  pose proof (rne_div_bounds (i * T) 6 ltac:(lia)) as B. fold m in B.
  pose proof (Z.div_mod i 6 ltac:(lia)) as E.
  pose proof (Z.mod_pos_bound i 6 ltac:(lia)) as R.
  set (q := i `div` 6) in *. set (r := i `mod` 6) in *.
  assert (Hq : 0 <= q) by (apply Z.div_pos; lia).
  assert (Hlo : q * T <= m) by nia.
  assert (Hhi : m < (q + 1) * T) by nia.
  assert (Hfl : Qfloor (m # Z.to_pos T) = q).
  { unfold Qfloor. rewrite Z2Pos.id by lia.
    symmetry. apply (Z.div_unique m T q (m - q * T)); lia. }
  assert (Hx : (0 <= m # Z.to_pos T)%Q).
  { apply Qfloor_nonneg. lia. }
  assert (overflows (m # Z.to_pos T) = false) as ->.
  { unfold overflows. apply not_true_is_false. intros O.
    apply Qle_bool_iff in O. rewrite Qabs_pos in O by exact Hx.
    pose proof (Qlt_floor (m # Z.to_pos T)) as F. rewrite Hfl in F.
    pose proof (Qle_lt_trans _ _ _ O F) as C.
    rewrite <- Zlt_Qlt in C.
    assert (2 ^ 54 < 2 ^ 1024) by (apply Z.pow_lt_mono_r; lia).
    assert (3 * 2 ^ 52 < 2 ^ 54) by reflexivity. lia. }
  eauto.
Qed.

(** The float expression [int(i / 6 % 3)] is the integer [(i // 6) % 3]
    for every index below 3 * 2^52. *)
Lemma grid_row_exact i :
  0 <= i < 3 * 2 ^ 52 -> grid_row i = Ok ((i `div` 6) `mod` 3).
Proof.
  intros Hi. unfold grid_row.
  destruct (true_div6_floor i Hi) as (x & -> & Hx & Hfl). cbn [rbind].
  destruct (float_mod3_to_int x (promote 3) Hx) as (m & -> & Hm).
  { vm_compute. reflexivity. }
  cbn [rbind]. now rewrite Hm, Hfl.
Qed.

(** The bound is sharp: at i = 6 * 2^51 + 5 the quotient rounds up to the
    next integer and the float row is 0 where the integer row is 2. *)
Lemma grid_row_beyond :
  grid_row (6 * 2 ^ 51 + 5) = Ok 0
  /\ ((6 * 2 ^ 51 + 5) `div` 6) `mod` 3 = 2.
Proof. split; vm_compute; reflexivity. Qed.

Lemma sheet_x_exact i :
  let col := i `mod` 6 in
  sheet_x i == inject_Z Sheet.left + inject_Z col * inject_Z Sheet.image_w
               + inject_Z col * Sheet.gap.
Proof.
  intros col. unfold sheet_x. fold col.
  pose proof (Z.mod_pos_bound i 6 ltac:(lia)) as B. fold col in B.
  assert (C : col = 0 \/ col = 1 \/ col = 2 \/ col = 3 \/ col = 4 \/ col = 5)
    by lia.
  destruct C as [-> | [-> | [-> | [-> | [-> | ->]]]]];
    vm_compute; reflexivity.
Qed.

Lemma sheet_y_exact row :
  0 <= row < 3 ->
  sheet_y row == inject_Z Sheet.top + inject_Z row * inject_Z Sheet.image_h
                 + inject_Z row * Sheet.gap.
Proof.
  intros B. unfold sheet_y.
  assert (C : row = 0 \/ row = 1 \/ row = 2) by lia.
  destruct C as [-> | [-> | ->]]; vm_compute; reflexivity.
Qed.

Lemma promote_image_size :
  promote Sheet.image_w == inject_Z Sheet.image_w
  /\ promote Sheet.image_h == inject_Z Sheet.image_h.
Proof. split; vm_compute; reflexivity. Qed.

(** The gap literal [0.5] is exactly one half. *)
Lemma gap_exact : Sheet.gap == 1 # 2.
Proof. vm_compute. reflexivity. Qed.

End FloatFacts.

(** ** Dictionaries and sorting *)

Section DictFacts.
Import PyDict.
Context {V : Type}.
Implicit Types (d : dict V) (k : Z) (v : V).

Lemma get_set_eq k v d : get k (set k v d) = Some v.
Proof.
  induction d as [|[k' v'] d IH]; simpl.
  - now rewrite Z.eqb_refl.
  - destruct (k =? k') eqn:E; simpl; rewrite ?E, ?Z.eqb_refl; auto.
Qed.

Lemma get_set_ne k k' v d : k <> k' -> get k' (set k v d) = get k' d.
Proof.
  intros Hne. induction d as [|[k0 v0] d IH]; simpl.
  - destruct (Z.eqb_spec k' k); congruence.
  - destruct (Z.eqb_spec k k0) as [->|]; simpl.
    + destruct (Z.eqb_spec k' k0); congruence.
    + now rewrite IH.
Qed.

Lemma get_is_Some k d : k ∈ keys d -> is_Some (get k d).
Proof.
  unfold keys. induction d as [|[k' v'] d IH]; simpl.
  - intros H. inversion H.
  - destruct (Z.eqb_spec k k'); [eauto|].
    intros H. apply elem_of_cons in H as [?|?]; [congruence|auto].
Qed.

Lemma keys_get k d : is_Some (get k d) -> k ∈ keys d.
Proof.
  unfold keys. induction d as [|[k' v'] d IH]; simpl.
  - intros [? ?]. discriminate.
  - destruct (Z.eqb_spec k k') as [->|]; [left|right; auto].
Qed.

Lemma keys_set_present k v d : k ∈ keys d -> keys (set k v d) = keys d.
Proof.
  unfold keys. induction d as [|[k' v'] d IH]; simpl.
  - intros H. inversion H.
  - destruct (Z.eqb_spec k k') as [->|]; [reflexivity|].
    intros H. apply elem_of_cons in H as [?|?]; [congruence|].
    csimpl. now rewrite IH.
Qed.

Lemma keys_set_absent k v d : k ∉ keys d -> keys (set k v d) = keys d ++ [k].
Proof.
  unfold keys. induction d as [|[k' v'] d IH]; simpl; [reflexivity|].
  intros H. apply not_elem_of_cons in H as [? ?].
  destruct (Z.eqb_spec k k'); [congruence|]. csimpl. now rewrite IH.
Qed.

Lemma sorted_perm (l : list Z) : sorted l ≡ₚ l.
Proof. apply merge_sort_Permutation. Qed.

Lemma elem_of_sorted k (l : list Z) : k ∈ sorted l <-> k ∈ l.
Proof. now rewrite sorted_perm. Qed.

Lemma length_sorted (l : list Z) : length (sorted l) = length l.
Proof. now rewrite sorted_perm. Qed.

Lemma Sorted_seq (a len : nat) : Sorted Nat.le (seq a len).
Proof.
  revert a. induction len as [|len IH]; intros a; simpl; constructor; auto.
  destruct len; simpl; constructor. unfold Nat.le. lia.
Qed.

Lemma Sorted_seqZ m n : Sorted Z.le (seqZ m n).
Proof.
  unfold seqZ. apply (Sorted_fmap _ Nat.le Z.le); [unfold Nat.le; intros; lia|apply Sorted_seq].
Qed.

Lemma sorted_seqZ (l : list Z) n : l ≡ₚ seqZ 0 n -> sorted l = seqZ 0 n.
Proof.
  intros P. apply (StronglySorted_unique Z.le).
  - apply StronglySorted_merge_sort; apply _.
  - apply Sorted_StronglySorted; [intros ???; lia|apply Sorted_seqZ].
  - now rewrite sorted_perm.
Qed.
End DictFacts.


(** ** The exporter: writing to the open document *)

Section ExporterFacts.

Context {World : Type} {outside : Outside World}.
Implicit Types (m : @machine World) (doc : FPDF).
Import PyDict.

Lemma extend_extend doc a b : extend (extend doc a) b = extend doc (a ++ b).
Proof. unfold extend. simpl. now rewrite app_assoc. Qed.

Lemma extend_nil doc : extend doc [] = doc.
Proof. destruct doc. unfold extend. simpl. now rewrite app_nil_r. Qed.

Lemma with_pdf_same m doc : pdf m = Some doc -> with_pdf (Some doc) m = m.
Proof. destruct m. simpl. now intros ->. Qed.

Lemma emits_call op : @emits World (pdf_call op) [op].
Proof. intros m doc H. unfold pdf_call. now rewrite H. Qed.

Lemma emits_ret : @emits World (ret tt) [].
Proof.
  intros m doc H. unfold ret. now rewrite extend_nil, with_pdf_same.
Qed.

Lemma emits_bind (c1 c2 : @M World unit) l1 l2 :
  emits c1 l1 -> emits c2 l2 -> emits (bind c1 (fun _ => c2)) (l1 ++ l2).
Proof.
  intros H1 H2 m doc H. unfold bind. rewrite (H1 m doc H).
  rewrite (H2 _ (extend doc l1)) by reflexivity.
  now rewrite extend_extend.
Qed.

Lemma emits_add_a3_page : @emits World add_a3_page (AddPage :: cut_guides).
Proof.
  unfold add_a3_page, pdf_add_page, pdf_dashed_line.
  change (seqZ 1 5) with [1; 2; 3; 4; 5]. change (seqZ 1 2) with [1; 2].
  cbn [for_each].
  eapply (eq_ind _ (emits _)).
  - repeat first [ apply emits_bind | apply emits_call | apply emits_ret ].
  - reflexivity.
Qed.


Lemma emits_at (c : @M World unit) l m doc :
  emits c l -> pdf m = Some doc ->
  c m = (Ok tt, with_pdf (Some (extend doc l)) m).
Proof. intros H. apply H. Qed.

(** One turn of the loop of [export_a3]. *)
Lemma export_a3_slot_step i slot m doc :
  pdf m = Some doc ->
  0 <= i < 3 * 2 ^ 52 ->
  is_Some (get slot (paths_by_slot m)) ->
  export_a3_slot i slot m
  = (Ok (i + 1),
     with_journal (journal m ++ [Place (front_of (paths_by_slot m) slot)])
       (with_pdf (Some (extend doc (page_break i
                                    ++ [grid_image (paths_by_slot m) i slot])))
          (with_state ("Working on slot " ++ PyStr.str_of_int slot) m))).
Proof.
  intros Hdoc Hi [[back front] Hget].
  pose proof (grid_row_exact i Hi) as Hrow.
  assert (Hpage : @emits World (if (0 <? i) && (i `mod` 18 =? 0)
                         then add_a3_page else ret tt) (page_break i)).
  { unfold page_break. destruct ((0 <? i) && (i `mod` 18 =? 0));
      [apply emits_add_a3_page | apply emits_ret]. }
  set (m1 := with_state ("Working on slot " ++ PyStr.str_of_int slot) m).
  pose proof (emits_at _ _ m1 doc Hpage Hdoc) as E1.
  unfold grid_image, front_of. rewrite Hget.
  unfold export_a3_slot.
  cbv beta delta [bind read lift item set_state update] iota.
  rewrite Hget. fold m1. rewrite E1, Hrow.
  unfold pdf_image, pdf_call, bind, update, ret.
  cbn [pdf with_pdf]. rewrite extend_extend. reflexivity.
Qed.

(** The loop of [export_a3], started at index [i] with the document [doc]
    open. *)
Lemma export_a3_loop slots : forall i m doc,
  pdf m = Some doc ->
  0 <= i -> i + Z.of_nat (length slots) <= 3 * 2 ^ 52 ->
  (forall slot, slot ∈ slots -> is_Some (get slot (paths_by_slot m))) ->
  exists s,
    for_each_with slots i export_a3_slot m
    = (Ok (i + Z.of_nat (length slots)),
       with_journal (journal m ++ ((Place ∘ front_of (paths_by_slot m)) <$> slots))
         (with_pdf (Some (extend doc (grid_calls (paths_by_slot m) i slots)))
            (with_state s m))).
Proof.
  induction slots as [|slot slots IH]; intros i m doc Hdoc Hi Hn Hin.
  - exists (state m). simpl. unfold ret.
    rewrite Z.add_0_r, extend_nil, app_nil_r. destruct m; simpl in *; now subst.
  - rewrite length_cons in Hn.
    cbn [for_each_with]. unfold bind.
    rewrite (export_a3_slot_step i slot m doc Hdoc) by (auto with lia; apply Hin; left).
    eset (m2 := with_journal _ _).
    destruct (IH (i + 1) m2 (extend doc (page_break i ++ [grid_image (paths_by_slot m) i slot]))) as [s Hs].
    { reflexivity. } { lia. } {  lia. }
    { intros k Hk. apply Hin. now right. }
    exists s. rewrite Hs. f_equal.
    + rewrite length_cons. f_equal. lia.
    + unfold m2. cbn. rewrite extend_extend, <- !app_assoc. reflexivity.
Qed.


Lemma placements_app page a b :
  placements page (a ++ b)
  = placements page a ++ placements (page + page_count a) b.
Proof.
  revert page. induction a as [|[| |] a IH]; intros page; simpl.
  - now rewrite Z.add_0_r.
  - rewrite IH. do 2 f_equal. lia.
  - now rewrite IH.
  - now rewrite IH.
Qed.

Lemma page_count_app a b : page_count (a ++ b) = page_count a + page_count b.
Proof. induction a as [|[| |] a IH]; simpl; lia. Qed.

Lemma cut_guides_no_image page :
  placements page cut_guides = [] /\ page_count cut_guides = 0.
Proof. split; reflexivity. Qed.

Lemma page_break_spec i page :
  0 <= i ->
  placements page (page_break i) = []
  /\ page_before i + page_count (page_break i) = i `div` 18.
Proof.
  intros Hi. unfold page_break, page_before.
  destruct (Z.ltb_spec 0 i), (Z.eqb_spec (i `mod` 18) 0), (Z.eqb_spec i 0);
    simpl; rewrite ?(proj1 (cut_guides_no_image _)), ?(proj2 (cut_guides_no_image 0));
    split; try reflexivity; try lia.
  all: subst; try reflexivity.
  all: Z.div_mod_to_equations; lia.
Qed.

(** The images of the grid, page by page. *)
Lemma placements_grid paths slots : forall i,
  0 <= i ->
  placements (page_before i) (grid_calls paths i slots)
  = imap (fun j slot =>
            {| on_page := (i + Z.of_nat j) `div` 18;
               placed_path := front_of paths slot;
               at_x := sheet_x (i + Z.of_nat j);
               at_y := sheet_y (((i + Z.of_nat j) `div` 6) `mod` 3);
               width := Binary64.promote Sheet.image_w;
               height := Binary64.promote Sheet.image_h |}) slots.
Proof.
  induction slots as [|slot slots IH]; intros i Hi; [reflexivity|].
  cbn [grid_calls imap]. rewrite placements_app.
  destruct (page_break_spec i (page_before i) Hi) as [-> ->].
  cbn [app placements grid_image]. rewrite Z.add_0_r. f_equal.
  replace (i `div` 18) with (page_before (i + 1))
    by (unfold page_before; destruct (Z.eqb_spec (i + 1) 0); [lia|f_equal; lia]).
  rewrite IH by lia. apply imap_ext. intros j slot' _. simpl.
  replace (i + 1 + Z.of_nat j) with (i + Z.of_nat (S j)) by lia. reflexivity.
Qed.

Lemma page_count_grid paths slots : forall i,
  0 <= i ->
  page_count (grid_calls paths i slots)
  = page_before (i + Z.of_nat (length slots)) - page_before i.
Proof.
  induction slots as [|slot slots IH]; intros i Hi.
  - simpl. rewrite Z.add_0_r. lia.
  - cbn [grid_calls]. rewrite page_count_app.
    destruct (page_break_spec i 0 Hi) as [_ E].
    cbn [page_count grid_image]. rewrite IH by lia. rewrite length_cons.
    replace (i + 1 + Z.of_nat (length slots)) with (i + Z.of_nat (S (length slots))) by lia.
    assert (page_before (i + 1) = i `div` 18).
    { unfold page_before; destruct (Z.eqb_spec (i + 1) 0); [lia|f_equal; lia]. }
    lia.
Qed.


Ltac machine_simpl :=
  cbn [order state pdf card_width_in_inches card_height_in_inches file_num
       number_of_cards_per_file paths_by_slot save_path separate_faces
       current_face world written journal
       with_state with_pdf with_file_num with_number_of_cards_per_file
       with_paths_by_slot with_separate_faces with_current_face with_world
       with_written
       with_journal record] in *.

Lemma export_a3_run m :
  let paths := paths_by_slot m in
  let slots := sorted (keys paths) in
  Z.of_nat (length slots) <= 3 * 2 ^ 52 ->
  exists s,
    export_a3 m
    = (Ok tt,
       let doc := {| orientation := "L"; page_unit := "mm"; format := A3;
                     ops := AddPage :: cut_guides ++ grid_calls paths 0 slots |} in
       let file_name :=
         (save_path m ++ PyStr.str_of_int (file_num m) ++ ".pdf")%string in
       with_journal (journal m ++ ((Place ∘ front_of paths) <$> slots)
                     ++ [Output file_name])
         (with_written (written m ++ [(file_name, doc)])
            (with_pdf (Some doc) (with_state s m)))).
Proof.
  intros paths slots Hn.
  set (doc0 := {| orientation := "L"; page_unit := "mm"; format := A3; ops := [] |}).
  set (m0 := with_pdf (Some doc0) m).
  pose proof (emits_at _ _ m0 doc0 emits_add_a3_page eq_refl) as E0.
  set (m1 := with_pdf (Some (extend doc0 (AddPage :: cut_guides))) m0) in E0.
  destruct (export_a3_loop slots 0 m1 (extend doc0 (AddPage :: cut_guides)))
    as [s Hs].
  { reflexivity. } { apply Z.le_refl. } { exact Hn. }
  { intros slot Hslot. apply get_is_Some.
    exact (proj1 (elem_of_sorted slot (keys paths)) Hslot). }
  exists s. unfold export_a3.
  cbv beta delta [bind generate_pdf_a3 update read] iota.
  fold doc0. fold m0. rewrite E0.
  change (paths_by_slot m1) with paths in *. fold slots. rewrite Hs.
  unfold save_file, bind, read, pdf_output.
  cbn [pdf with_pdf with_state with_journal with_written record save_path file_num written journal].
  unfold extend. cbn [ops orientation page_unit format app doc0].
  unfold record, m1, m0. machine_simpl.
  rewrite <- app_assoc. reflexivity.
Qed.

(** C1. Grid-sheet mode: for a non-empty slot mapping (of at most 3 * 2^52
    slots, which covers every mapping that fits in memory), [export_a3]
    saves one document in which the i-th slot in ascending order has
    exactly one image, its front, on page floor(i / 18), at
    x = left + (i mod 6) * image_w + (i mod 6) * gap and
    y = top + row * image_h + row * gap with row = floor(i / 6) mod 3; the
    float expression [int(i / 6 % 3)] evaluates to that row; a sheet page is
    started before the first image and before the i-th one exactly when i is
    a non-zero multiple of 18. *)
Theorem export_a3_grid_layout m :
  let paths := paths_by_slot m in
  let slots := sorted (keys paths) in
  slots <> [] ->
  Z.of_nat (length slots) <= 3 * 2 ^ 52 ->
  exists doc m',
    export_a3 m = (Ok tt, m')
    /\ written m'
       = written m
         ++ [((save_path m ++ PyStr.str_of_int (file_num m) ++ ".pdf")%string, doc)]
    /\ ops doc = AddPage :: cut_guides ++ grid_calls paths 0 slots
    /\ page_count (ops doc) = (Z.of_nat (length slots) - 1) `div` 18 + 1
    /\ length (placements (-1) (ops doc)) = length slots
    /\ forall (i : nat) (slot : Z), slots !! i = Some slot ->
         let col := Z.of_nat i `mod` 6 in
         let row := (Z.of_nat i `div` 6) `mod` 3 in
         grid_row (Z.of_nat i) = Ok row
         /\ exists back front p,
              get slot paths = Some (back, front)
              /\ placements (-1) (ops doc) !! i = Some p
              /\ on_page p = Z.of_nat i `div` 18
              /\ placed_path p = front
              /\ (at_x p == inject_Z Sheet.left
                            + inject_Z col * inject_Z Sheet.image_w
                            + inject_Z col * Sheet.gap)%Q
              /\ (at_y p == inject_Z Sheet.top
                            + inject_Z row * inject_Z Sheet.image_h
                            + inject_Z row * Sheet.gap)%Q
              /\ (width p == inject_Z Sheet.image_w)%Q
              /\ (height p == inject_Z Sheet.image_h)%Q.
Proof.
  intros paths slots Hne Hn.
  destruct (export_a3_run m Hn) as [s Hrun]. fold paths slots in Hrun.
  eexists _, _. split; [exact Hrun|].
  machine_simpl. split; [reflexivity|]. cbn [ops].
  assert (Hpl : placements (-1) (AddPage :: cut_guides ++ grid_calls paths 0 slots)
                = imap (fun j slot =>
                     {| on_page := (0 + Z.of_nat j) `div` 18;
                        placed_path := front_of paths slot;
                        at_x := sheet_x (0 + Z.of_nat j);
                        at_y := sheet_y (((0 + Z.of_nat j) `div` 6) `mod` 3);
                        width := Binary64.promote Sheet.image_w;
                        height := Binary64.promote Sheet.image_h |}) slots).
  { cbn [placements]. rewrite placements_app.
    rewrite (proj1 (cut_guides_no_image _)), (proj2 (cut_guides_no_image 0)).
    apply (placements_grid paths slots 0). lia. }
  split; [reflexivity|]. split.
  { cbn [page_count]. rewrite page_count_app, (proj2 (cut_guides_no_image 0)).
    rewrite page_count_grid by lia. unfold page_before. simpl (0 =? 0).
    assert (length slots <> 0%nat) by (intros E; now apply Hne, nil_length_inv).
    destruct (Z.eqb_spec (0 + Z.of_nat (length slots)) 0); [lia|].
    rewrite Z.sub_0_r, Z.add_comm. f_equal. }
  split; [rewrite Hpl; apply length_imap|].
  intros i slot Hi.
  assert (Hlt : Z.of_nat i < Z.of_nat (length slots)).
  { apply lookup_lt_Some in Hi. lia. }
  split; [apply grid_row_exact; lia|].
  assert (Hin : slot ∈ keys paths).
  { apply (elem_of_sorted slot (keys paths)). eapply list_elem_of_lookup_2, Hi. }
  destruct (get_is_Some _ _ Hin) as [[back front] Hget].
  exists back, front. eexists. split; [exact Hget|].
  rewrite Hpl, list_lookup_imap, Hi. split; [reflexivity|]. cbn.
  unfold front_of. rewrite Hget.
  split; [reflexivity|]. split; [reflexivity|].
  split; [apply sheet_x_exact|].
  split; [apply sheet_y_exact, Z.mod_pos_bound; lia|].
  apply promote_image_size.
Qed.


(** ** Sequential mode *)

Lemma add_image_spec p m doc :
  pdf m = Some doc ->
  add_image p m
  = (Ok tt,
     record (Place p)
       (with_pdf (Some (extend doc
          [AddPage; Image p (Binary64.promote 0) (Binary64.promote 0)
                      (card_width_in_inches m) (card_height_in_inches m)])) m)).
Proof.
  intros H. unfold add_image, pdf_add_page, pdf_image, pdf_call, bind, read, update.
  rewrite H. machine_simpl. now rewrite extend_extend.
Qed.

Lemma save_file_spec m doc :
  pdf m = Some doc ->
  save_file m
  = (Ok tt,
     record (Output (document_name (save_path m) (file_num m)))
       (with_written
          (written m ++ [(document_name (save_path m) (file_num m), doc)]) m)).
Proof.
  intros H. unfold save_file, pdf_output, bind, read. now rewrite H.
Qed.

Lemma save_file_closed m :
  pdf m = None -> save_file m = (Raise AttributeError, m).
Proof.
  intros H. unfold save_file, pdf_output, bind, read. now rewrite H.
Qed.

Section Sequential.

Variables (paths : dict (string * string)) (k n : Z) (w h : Binary64.float).
Variables (dir : string) (files : list (string * FPDF)).
Hypothesis Hk : 1 <= k.

Let pages (first count : Z) : list pdf_op :=
  flat_map (slot_pages paths w h) (seqZ first count).

Let full_document (j : Z) : string * FPDF :=
  (document_name dir (1 + j), card_document w h (pages (j * k) k)).

(** The machine after the slots [0 .. j-1], [1 <= j]. *)
Let after_slots (j : Z) (m : @machine World) : Prop :=
  let c := (j - 1) `div` k in
  paths_by_slot m = paths
  /\ number_of_cards_per_file m = k
  /\ save_path m = dir
  /\ card_width_in_inches m = w
  /\ card_height_in_inches m = h
  /\ file_num m = 1 + c
  /\ pdf m = Some (card_document w h (pages (c * k) (j - c * k)))
  /\ written m = files ++ (full_document <$> seqZ 0 c).

Lemma export_slot_first m :
  paths_by_slot m = paths -> number_of_cards_per_file m = k ->
  save_path m = dir -> card_width_in_inches m = w ->
  card_height_in_inches m = h -> file_num m = 1 -> written m = files ->
  is_Some (get 0 paths) ->
  exists m', export_slot 0 m = (Ok tt, m') /\ after_slots 1 m'.
Proof.
  intros Hp Hc Hd Hw Hh Hf Hwr [[back front] Hget].
  unfold export_slot.
  cbv beta delta [bind read lift item set_state update generate_pdf] iota.
  rewrite Hp, Hget. simpl (0 =? 0). cbv beta iota.
  erewrite add_image_spec by reflexivity.
  erewrite add_image_spec by reflexivity.
  eexists. split; [reflexivity|].
  unfold after_slots. machine_simpl.
  replace ((1 - 1) `div` k) with 0 by (symmetry; apply Z.div_0_l; lia).
  rewrite extend_extend. repeat split; auto.
  - unfold extend, card_document, pages. cbn [ops orientation page_unit format app].
    rewrite Hw, Hh. change (seqZ (0 * k) (1 - 0 * k)) with [0].
    cbn [flat_map slot_pages app]. unfold back_of, front_of. rewrite Hget. reflexivity.
  - now rewrite Hwr, app_nil_r.
Qed.

Lemma seqZ_snoc first count :
  0 <= count -> seqZ first (count + 1) = seqZ first count ++ [first + count].
Proof. intros H. rewrite seqZ_app by lia. reflexivity. Qed.

Lemma export_slot_next j m :
  1 <= j -> after_slots j m -> is_Some (get j paths) ->
  exists m', export_slot j m = (Ok tt, m') /\ after_slots (j + 1) m'.
Proof.
  intros Hj (Hp & Hc & Hd & Hw & Hh & Hf & Hpdf & Hwr) [[back front] Hget].
  set (c := (j - 1) `div` k) in *.
  assert (Hc1 : c * k <= j - 1 < (c + 1) * k).
  { unfold c. Z.div_mod_to_equations. nia. }
  assert (Hc0 : 0 <= c) by (apply Z.div_pos; lia).
  unfold export_slot.
  cbv beta delta [bind read lift item set_state update generate_pdf int_mod] iota.
  rewrite Hp, Hget. cbv beta iota.
  destruct (Z.eqb_spec j 0) as [|_]; [lia|].
  cbv beta iota. machine_simpl. rewrite Hc.
  destruct (Z.eqb_spec k 0) as [|_]; [lia|].
  cbv beta iota.
  destruct (Z.eqb_spec (j `mod` k) 0) as [Hmod|Hmod].
  - (* the document is full: it is saved and a new one is started *)
    assert (Hjk : j = (c + 1) * k).
    { pose proof (Z.div_mod j k ltac:(lia)) as E. rewrite Hmod, Z.add_0_r in E.
      set (q := j `div` k) in E.
      assert (c < q) by nia. assert (q < c + 2) by nia.
      replace (c + 1) with q by lia. lia. }
    erewrite save_file_spec by (machine_simpl; exact Hpdf).
    machine_simpl.
    erewrite add_image_spec by reflexivity.
    erewrite add_image_spec by reflexivity.
    eexists. split; [reflexivity|].
    unfold after_slots. machine_simpl.
    replace ((j + 1 - 1) `div` k) with (c + 1)
      by (apply (Z.div_unique _ k _ 0); lia).
    repeat split; auto; try (rewrite Hf; lia).
    + rewrite extend_extend. unfold extend, card_document, pages.
      cbn [ops orientation page_unit format app]. rewrite Hw, Hh.
      replace (j + 1 - (c + 1) * k) with 1 by lia. rewrite <- Hjk.
      change (seqZ j 1) with ([] ++ seqZ j 1). 
      rewrite (seqZ_cons j 1) by lia. rewrite seqZ_nil by lia.
      cbn [flat_map slot_pages app]. unfold back_of, front_of. rewrite Hget.
      reflexivity.
    + rewrite Hwr, Hd, Hf. rewrite <- app_assoc. f_equal.
      replace (c + 1) with (c + 1)%Z by reflexivity.
      rewrite (seqZ_snoc 0 c) by lia. rewrite fmap_app. f_equal.
      cbn [fmap list_fmap]. unfold full_document. rewrite Z.add_0_l.
      replace (j - c * k) with k by lia. reflexivity.
  - (* the slot joins the open document *)
    assert (Hlt : j < (c + 1) * k).
    { destruct (Z.eq_dec j ((c + 1) * k)) as [E|]; [|lia].
      exfalso. apply Hmod. rewrite E. apply Z.mod_mul. lia. }
    unfold ret. cbv beta iota.
    erewrite add_image_spec by (machine_simpl; exact Hpdf).
    erewrite add_image_spec by reflexivity.
    eexists. split; [reflexivity|].
    unfold after_slots. machine_simpl.
    replace ((j + 1 - 1) `div` k) with c
      by (apply (Z.div_unique _ k _ (j - c * k)); lia).
    repeat split; auto; try (rewrite Hf; lia).
    rewrite extend_extend. unfold extend, card_document, pages.
    cbn [ops orientation page_unit format app]. rewrite Hw, Hh.
    replace (j + 1 - c * k) with ((j - c * k) + 1) by lia.
    rewrite seqZ_snoc by lia. rewrite flat_map_app.
    replace (c * k + (j - c * k)) with j by lia.
    cbn [flat_map slot_pages app]. unfold back_of, front_of. rewrite Hget.
    reflexivity.
Qed.


Lemma export_loop (count : nat) : forall j m,
  1 <= j -> after_slots j m ->
  (forall i, j <= i < j + Z.of_nat count -> is_Some (get i paths)) ->
  exists m',
    for_each (seqZ j (Z.of_nat count)) export_slot m = (Ok tt, m')
    /\ after_slots (j + Z.of_nat count) m'.
Proof.
  induction count as [|count IH]; intros j m Hj Hinv Hget.
  - exists m. split; [reflexivity|]. now rewrite Z.add_0_r.
  - rewrite seqZ_cons by lia. cbn [for_each]. unfold bind.
    destruct (export_slot_next j m Hj Hinv) as (m1 & -> & Hinv1).
    { apply Hget. lia. }
    destruct (IH (j + 1) m1) as (m2 & Hrun & Hinv2); [lia|exact Hinv1| |].
    { intros i Hi. apply Hget. lia. }
    exists m2. replace (Z.succ j) with (j + 1) by lia.
    replace (Z.pred (Z.of_nat (S count))) with (Z.of_nat count) by lia.
    split; [exact Hrun|].
    now replace (j + Z.of_nat (S count)) with (j + 1 + Z.of_nat count) by lia.
Qed.

(** All the slots [0 .. n-1], then the final save. *)
Lemma export_contiguous m :
  1 <= n ->
  sorted (keys (paths_by_slot m)) = seqZ 0 n ->
  paths_by_slot m = paths -> number_of_cards_per_file m = k ->
  save_path m = dir -> card_width_in_inches m = w ->
  card_height_in_inches m = h -> file_num m = 1 -> written m = files ->
  exists m',
    export m = (Ok tt, m')
    /\ file_num m' = ceil_div n k
    /\ written m'
       = files
         ++ ((fun j => (document_name dir (1 + j),
                        card_document w h
                          (pages (j * k) (Z.min k (n - j * k)))))
             <$> seqZ 0 (ceil_div n k)).
Proof.
  intros Hn Hsorted Hp Hc Hd Hw Hh Hf Hwr.
  assert (Hall : forall i, 0 <= i < n -> is_Some (get i paths)).
  { intros i Hi. rewrite <- Hp. apply get_is_Some.
    apply (elem_of_sorted i (keys (paths_by_slot m))).
    rewrite Hsorted. apply elem_of_seqZ. lia. }
  unfold export. unfold bind at 1. unfold read at 1. unfold bind at 1.
  rewrite Hsorted, (seqZ_cons 0 n) by lia. cbn [for_each]. unfold bind at 1.
  destruct (export_slot_first m Hp Hc Hd Hw Hh Hf Hwr) as (m1 & -> & Hinv1).
  { apply Hall. lia. }
  destruct (export_loop (Z.to_nat (n - 1)) 1 m1) as (m2 & Hrun & Hinv2);
    [lia|exact Hinv1| |].
  { intros i Hi. apply Hall. lia. }
  change (Z.succ 0) with 1. replace (Z.pred n) with (Z.of_nat (Z.to_nat (n - 1))) by lia.
  rewrite Hrun.
  replace (1 + Z.of_nat (Z.to_nat (n - 1))) with n in Hinv2 by lia.
  destruct Hinv2 as (Hp2 & Hc2 & Hd2 & Hw2 & Hh2 & Hf2 & Hpdf2 & Hwr2).
  set (c := (n - 1) `div` k) in *.
  assert (Hc1 : c * k <= n - 1 < (c + 1) * k).
  { unfold c. Z.div_mod_to_equations. nia. }
  assert (Hc0 : 0 <= c) by (apply Z.div_pos; lia).
  assert (Hceil : ceil_div n k = c + 1).
  { unfold ceil_div. symmetry. apply (Z.div_unique _ k _ (n - 1 - c * k)); lia. }
  cbv beta delta [bind read set_state update] iota.
  erewrite save_file_spec by (machine_simpl; exact Hpdf2).
  eexists. split; [reflexivity|]. machine_simpl.
  split; [rewrite Hf2, Hceil; lia|].
  rewrite Hwr2, Hd2, Hf2, Hceil, <- app_assoc. f_equal.
  rewrite (seqZ_snoc 0 c) by lia. rewrite fmap_app. f_equal.
  - apply list_fmap_ext. intros i j Hj.
    apply lookup_seqZ in Hj as [-> Hi]. unfold full_document.
    do 3 f_equal. nia.
  - cbn [fmap list_fmap]. rewrite Z.add_0_l. do 4 f_equal. lia.
Qed.

End Sequential.

(** C2. Sequential mode: for a slot mapping over the contiguous indices
    0 .. n-1 (n >= 1) and k >= 1 cards per document, [export], started at
    document number 1, saves exactly ceil(n / k) documents, numbered 1, 2,
    ... in that order; document j+1 holds the slots j*k .. min((j+1)*k, n)-1,
    so a new document starts at slot 0 and at every non-zero multiple of k;
    every slot gives two consecutive pages, its back and then its front, at
    (0, 0) with the configured card width and height; the last, possibly
    partial, document is saved after the loop. *)
Theorem export_sequential_documents m n :
  let paths := paths_by_slot m in
  let k := number_of_cards_per_file m in
  let w := card_width_in_inches m in
  let h := card_height_in_inches m in
  keys paths ≡ₚ seqZ 0 n ->
  1 <= n -> 1 <= k -> file_num m = 1 ->
  exists m',
    export m = (Ok tt, m')
    /\ file_num m' = ceil_div n k
    /\ written m'
       = written m
         ++ ((fun j =>
                (document_name (save_path m) (1 + j),
                 card_document w h
                   (flat_map (slot_pages paths w h)
                      (seqZ (j * k) (Z.min k (n - j * k))))))
             <$> seqZ 0 (ceil_div n k)).
Proof.
  intros paths k w h Hperm Hn Hk Hf.
  apply (export_contiguous paths k n w h (save_path m) (written m) Hk m);
    auto using sorted_seqZ.
Qed.


(** ** The empty slot mapping *)

(** C3, as the code has it.  No [LayoutError] exists.  With an empty slot
    mapping, [export_a3] does not fail: it saves one document, a single
    sheet page carrying the cut guides and no image.  [export], which opens
    its first document at slot 0, fails when none is open: nothing is
    placed and no file is written. *)
Theorem export_empty_mapping m :
  paths_by_slot m = [] ->
  (exists m',
     export_a3 m = (Ok tt, m')
     /\ written m'
        = written m
          ++ [(document_name (save_path m) (file_num m),
               {| orientation := "L"; page_unit := "mm"; format := A3;
                  ops := AddPage :: cut_guides |})]
     /\ placements (-1) (AddPage :: cut_guides) = [])
  /\ (pdf m = None ->
      exists m',
        export m = (Raise AttributeError, m')
        /\ written m' = written m /\ journal m' = journal m).
Proof.
  intros Hempty. split.
  - destruct (export_a3_run m) as [s Hrun].
    { rewrite Hempty. simpl. lia. }
    rewrite Hempty in Hrun. change (sorted (keys [])) with (@nil Z) in Hrun.
    cbn [grid_calls fmap list_fmap] in Hrun. rewrite app_nil_r in Hrun.
    eexists. split; [exact Hrun|]. split; [reflexivity|].
    apply (cut_guides_no_image 0).
  - intros Hpdf. unfold export.
    cbv beta delta [bind read set_state update] iota.
    rewrite Hempty. change (sorted (keys [])) with (@nil Z).
    cbn [for_each]. unfold ret.
    rewrite save_file_closed by (machine_simpl; exact Hpdf).
    eexists. split; [reflexivity|]. split; reflexivity.
Qed.


(** ** Configuration *)

Lemma ask_questions_at_least_one a m m' :
  ask_questions a m = (Ok tt, m') -> 1 <= number_of_cards_per_file m'.
Proof.
  unfold ask_questions, bind, update, lift.
  destruct (split_faces a).
  - intros [= <-]. machine_simpl. lia.
  - destruct (int_of_value (cards_per_file a)) as [z|e]; [|discriminate].
    intros [= <-]. machine_simpl. destruct (Z.ltb_spec z 1); lia.
Qed.

Lemma steady_bind {A B} (c : @M World A) (f : A -> @M World B) m :
  steady_at c m ->
  (forall a m1, c m = (Ok a, m1) -> steady_at (f a) m1) ->
  steady_at (bind c f) m.
Proof.
  unfold steady_at, bind. intros [Hr Hk] Hf.
  destruct (c m) as [[a|e] m1]; cbn [fst snd] in *.
  - destruct (Hf a m1 eq_refl) as [Hr' Hk']. split; congruence.
  - split; [|exact Hk]. intros [= ->]. now apply Hr.
Qed.

Lemma steady_read {A} (f : @machine World -> A) m : steady_at (read f) m.
Proof. split; [discriminate|reflexivity]. Qed.

Lemma steady_bind_read {A B} (f : @machine World -> A) (k : A -> @M World B) m :
  steady_at (k (f m)) m -> steady_at (bind (read f) k) m.
Proof. intros H. exact H. Qed.

Lemma steady_bind_lift {A B} (r : result A) (k : A -> @M World B) m :
  r <> Raise ZeroDivisionError ->
  (forall a, r = Ok a -> steady_at (k a) m) ->
  steady_at (bind (lift r) k) m.
Proof.
  intros Hr Hk. unfold steady_at, bind, lift. destruct r as [a|e].
  - now apply Hk.
  - split; [|reflexivity]. cbn. intros [= ->]. now apply Hr.
Qed.

Lemma steady_bind_update {B} (f : @machine World -> machine)
    (k : unit -> @M World B) m :
  number_of_cards_per_file (f m) = number_of_cards_per_file m ->
  steady_at (k tt) (f m) ->
  steady_at (bind (update f) k) m.
Proof.
  intros Hf [Hr Hk]. unfold steady_at, bind, update. split; [exact Hr|congruence].
Qed.

Lemma steady_ret {A} (a : A) m : steady_at (@ret World A a) m.
Proof. split; [discriminate|reflexivity]. Qed.

Lemma steady_lift {A} (r : result A) m :
  r <> Raise ZeroDivisionError -> steady_at (@lift World A r) m.
Proof. intros H. split; [exact H|reflexivity]. Qed.

Lemma steady_update (f : @machine World -> machine) m :
  number_of_cards_per_file (f m) = number_of_cards_per_file m ->
  steady_at (update f) m.
Proof. intros H. split; [discriminate|exact H]. Qed.

Lemma steady_pdf_call op m : steady_at (pdf_call op) m.
Proof.
  unfold steady_at, pdf_call. destruct (pdf m); split; (discriminate || reflexivity).
Qed.

Lemma steady_pdf_output name m : steady_at (pdf_output name) m.
Proof.
  unfold steady_at, pdf_output. destruct (pdf m); split; (discriminate || reflexivity).
Qed.

Lemma steady_add_image p m : steady_at (add_image p) m.
Proof.
  unfold add_image, pdf_add_page, pdf_image.
  repeat first [ apply steady_bind; [|intros ? ? _] | apply steady_read
               | apply steady_pdf_call | apply steady_update; reflexivity ].
Qed.

Lemma steady_save_file m : steady_at save_file m.
Proof.
  unfold save_file.
  repeat first [ apply steady_bind; [|intros ? ? _] | apply steady_read
               | apply steady_pdf_output ].
Qed.

Lemma steady_export_slot slot m :
  number_of_cards_per_file m <> 0 -> steady_at (export_slot slot) m.
Proof.
  intros Hk. unfold export_slot, set_state, generate_pdf.
  apply steady_bind_read.
  apply steady_bind_lift.
  { unfold item. destruct (get _ _); discriminate. }
  intros [back front] _.
  apply steady_bind_update; [reflexivity|].
  apply steady_bind; [|intros _ m3 _].
  - destruct (slot =? 0); [apply steady_update; reflexivity|].
    apply steady_bind_read. machine_simpl.
    apply steady_bind_lift.
    { unfold int_mod.
      destruct (Z.eqb_spec (number_of_cards_per_file m) 0);
        [contradiction|discriminate]. }
    intros r _. destruct (r =? 0); [|apply steady_ret].
    repeat first [ apply steady_save_file | apply steady_read
                 | apply steady_update; reflexivity
                 | apply steady_bind; [|intros ? ? _] ].
  - repeat first [ apply steady_add_image | apply steady_update; reflexivity
                 | apply steady_bind; [|intros ? ? _] ].
Qed.

Lemma steady_export_loop slots : forall m,
  number_of_cards_per_file m <> 0 -> steady_at (for_each slots export_slot) m.
Proof.
  induction slots as [|slot slots IH]; intros m Hk; cbn [for_each].
  - apply steady_ret.
  - apply steady_bind; [now apply steady_export_slot|].
    intros u m1 E. apply IH.
    destruct (steady_export_slot slot m Hk) as [_ Hk'].
    rewrite E in Hk'. cbn [snd] in Hk'. congruence.
Qed.

Lemma export_no_zero_division m :
  number_of_cards_per_file m <> 0 ->
  fst (export m) <> Raise ZeroDivisionError.
Proof.
  intros Hk. unfold export, set_state.
  apply steady_bind_read.
  apply steady_bind; [now apply steady_export_loop|]. intros _ m1 _.
  repeat first [ apply steady_save_file | apply steady_read
               | apply steady_update; reflexivity
               | apply steady_bind; [|intros ? ? _] ].
Qed.

(** C9. Whatever the answers, once [ask_questions] has returned the number
    of cards per file is at least 1, and [export], run with that number,
    never raises [ZeroDivisionError] at [slot % number_of_cards_per_file]. *)
Theorem ask_questions_then_export_divides a m m' :
  ask_questions a m = (Ok tt, m') ->
  1 <= number_of_cards_per_file m'
  /\ forall m'',
       number_of_cards_per_file m'' = number_of_cards_per_file m' ->
       fst (export m'') <> Raise ZeroDivisionError.
Proof.
  intros Hask. pose proof (ask_questions_at_least_one a m m' Hask) as H.
  split; [exact H|]. intros m'' E. apply export_no_zero_division. lia.
Qed.


(** ** Conditioning *)

Lemma inspect_line_flags flags line r :
  inspect_line flags line = Ok r ->
  r.1.1 = flags.1.1 /\ r.2 = flags.2.
Proof.
  destruct flags as [[d s] c]. unfold inspect_line.
  destruct (PyStr.contains _ _); [|intros [= <-]; auto].
  destruct (geometry_of_line line) as [[w h]|]; [|discriminate]. cbn [rbind].
  destruct (Binary64.true_div w 63); [|discriminate]. cbn [rbind].
  destruct (Binary64.true_div h 88); [|discriminate]. cbn [rbind].
  intros [= <-]. auto.
Qed.

(** The loop over the output lines never touches [need_downsize] and
    [need_compression]. *)
Lemma inspect_lines_flags output : forall flags r,
  inspect_lines output flags = Ok r ->
  r.1.1 = flags.1.1 /\ r.2 = flags.2.
Proof.
  induction output as [|line rest IH]; intros flags r; cbn [inspect_lines].
  - intros [= <-]. auto.
  - destruct (inspect_line flags line) as [flags'|] eqn:E; [|discriminate].
    cbn [rbind]. intros H. apply IH in H as [-> ->].
    now apply inspect_line_flags in E.
Qed.

(** The check runs [identify] once and returns the three flags, the first
    and the last of which are [False]. *)
Lemma images_havent_been_prepared_run p m :
  let out := run (command (IdentifyVerbose p)) (world m) in
  let m1 := record (Run (IdentifyVerbose p)) (with_world out.1 m) in
  (exists need_reshape,
     inspect_lines (PyStr.splitlines out.2) (false, true, false)
     = Ok (false, need_reshape, false)
     /\ images_havent_been_prepared p m
        = (Ok [false; need_reshape; false], m1))
  \/ (exists e,
        inspect_lines (PyStr.splitlines out.2) (false, true, false) = Raise e
        /\ images_havent_been_prepared p m = (Raise e, m1)).
Proof.
  intros out m1. unfold images_havent_been_prepared, subprocess_run, bind, lift, ret.
  fold out. destruct out as [w stdout] eqn:Eout. cbn [fst snd] in *. fold m1.
  destruct (inspect_lines _ _) as [[[d s] c]|e] eqn:E.
  - apply inspect_lines_flags in E as E'. cbn in E'. destruct E' as [-> ->].
    left. exists s. split; reflexivity.
  - right. exists e. split; reflexivity.
Qed.

(** [convert_to_jpg] always returns a path; it runs at most one command,
    the conversion, and touches nothing but the world and the journal. *)
Lemma convert_to_jpg_run p m :
  exists jpeg calls w,
    convert_to_jpg p m
    = (Ok jpeg, with_journal (journal m ++ (Run <$> calls)) (with_world w m))
    /\ (calls = [] \/ calls = [MagickConvert p jpeg]).
Proof.
  unfold convert_to_jpg.
  assert (Hm : with_journal (journal m ++ (Run <$> [])) (with_world (world m) m) = m).
  { destruct m. cbn. now rewrite app_nil_r. }
  destruct (PyStr.endswith p "jpg").
  - exists p, [], (world m). rewrite Hm. split; [reflexivity|now left].
  - unfold bind, read.
    destruct (path_exists (world m) (new_jpg_path p)).
    + exists (new_jpg_path p), [], (world m). rewrite Hm.
      split; [reflexivity|now left].
    + unfold subprocess_run, ret.
      destruct (run _ (world m)) as [w out].
      exists (new_jpg_path p), [MagickConvert p (new_jpg_path p)], w.
      split; [reflexivity|now right].
Qed.

Lemma index_flags (d s c : bool) :
  index [d; s; c] 0 = Ok d /\ index [d; s; c] 1 = Ok s /\ index [d; s; c] 2 = Ok c.
Proof. repeat split. Qed.

(** One turn of the loop of [prepare_images]: the journal grows by
    conditioning calls only, and when the turn succeeds the slot holds the
    path that was converted and inspected. *)
Lemma prepare_slot_spec slot m r m' :
  prepare_slot slot m = (r, m') ->
  exists calls,
    journal m' = journal m ++ (Run <$> calls)
    /\ Forall (fun c => conditioning_call c = true) calls
    /\ (r = Ok tt ->
        exists back front jpeg,
          get slot (paths_by_slot m) = Some (back, front)
          /\ paths_by_slot m' = set slot (back, jpeg) (paths_by_slot m)
          /\ IdentifyVerbose jpeg ∈ calls).
Proof.
  unfold prepare_slot. unfold bind at 1, read at 1. unfold bind at 1, lift at 1, item.
  destruct (get slot (paths_by_slot m)) as [[back front]|] eqn:Hget.
  2:{ intros [= <- <-]. exists []. cbn. rewrite app_nil_r.
      split; [reflexivity|]. split; [apply Forall_nil_2|discriminate]. }
  cbn [fst snd]. unfold bind at 1.
  destruct (convert_to_jpg_run front m) as (jpeg & pre & w1 & -> & Hpre).
  set (m1 := with_journal _ _).
  unfold bind at 1, update at 1. unfold bind at 1, ret at 1.
  set (m2 := with_paths_by_slot _ m1).
  unfold bind at 1.
  assert (Hpre' : Forall (fun c => conditioning_call c = true) pre).
  { destruct Hpre as [->| ->]; repeat constructor. }
  destruct (images_havent_been_prepared_run jpeg m2)
    as [(reshape & _ & ->) | (e & _ & ->)].
  - set (m3 := record _ _).
    destruct (index_flags false reshape false) as (E0 & E1 & E2).
    unfold bind at 1, lift at 1. rewrite E2.
    unfold bind at 1, ret at 1.
    unfold bind at 1, lift at 1. rewrite E1.
    unfold bind at 1.
    destruct reshape.
    + unfold cut_and_reshape, subprocess_run, bind, ret, lift.
      destruct (run _ (world m3)) as [w3 out3]. rewrite E0.
      intros [= <- <-].
      exists (pre ++ [IdentifyVerbose jpeg; MogrifyShaveCrop jpeg]).
      subst m3 m2 m1. machine_simpl.
      rewrite fmap_app, <- !app_assoc. split; [reflexivity|].
      split; [apply Forall_app; split; [exact Hpre'|repeat constructor]|].
      intros _. exists back, front, jpeg.
      split; [reflexivity|]. split; [reflexivity|].
      apply elem_of_app. right. left.
    + unfold ret at 1. unfold bind, lift, ret. rewrite E0.
      intros [= <- <-].
      exists (pre ++ [IdentifyVerbose jpeg]).
      subst m3 m2 m1. machine_simpl.
      rewrite fmap_app, <- !app_assoc. split; [reflexivity|].
      split; [apply Forall_app; split; [exact Hpre'|repeat constructor]|].
      intros _. exists back, front, jpeg.
      split; [reflexivity|]. split; [reflexivity|].
      apply elem_of_app. right. left.
  - intros [= <- <-]. exists (pre ++ [IdentifyVerbose jpeg]).
    subst m2 m1. machine_simpl.
    rewrite fmap_app, <- !app_assoc. split; [reflexivity|].
    split; [apply Forall_app; split; [exact Hpre'|repeat constructor]|].
    discriminate.
Qed.

(** The loop of [prepare_images] over the slots [l]. *)
Lemma prepare_loop_spec l : forall m r m',
  for_each l prepare_slot m = (r, m') ->
  exists calls,
    journal m' = journal m ++ (Run <$> calls)
    /\ Forall (fun c => conditioning_call c = true) calls
    /\ (r = Ok tt ->
        keys (paths_by_slot m') = keys (paths_by_slot m)
        /\ (forall k, k ∉ l -> get k (paths_by_slot m') = get k (paths_by_slot m))
        /\ (forall k, k ∈ l ->
              exists back jpeg,
                get k (paths_by_slot m') = Some (back, jpeg)
                /\ IdentifyVerbose jpeg ∈ calls)).
Proof.
  induction l as [|slot l IH]; intros m r m'; cbn [for_each].
  - intros [= <- <-]. exists []. cbn. rewrite app_nil_r.
    split; [reflexivity|]. split; [apply Forall_nil_2|]. intros _.
    split; [reflexivity|]. split; [reflexivity|].
    intros k Hk. inversion Hk.
  - unfold bind. destruct (prepare_slot slot m) as [[[]|e] m1] eqn:E1.
    + destruct (prepare_slot_spec slot m _ _ E1) as (c1 & J1 & F1 & S1).
      destruct (S1 eq_refl) as (back & front & jpeg & Hget & Hp1 & Hid).
      intros E2. destruct (IH m1 r m' E2) as (c2 & J2 & F2 & S2).
      exists (c1 ++ c2). rewrite J2, J1, fmap_app, app_assoc.
      split; [reflexivity|]. split; [now apply Forall_app|].
      intros Hr. destruct (S2 Hr) as (K2 & O2 & I2).
      assert (Hslot : slot ∈ keys (paths_by_slot m)).
      { apply keys_get. rewrite Hget. eauto. }
      split; [|split].
      * rewrite K2, Hp1. now apply keys_set_present.
      * intros k Hk. apply not_elem_of_cons in Hk as [Hne Hk].
        rewrite (O2 k Hk), Hp1. apply get_set_ne. congruence.
      * intros k Hk. destruct (decide (k ∈ l)) as [Hin|Hnin].
        -- destruct (I2 k Hin) as (b & j & G & Hj).
           exists b, j. split; [exact G|]. apply elem_of_app. now right.
        -- apply elem_of_cons in Hk as [->|Hk]; [|contradiction].
           exists back, jpeg. rewrite (O2 slot Hnin), Hp1, get_set_eq.
           split; [reflexivity|]. apply elem_of_app. now left.
    + intros [= <- <-].
      destruct (prepare_slot_spec slot m _ _ E1) as (c1 & J1 & F1 & _).
      exists c1. split; [exact J1|]. split; [exact F1|discriminate].
Qed.

(** [prepare_images]: only conditioning calls are made; when it returns,
    the mapping has the same slots and every front path in it has been
    inspected. *)
Lemma prepare_images_spec m r m' :
  prepare_images m = (r, m') ->
  exists calls,
    journal m' = journal m ++ (Run <$> calls)
    /\ Forall (fun c => conditioning_call c = true) calls
    /\ (r = Ok tt ->
        keys (paths_by_slot m') = keys (paths_by_slot m)
        /\ forall k, k ∈ keys (paths_by_slot m) ->
             IdentifyVerbose (front_of (paths_by_slot m') k) ∈ calls).
Proof.
  unfold prepare_images, bind, read. intros E.
  destruct (prepare_loop_spec _ _ _ _ E) as (calls & J & F & S).
  exists calls. split; [exact J|]. split; [exact F|].
  intros Hr. destruct (S Hr) as (K & _ & I). split; [exact K|].
  intros k Hk. destruct (I k Hk) as (b & j & G & Hj).
  unfold front_of. now rewrite G.
Qed.

(** C7. The preparedness check returns [need_downsize = False] for every
    artifact, whatever [identify] prints, and [prepare_images] never runs
    the command of [downsize_image]. *)
Theorem need_downsize_always_false m :
  (forall p flags m1,
     images_havent_been_prepared p m = (Ok flags, m1) ->
     index flags 0 = Ok false)
  /\ (forall r m',
        prepare_images m = (r, m') ->
        exists calls,
          journal m' = journal m ++ (Run <$> calls)
          /\ forall p, MogrifyResize p ∉ calls).
Proof.
  split.
  - intros p flags m1 E.
    destruct (images_havent_been_prepared_run p m)
      as [(reshape & _ & E') | (e & _ & E')]; rewrite E' in E.
    + injection E as <- _. reflexivity.
    + discriminate.
  - intros r m' E.
    destruct (prepare_images_spec m r m' E) as (calls & J & F & _).
    exists calls. split; [exact J|]. intros p Hp.
    rewrite Forall_forall in F. specialize (F _ Hp). discriminate.
Qed.

(** C10. The preparedness check returns [need_compression = False] for
    every artifact, whatever [identify] prints, and [prepare_images] never
    runs the command of [compress_image]. *)
Theorem need_compression_always_false m :
  (forall p flags m1,
     images_havent_been_prepared p m = (Ok flags, m1) ->
     index flags 2 = Ok false)
  /\ (forall r m',
        prepare_images m = (r, m') ->
        exists calls,
          journal m' = journal m ++ (Run <$> calls)
          /\ forall p, MagickCompress p ∉ calls).
Proof.
  split.
  - intros p flags m1 E.
    destruct (images_havent_been_prepared_run p m)
      as [(reshape & _ & E') | (e & _ & E')]; rewrite E' in E.
    + injection E as <- _. reflexivity.
    + discriminate.
  - intros r m' E.
    destruct (prepare_images_spec m r m' E) as (calls & J & F & _).
    exists calls. split; [exact J|]. intros p Hp.
    rewrite Forall_forall in F. specialize (F _ Hp). discriminate.
Qed.


(** ** Format normalisation *)

Lemma endswith_append a s suffix :
  PyStr.endswith s suffix = true -> PyStr.endswith (a ++ s) suffix = true.
Proof.
  intros H. induction a as [|c a IH]; [exact H|].
  cbn [String.append PyStr.endswith]. rewrite IH. now destruct (String.eqb _ _).
Qed.

(** The path made by [new_jpg_path] always ends in "jpg". *)
Lemma new_jpg_path_endswith p : PyStr.endswith (new_jpg_path p) "jpg" = true.
Proof. unfold new_jpg_path. apply endswith_append. reflexivity. Qed.


(** ** Slot resolution *)

Lemma get_foldl_set {V} (f : Z -> V) ks : forall (acc : dict V) k,
  get k (foldl (fun d k' => set k' (f k') d) acc ks)
  = if decide (k ∈ ks) then Some (f k) else get k acc.
Proof.
  induction ks as [|k0 ks IH]; intros acc k; cbn [foldl].
  - destruct (decide (k ∈ [])) as [H|_]; [inversion H|reflexivity].
  - rewrite IH. destruct (decide (k ∈ ks)) as [Hin|Hnin].
    + destruct (decide (k ∈ k0 :: ks)) as [_|H]; [reflexivity|].
      exfalso. apply H. now right.
    + destruct (decide (k = k0)) as [->|Hne].
      * rewrite get_set_eq. destruct (decide (k0 ∈ k0 :: ks)) as [_|H];
          [reflexivity|]. exfalso. apply H. left.
      * rewrite get_set_ne by congruence.
        destruct (decide (k ∈ k0 :: ks)) as [H|_]; [|reflexivity].
        apply elem_of_cons in H as [?|?]; contradiction.
Qed.

(** A slot has a path in the dictionary of a collection exactly when one
    of the cards lists it. *)
Lemma slots_to_paths_is_Some c slot :
  is_Some (get slot (slots_to_paths c))
  <-> exists card, card ∈ cards c /\ slot ∈ slots card.
Proof.
  unfold slots_to_paths.
  enough (G : forall l (acc : dict string),
             is_Some (get slot
               (foldl (fun by_slots card =>
                         foldl (fun by_slots slot => set slot (file_path card) by_slots)
                               by_slots (slots card)) acc l))
             <-> is_Some (get slot acc)
                 \/ exists card, card ∈ l /\ slot ∈ slots card).
  { rewrite G. split.
    - intros [[? H]|H]; [discriminate H|exact H].
    - intros H. now right. }
  induction l as [|card l IH]; intros acc; cbn [foldl].
  - split; [now left|]. intros [H|(card & H & _)]; [exact H|inversion H].
  - rewrite IH.
    rewrite (get_foldl_set (fun _ => file_path card) (slots card) acc slot).
    destruct (decide (slot ∈ slots card)) as [Hin|Hnin].
    + split; [|eauto]. intros _. right. exists card. split; [left|exact Hin].
    + split.
      * intros [H|(card' & H1 & H2)]; [now left|].
        right. exists card'. split; [now right|exact H2].
      * intros [H|(card' & H1 & H2)]; [now left|].
        apply elem_of_cons in H1 as [->|H1]; [contradiction|].
        right. eauto.
Qed.

Lemma pair_paths_spec backs_by_slots fronts_by_slots fallback ks :
  forall acc,
  get 0 backs_by_slots = Some fallback ->
  (forall k, k ∈ ks -> is_Some (get k fronts_by_slots)) ->
  pair_paths backs_by_slots fronts_by_slots ks acc
  = Ok (foldl (fun d k =>
                 set k (default fallback (get k backs_by_slots),
                        default EmptyString (get k fronts_by_slots)) d)
              acc ks).
Proof.
  intros acc H0. revert acc.
  induction ks as [|k ks IH]; intros acc Hf; cbn [pair_paths foldl]; [reflexivity|].
  unfold item. rewrite H0. cbn [rbind].
  destruct (Hf k ltac:(left)) as [front Hfront]. rewrite Hfront. cbn [rbind default].
  apply IH. intros k' Hk'. apply Hf. now right.
Qed.

(** With no back at slot 0 the fallback itself cannot be read. *)
Lemma pair_paths_no_fallback backs_by_slots fronts_by_slots k ks acc :
  get 0 backs_by_slots = None ->
  pair_paths backs_by_slots fronts_by_slots (k :: ks) acc = Raise KeyError.
Proof. intros H. cbn [pair_paths]. unfold item. now rewrite H. Qed.

(** C4, as the code has it.  The fallback for a slot without a back is the
    back of slot 0.  When slot 0 has a back, resolution succeeds, every slot
    with a front gets that front, a slot with its own back keeps it, and a
    slot that no back card lists gets the back of slot 0. *)
Theorem missing_back_falls_back_to_slot_zero m fallback :
  let backs_by_slots := slots_to_paths (backs (order m)) in
  let fronts_by_slots := slots_to_paths (fronts (order m)) in
  get 0 backs_by_slots = Some fallback ->
  exists m',
    download_and_collect_images m = (Ok tt, m')
    /\ forall slot,
         (exists card, card ∈ cards (fronts (order m)) /\ slot ∈ slots card) ->
         exists front,
           get slot fronts_by_slots = Some front
           /\ get slot (paths_by_slot m')
              = Some (default fallback (get slot backs_by_slots), front)
           /\ ((forall card, card ∈ cards (backs (order m)) -> slot ∉ slots card) ->
               get slot (paths_by_slot m') = Some (fallback, front)).
Proof.
  intros backs_by_slots fronts_by_slots H0.
  unfold download_and_collect_images.
  cbv beta delta [bind read update lift] iota.
  fold backs_by_slots fronts_by_slots.
  rewrite (pair_paths_spec _ _ fallback) by
    (auto; intros k Hk; now apply get_is_Some).
  eexists. split; [reflexivity|]. machine_simpl.
  intros slot Hslot.
  apply slots_to_paths_is_Some in Hslot as [front Hfront].
  fold fronts_by_slots in Hfront.
  exists front. split; [exact Hfront|].
  assert (G : get slot
                (foldl (fun d k =>
                   set k (default fallback (get k backs_by_slots),
                          default EmptyString (get k fronts_by_slots)) d)
                   [] (keys fronts_by_slots))
              = Some (default fallback (get slot backs_by_slots), front)).
  { rewrite (get_foldl_set
               (fun k => (default fallback (get k backs_by_slots),
                          default EmptyString (get k fronts_by_slots)))).
    destruct (decide (slot ∈ keys fronts_by_slots)) as [_|Hn].
    - now rewrite Hfront.
    - exfalso. apply Hn, keys_get. rewrite Hfront. eauto. }
  split; [exact G|].
  intros Hnone. rewrite G.
  destruct (get slot backs_by_slots) as [b|] eqn:Hb; [|reflexivity].
  exfalso. assert (Hs : is_Some (get slot backs_by_slots)) by (rewrite Hb; eauto).
  apply slots_to_paths_is_Some in Hs as (card & Hc & Hin).
  exact (Hnone card Hc Hin).
Qed.


(** ** The order of the stages *)

Section Lays.

Variable P : event -> Prop.

Lemma lays_bind {A B} (c : @M World A) (f : A -> @M World B) m :
  lays P c m ->
  (forall a m1, c m = (Ok a, m1) -> lays P (f a) m1) ->
  lays P (bind c f) m.
Proof.
  unfold lays, bind. intros (Hp & ev & Hj & Hev) Hf.
  destruct (c m) as [[a|e] m1]; cbn [fst snd] in *.
  - destruct (Hf a m1 eq_refl) as (Hp' & ev' & Hj' & Hev').
    split; [congruence|]. exists (ev ++ ev'). rewrite Hj', Hj, app_assoc.
    split; [reflexivity|now apply Forall_app].
  - split; [exact Hp|]. exists ev. split; [exact Hj|exact Hev].
Qed.

Lemma lays_quiet {A} (c : @M World A) m :
  paths_by_slot (snd (c m)) = paths_by_slot m ->
  journal (snd (c m)) = journal m ->
  lays P c m.
Proof.
  intros Hp Hj. split; [exact Hp|]. exists []. rewrite app_nil_r.
  split; [exact Hj|constructor].
Qed.

Lemma lays_bind_read {A B} (f : @machine World -> A) (k : A -> @M World B) m :
  lays P (k (f m)) m -> lays P (bind (read f) k) m.
Proof. intros H. exact H. Qed.

Lemma lays_bind_lift {A B} (r : result A) (k : A -> @M World B) m :
  (forall a, r = Ok a -> lays P (k a) m) -> lays P (bind (lift r) k) m.
Proof.
  intros Hk. destruct r as [a|e]; [now apply Hk|].
  now apply lays_quiet.
Qed.

Lemma lays_bind_update {B} (f : @machine World -> machine)
    (k : unit -> @M World B) m :
  paths_by_slot (f m) = paths_by_slot m -> journal (f m) = journal m ->
  lays P (k tt) (f m) -> lays P (bind (update f) k) m.
Proof.
  intros Hp Hj (Hp' & ev & Hj' & Hev). unfold lays, bind, update.
  split; [congruence|]. exists ev. split; [congruence|exact Hev].
Qed.

Lemma lays_ret {A} (a : A) m : lays P (@ret World A a) m.
Proof. now apply lays_quiet. Qed.

Lemma lays_update (f : @machine World -> machine) m :
  paths_by_slot (f m) = paths_by_slot m -> journal (f m) = journal m ->
  lays P (update f) m.
Proof. intros. now apply lays_quiet. Qed.

Lemma lays_pdf_call op m : lays P (pdf_call op) m.
Proof.
  apply lays_quiet; unfold pdf_call; now destruct (pdf m).
Qed.

Lemma lays_pdf_image p x y w h m :
  P (Place p) -> lays P (pdf_image p x y w h) m.
Proof.
  intros HP. unfold lays, pdf_image, pdf_call, bind, update.
  destruct (pdf m); machine_simpl; cbn [fst snd]; machine_simpl.
  - split; [reflexivity|]. exists [Place p]. split; [reflexivity|].
    now constructor.
  - split; [reflexivity|]. exists []. rewrite app_nil_r. split; [reflexivity|constructor].
Qed.

Lemma lays_pdf_output name m :
  P (Output name) -> lays P (pdf_output name) m.
Proof.
  intros HP. unfold lays, pdf_output.
  destruct (pdf m); machine_simpl; cbn [fst snd]; machine_simpl.
  - split; [reflexivity|]. exists [Output name]. split; [reflexivity|].
    now constructor.
  - split; [reflexivity|]. exists []. rewrite app_nil_r. split; [reflexivity|constructor].
Qed.

Lemma lays_save_file m :
  (forall name, P (Output name)) -> lays P save_file m.
Proof.
  intros HP. unfold save_file.
  do 2 apply lays_bind_read. now apply lays_pdf_output.
Qed.


Lemma lays_add_image p m :
  P (Place p) -> lays P (add_image p) m.
Proof.
  intros HP. unfold add_image, pdf_add_page.
  apply lays_bind; [apply lays_pdf_call|]. intros _ m1 _.
  do 2 apply lays_bind_read. now apply lays_pdf_image.
Qed.

End Lays.





Lemma lays_export_slot slot m : lays layout_event (export_slot slot) m.
Proof.
  unfold export_slot, set_state, generate_pdf.
  apply lays_bind_read. apply lays_bind_lift. intros [back front] _.
  apply lays_bind_update; [reflexivity..|].
  apply lays_bind; [|intros _ m1 _].
  - destruct (slot =? 0); [now apply lays_update|].
    apply lays_bind_read. apply lays_bind_lift. intros r _.
    destruct (r =? 0); [|apply lays_ret].
    apply lays_bind_update; [reflexivity..|].
    apply lays_bind; [apply lays_save_file; intros; right; eauto|].
    intros _ m1 _. apply lays_bind_read.
    apply lays_bind_update; [reflexivity..|]. now apply lays_update.
  - apply lays_bind_update; [reflexivity..|].
    apply lays_bind; [|intros _ m2 _]; apply lays_add_image; left; eauto.
Qed.

(** [export] makes no tool call: it only places images and writes files. *)
Lemma lays_export m : lays layout_event export m.
Proof.
  unfold export, set_state. apply lays_bind_read.
  apply lays_bind.
  { generalize (sorted (keys (paths_by_slot m))). intros l. revert m.
    induction l as [|slot l IH]; intros m; cbn [for_each];
      [apply lays_ret|].
    apply lays_bind; [apply lays_export_slot|]. intros _ m1 _. apply IH. }
  intros _ m1 _. apply lays_bind_read.
  apply lays_bind_update; [reflexivity..|].
  apply lays_save_file. intros; right; eauto.
Qed.



(** ** Reading the geometry line *)

Section StringFacts.

Import PyStr.
Local Open Scope string_scope.

Lemma digit_cases c :
  is_digit c = true ->
  is_space c = false /\ Ascii.eqb c "_" = false /\ Ascii.eqb c " " = false
  /\ Ascii.eqb c "+" = false /\ Ascii.eqb c "x" = false
  /\ forall t, split_sign (String c t) = (false, String c t).
Proof.
  destruct c as [[] [] [] [] [] [] [] []]; intros H; cbv in H;
    try discriminate H; repeat split.
Qed.

Lemma digit_no_int_space c : is_digit c = true -> is_int_space c = false.
Proof.
  destruct c as [[] [] [] [] [] [] [] []]; intros H; cbv in H;
    try discriminate H; reflexivity.
Qed.

Lemma digits_only_uint d : digits_only (NilEmpty.string_of_uint d) = true.
Proof. induction d; cbn [NilEmpty.string_of_uint digits_only]; auto. Qed.

Lemma digits_only_nilzero d :
  digits_only (NilZero.string_of_uint d) = true
  /\ NilZero.string_of_uint d <> "".
Proof.
  split.
  - destruct d; try reflexivity;
      match goal with
      | |- digits_only (NilZero.string_of_uint ?x) = true =>
          exact (digits_only_uint x)
      end.
  - destruct d; discriminate.
Qed.

Lemma digits_only_str_of_int w :
  0 <= w ->
  digits_only (str_of_int w) = true /\ str_of_int w <> "".
Proof.
  intros Hw. unfold str_of_int. destruct w as [|p|p]; [| |lia];
    apply digits_only_nilzero.
Qed.

(** Reading back a printed non-negative int. *)
Lemma uint_of_str_of_int w :
  0 <= w ->
  exists d, NilZero.uint_of_string (str_of_int w) = Some d /\ Z.of_uint d = w.
Proof.
  intros Hw. unfold str_of_int. destruct w as [|p|p]; [| |lia].
  - exists (Decimal.D0 Decimal.Nil). split; reflexivity.
  - cbn [Z.to_int NilZero.string_of_int]. exists (Pos.to_uint p).
    split.
    + apply NilZero.usu, DecimalPos.Unsigned.to_uint_nonnil.
    + unfold Z.of_uint. now rewrite DecimalPos.Unsigned.of_to.
Qed.

Lemma rstrip_app a b :
  rstrip b <> "" -> rstrip (a ++ b) = a ++ rstrip b.
Proof.
  intros Hb. induction a as [|c a IH]; [reflexivity|].
  cbn [String.append rstrip]. rewrite IH.
  destruct (a ++ rstrip b) eqn:E; [|reflexivity].
  destruct a; cbn in E; [contradiction|discriminate].
Qed.

Lemma drop_underscores_digits s :
  digits_only s = true -> drop_underscores s = Some s.
Proof.
  induction s as [|c t IH]; [reflexivity|]. cbn [digits_only].
  intros H. apply andb_true_iff in H as [Hc Ht].
  cbn [drop_underscores].
  rewrite (proj1 (proj2 (digit_cases c Hc))).
  destruct t as [|c' t']; [reflexivity|].
  cbn [digits_only] in Ht. apply andb_true_iff in Ht as Ht'.
  destruct Ht' as [Hc' _].
  replace (match c' with
           | "_"%char =>
               match t' with
               | "" => None
               | String c'0 _ =>
                   if (c'0 =? "_")%char then None
                   else String c <$> drop_underscores t'
               end
           | _ => String c <$> drop_underscores (String c' t')
           end) with (String c <$> drop_underscores (String c' t')).
  - now rewrite (IH Ht).
  - clear -Hc'. destruct c' as [[] [] [] [] [] [] [] []]; cbv in Hc';
      try discriminate Hc'; reflexivity.
Qed.

Lemma int_lstrip_digits s : digits_only s = true -> int_lstrip s = s.
Proof.
  destruct s as [|c t]; [reflexivity|]. cbn [digits_only int_lstrip].
  intros H. apply andb_true_iff in H as [Hc _].
  now rewrite (digit_no_int_space c Hc).
Qed.

Lemma int_rstrip_digits s : digits_only s = true -> int_rstrip s = s.
Proof.
  induction s as [|c t IH]; [reflexivity|]. cbn [digits_only int_rstrip].
  intros H. apply andb_true_iff in H as [Hc Ht].
  rewrite (IH Ht), (digit_no_int_space c Hc). now destruct t.
Qed.

(** The number of digits of a printed int. *)
Lemma length_string_of_uint d :
  String.length (NilEmpty.string_of_uint d) = Decimal.nb_digits d.
Proof. induction d; cbn [NilEmpty.string_of_uint String.length Decimal.nb_digits]; auto. Qed.

Lemma of_uint_acc_lower d : forall acc,
  Z.pos acc * 10 ^ Z.of_nat (Decimal.nb_digits d) <= Z.pos (Pos.of_uint_acc d acc).
Proof.
  induction d as [|d IH|d IH|d IH|d IH|d IH|d IH|d IH|d IH|d IH|d IH];
    intros acc; cbn [Pos.of_uint_acc Decimal.nb_digits];
    [rewrite Z.pow_0_r; lia|..];
    (rewrite Nat2Z.inj_succ, Z.pow_succ_r by lia;
     eapply Z.le_trans; [|apply IH];
     pose proof (Z.pow_pos_nonneg 10 (Z.of_nat (Decimal.nb_digits d))
                   ltac:(lia) ltac:(lia));
     nia).
Qed.

Lemma nb_digits_to_uint p k :
  Z.pos p < 10 ^ k -> Z.of_nat (Decimal.nb_digits (Pos.to_uint p)) <= k.
Proof.
  intros Hp.
  assert (Hk : 0 <= k).
  { destruct (Z.le_gt_cases 0 k) as [|Hneg]; [assumption|].
    rewrite Z.pow_neg_r in Hp by lia. lia. }
  pose proof (DecimalPos.Unsigned.of_to p) as Hof.
  pose proof (DecimalPos.Unsigned.to_uint_nonzero p) as Hnz.
  pose proof (DecimalPos.Unsigned.to_of (Pos.to_uint p)) as Hto.
  rewrite Hof in Hto. cbn [N.to_uint] in Hto.
  assert (Hlow : forall (acc : positive) d,
            Pos.of_uint_acc d acc = p ->
            Z.of_nat (S (Decimal.nb_digits d)) <= k).
  { intros acc d E. pose proof (of_uint_acc_lower d acc) as L. rewrite E in L.
    assert (10 ^ Z.of_nat (Decimal.nb_digits d) < 10 ^ k).
    { pose proof (Z.pow_pos_nonneg 10 (Z.of_nat (Decimal.nb_digits d))
                    ltac:(lia) ltac:(lia)). nia. }
    apply Z.pow_lt_mono_r_iff in H; lia. }
  destruct (Pos.to_uint p) as [|d|d|d|d|d|d|d|d|d|d] eqn:E;
    cbn [Pos.of_uint] in Hof;
    try (injection Hof as Hof; exact (Hlow _ d Hof)).
  - discriminate Hof.
  - exfalso. rewrite DecimalFacts.unorm_D0 in Hto.
    destruct d as [|d|d|d|d|d|d|d|d|d|d]; [now apply Hnz|..];
      match type of Hto with
      | _ = Decimal.unorm ?u =>
          assert (Hn : (Decimal.nb_digits (Decimal.unorm u) <= Decimal.nb_digits u)%nat)
            by (apply DecimalFacts.nb_digits_unorm; discriminate);
          rewrite <- Hto in Hn; cbn [Decimal.nb_digits] in Hn; lia
      end.
Qed.

Lemma length_str_of_int w k :
  0 <= w < 10 ^ k -> 1 <= k -> Z.of_nat (String.length (str_of_int w)) <= k.
Proof.
  intros [Hw Hlt] Hk. unfold str_of_int. destruct w as [|p|p]; [exact Hk| |lia].
  cbn [Z.to_int NilZero.string_of_int].
  pose proof (DecimalPos.Unsigned.to_uint_nonnil p) as Hnn.
  unfold NilZero.string_of_uint.
  destruct (Pos.to_uint p) eqn:E; try contradiction;
    rewrite <- E, length_string_of_uint; now apply nb_digits_to_uint.
Qed.

(** [int(str(w))] is [w], for a numeral that [int()] accepts. *)
Lemma py_int_str_of_int w :
  0 <= w < 10 ^ int_max_str_digits -> py_int (str_of_int w) = Ok w.
Proof.
  intros Hb. assert (Hw : 0 <= w) by apply Hb.
  destruct (digits_only_str_of_int w Hw) as [Hd Hne].
  destruct (uint_of_str_of_int w Hw) as (d & Hu & Hz).
  pose proof (length_str_of_int w int_max_str_digits Hb ltac:(discriminate)) as Hlen.
  unfold py_int. rewrite (int_lstrip_digits _ Hd), (int_rstrip_digits _ Hd).
  destruct (str_of_int w) as [|c t] eqn:E; [contradiction|].
  cbn [digits_only] in Hd. apply andb_true_iff in Hd as Hd'. destruct Hd' as [Hc Ht].
  rewrite (proj2 (proj2 (proj2 (proj2 (proj2 (digit_cases c Hc)))))).
  rewrite drop_underscores_digits by exact Hd.
  rewrite (proj2 (Z.leb_le _ _) Hlen).
  now rewrite Hu, Hz.
Qed.

(** Sizes below 2^1000 are printed with far fewer digits than that. *)
Lemma pow2_1000_digits : 2 ^ 1000 <= 10 ^ int_max_str_digits.
Proof.
  unfold int_max_str_digits.
  apply Z.le_trans with (10 ^ 1000).
  - apply Z.pow_le_mono_l. lia.
  - apply Z.pow_le_mono_r; lia.
Qed.

(** Splitting at a separator that the first field does not contain. *)
Lemma split_app_sep sep a b :
  lacks sep a = true -> split sep (a ++ String sep b) = a :: split sep b.
Proof.
  induction a as [|c a IH]; intros Ha.
  - cbn [String.append split]. now rewrite Ascii.eqb_refl.
  - cbn [lacks] in Ha. apply andb_true_iff in Ha as [Hc Ha].
    apply negb_true_iff in Hc.
    cbn [String.append split]. rewrite Hc, (IH Ha). reflexivity.
Qed.

Lemma split_lacks sep a : lacks sep a = true -> split sep a = [a].
Proof.
  induction a as [|c a IH]; intros Ha; [reflexivity|].
  cbn [lacks] in Ha. apply andb_true_iff in Ha as [Hc Ha].
  apply negb_true_iff in Hc. cbn [split]. rewrite Hc, (IH Ha). reflexivity.
Qed.

Lemma lacks_app sep a b : lacks sep (a ++ b) = lacks sep a && lacks sep b.
Proof.
  induction a as [|c a IH]; [reflexivity|].
  cbn [String.append lacks]. rewrite IH. now rewrite andb_assoc.
Qed.

Lemma lacks_digits sep s :
  is_digit sep = false -> digits_only s = true -> lacks sep s = true.
Proof.
  intros Hsep. induction s as [|c t IH]; [reflexivity|].
  cbn [digits_only lacks]. intros H. apply andb_true_iff in H as [Hc Ht].
  rewrite (IH Ht), andb_true_r. apply negb_true_iff.
  destruct (Ascii.eqb_spec c sep) as [->|]; [congruence|reflexivity].
Qed.

Lemma rstrip_fixed a b :
  rstrip b = b -> b <> "" -> rstrip (a ++ b) = a ++ b.
Proof. intros Hb Hne. rewrite rstrip_app; rewrite Hb; auto. Qed.

Lemma append_nonempty_r a b : b <> "" -> a ++ b <> "".
Proof. destruct a; [auto|discriminate]. Qed.

(** The size is read back from the line that carries it. *)
Lemma geometry_of_geometry_line w h :
  0 <= w < 2 ^ 1000 -> 0 <= h < 2 ^ 1000 ->
  contains "Geometry" (geometry_line w h) = true
  /\ geometry_of_line (geometry_line w h) = Ok (w, h).
Proof.
  intros [Hw Hw'] [Hh Hh']. split; [reflexivity|].
  pose proof pow2_1000_digits as Hdigits.
  destruct (digits_only_str_of_int w Hw) as [Dw _].
  destruct (digits_only_str_of_int h Hh) as [Dh _].
  unfold geometry_of_line, geometry_line.
  set (W := str_of_int w) in *. set (H := str_of_int h) in *.
  assert (Hstrip : strip ("  Geometry: " ++ W ++ "x" ++ H ++ "+0+0")
                   = "Geometry:" ++ String " " (W ++ String "x" (H ++ "+0+0"))).
  { unfold strip.
    change (lstrip ("  Geometry: " ++ W ++ "x" ++ H ++ "+0+0"))
      with ("Geometry: " ++ (W ++ (String "x" (H ++ "+0+0")))).
    rewrite rstrip_fixed; [reflexivity| |].
    - rewrite rstrip_fixed; [reflexivity| |discriminate].
      change (String "x" (H ++ "+0+0")) with ("x" ++ (H ++ "+0+0")).
      rewrite rstrip_fixed; [reflexivity| |apply append_nonempty_r; discriminate].
      rewrite rstrip_fixed; [reflexivity|reflexivity|discriminate].
    - apply append_nonempty_r. discriminate. }
  rewrite Hstrip. clear Hstrip.
  rewrite split_app_sep by reflexivity.
  rewrite split_lacks.
  2:{ rewrite lacks_app, (lacks_digits " " W) by (reflexivity || assumption).
      cbn [andb lacks Ascii.eqb Bool.eqb negb].
      rewrite lacks_app, (lacks_digits " " H) by (reflexivity || assumption).
      reflexivity. }
  change (index ["Geometry:"; W ++ String "x" (H ++ "+0+0")] 1)
    with (Ok (W ++ String "x" (H ++ "+0+0"))).
  cbn [rbind].
  replace (W ++ String "x" (H ++ "+0+0"))
    with ((W ++ String "x" H) ++ String "+" "0+0").
  2:{ clear. induction W as [|c W IH]; cbn [String.append];
        [reflexivity|now rewrite IH]. }
  rewrite split_app_sep.
  2:{ rewrite lacks_app, (lacks_digits "+" W) by (reflexivity || assumption).
      cbn [andb lacks Ascii.eqb Bool.eqb negb].
      now rewrite (lacks_digits "+" H). }
  change (index ((W ++ String "x" H) :: split "+" "0+0") 0)
    with (Ok (W ++ String "x" H)).
  cbn [rbind].
  rewrite split_app_sep by (now apply lacks_digits).
  rewrite split_lacks by (now apply lacks_digits).
  subst W H.
  rewrite (py_int_str_of_int w) by (split; [exact Hw|eapply Z.lt_le_trans; eassumption]).
  cbn [rbind].
  rewrite (py_int_str_of_int h) by (split; [exact Hh|eapply Z.lt_le_trans; eassumption]).
  reflexivity.
Qed.

End StringFacts.


(** ** Ratios of image sizes *)

Section RatioFacts.

Import Binary64.

Lemma exponent_upper a b :
  0 < a < 2 ^ 1000 -> 0 < b -> exponent a b <= 947.
Proof.
  intros Ha Hb. unfold exponent.
  assert (Z.log2 a < 1000) by (apply Z.log2_lt_pow2; lia).
  pose proof (Z.log2_nonneg b).
  destruct (_ <=? _); lia.
Qed.

Lemma not_overflows_Z z :
  0 <= z < 2 ^ 1024 -> overflows (inject_Z z) = false.
Proof.
  intros Hz. unfold overflows. apply not_true_is_false. intros O.
  apply Qle_bool_iff in O. rewrite Qabs_pos in O.
  - rewrite <- Zle_Qle in O. lia.
  - change 0%Q with (inject_Z 0). rewrite <- Zle_Qle. lia.
Qed.

Lemma not_overflows_frac n T :
  0 <= n -> 0 < T -> n < 2 ^ 1024 * T -> overflows (n # Z.to_pos T) = false.
Proof.
  intros Hn HT Hlt. unfold overflows. apply not_true_is_false. intros O.
  apply Qle_bool_iff in O. rewrite Qabs_pos in O.
  - unfold Qle in O. cbn [Qnum Qden inject_Z] in O.
    rewrite Z2Pos.id in O by lia. lia.
  - unfold Qle. cbn [Qnum Qden]. lia.
Qed.

(** The quotient of a size below 2^1000 by a small divisor does not
    overflow. *)
Lemma true_div_finite a b :
  0 <= a < 2 ^ 1000 -> 0 < b < 2 ^ 64 ->
  exists x, true_div a b = Ok x.
Proof.
  intros Ha Hb. unfold true_div.
  destruct (Z.eqb_spec b 0) as [|_]; [lia|].
  rewrite Z.sgn_pos, Z.mul_1_l, Z.abs_eq by lia.
  unfold round. cbn [Qnum Qden].
  destruct a as [|p|p]; [| |lia].
  { eexists. reflexivity. }
  rewrite Z2Pos.id by lia. unfold round_pos.
  pose proof (exponent_upper (Z.pos p) b ltac:(lia) ltac:(lia)) as He.
  set (e := exponent (Z.pos p) b) in *.
  assert (H64 : 2 ^ 64 * 2 ^ 947 = 2 ^ 1011) by (rewrite <- Z.pow_add_r; [reflexivity|lia..]).
  assert (H1000 : 2 ^ 1000 + 2 ^ 1011 < 2 ^ 1024) by reflexivity.
  destruct (Z.leb_spec 0 e) as [Hpos|Hneg].
  - set (T := 2 ^ e).
    assert (HT : 0 < T <= 2 ^ 947).
    { split; [apply Z.pow_pos_nonneg; lia|apply Z.pow_le_mono_r; lia]. }
    pose proof (rne_div_bounds (Z.pos p) (b * T) ltac:(nia)) as B.
    set (m := rne_div (Z.pos p) (b * T)) in *.
    assert (0 <= m) by nia.
    rewrite not_overflows_Z; [eauto|]. split; [nia|].
    assert (m * T <= Z.pos p + b * T) by nia. nia.
  - set (T := 2 ^ (- e)).
    assert (HT : 0 < T) by (apply Z.pow_pos_nonneg; lia).
    pose proof (rne_div_bounds (Z.pos p * T) b ltac:(lia)) as B.
    set (m := rne_div (Z.pos p * T) b) in *.
    assert (0 <= m) by nia.
    assert (m <= Z.pos p * T) by nia.
    rewrite not_overflows_frac; [eauto|lia|lia|nia].
Qed.

End RatioFacts.


(** ** The reshape flag *)

Lemma inspect_lines_skip output flags :
  (forall line, line ∈ output -> PyStr.contains "Geometry" line = false) ->
  inspect_lines output flags = Ok flags.
Proof.
  induction output as [|line rest IH]; intros H; [reflexivity|].
  cbn [inspect_lines]. unfold inspect_line. destruct flags as [[d s] c].
  rewrite (H line) by left. cbn [rbind]. apply IH.
  intros l Hl. apply H. now right.
Qed.

Lemma inspect_lines_app a b flags :
  inspect_lines (a ++ b) flags
  = rbind (inspect_lines a flags) (inspect_lines b).
Proof.
  revert flags. induction a as [|line a IH]; intros flags; [reflexivity|].
  cbn [app inspect_lines]. destruct (inspect_line flags line); [|reflexivity].
  cbn [rbind]. apply IH.
Qed.

(** C5. When [identify] prints one geometry line, for an image of [w] by
    [h] pixels, the check returns [need_reshape = False] exactly when
    [round(w / 63, 1) == round(h / 88, 1)]; when no line mentions
    "Geometry" it returns [need_reshape = True]. *)
Theorem need_reshape_iff_ratios_differ p m :
  let stdout := (run (command (IdentifyVerbose p)) (world m)).2 in
  (forall pre post w h,
     0 <= w < 2 ^ 1000 -> 0 <= h < 2 ^ 1000 ->
     PyStr.splitlines stdout = pre ++ geometry_line w h :: post ->
     (forall line, line ∈ pre ++ post ->
                   PyStr.contains "Geometry" line = false) ->
     exists w_ratio h_ratio need_reshape m1,
       Binary64.true_div w 63 = Ok w_ratio
       /\ Binary64.true_div h 88 = Ok h_ratio
       /\ images_havent_been_prepared p m
          = (Ok [false; need_reshape; false], m1)
       /\ (need_reshape = false
           <-> Binary64.round1 w_ratio == Binary64.round1 h_ratio))
  /\ ((forall line, line ∈ PyStr.splitlines stdout ->
                    PyStr.contains "Geometry" line = false) ->
      exists m1,
        images_havent_been_prepared p m = (Ok [false; true; false], m1)).
Proof.
  intros stdout. split.
  - intros pre post w h Hw Hh Hlines Hother.
    destruct (true_div_finite w 63 Hw ltac:(split; reflexivity)) as [wr Ewr].
    destruct (true_div_finite h 88 Hh ltac:(split; reflexivity)) as [hr Ehr].
    destruct (geometry_of_geometry_line w h Hw Hh) as [Hc Hg].
    exists wr, hr.
    exists (negb (Binary64.feqb (Binary64.round1 wr) (Binary64.round1 hr))).
    assert (Hins : inspect_lines (PyStr.splitlines stdout) (false, true, false)
                   = Ok (false,
                         negb (Binary64.feqb (Binary64.round1 wr) (Binary64.round1 hr)),
                         false)).
    { rewrite Hlines, inspect_lines_app.
      rewrite inspect_lines_skip
        by (intros l Hl; apply Hother, elem_of_app; now left).
      cbn [rbind inspect_lines]. unfold inspect_line at 1.
      rewrite Hc, Hg. cbn [rbind]. rewrite Ewr. cbn [rbind]. rewrite Ehr.
      cbn [rbind].
      rewrite inspect_lines_skip
        by (intros l Hl; apply Hother, elem_of_app; now right).
      now destruct (Binary64.feqb _ _). }
    destruct (images_havent_been_prepared_run p m)
      as [(s & Hs & ->) | (e & He & _)]; fold stdout in Hs || fold stdout in He.
    + rewrite Hins in Hs. injection Hs as <-.
      eexists. repeat split; try assumption.
      * intros Hn. apply negb_false_iff in Hn. now apply Qeq_bool_iff.
      * intros Hq. apply negb_false_iff. now apply Qeq_bool_iff.
    + rewrite Hins in He. discriminate.
  - intros Hnone.
    destruct (images_havent_been_prepared_run p m)
      as [(s & Hs & ->) | (e & He & _)]; fold stdout in Hs || fold stdout in He.
    + rewrite inspect_lines_skip in Hs by exact Hnone. injection Hs as <-. eauto.
    + rewrite inspect_lines_skip in He by exact Hnone. discriminate.
Qed.


(** ** More on [new_jpg_path] *)

Section JpgPathFacts.

Import PyStr.
Local Open Scope string_scope.

Lemma rfind_from_lacks c s : forall i last,
  lacks c s = true -> rfind_from c s i last = last.
Proof.
  induction s as [|a t IH]; intros i last H; [reflexivity|].
  cbn [lacks] in H. apply andb_true_iff in H as [Ha Ht].
  apply negb_true_iff in Ha. cbn [rfind_from]. rewrite Ha. now apply IH.
Qed.

Lemma rfind_from_last c a b : forall i last,
  lacks c b = true ->
  rfind_from c (a ++ String c b) i last = (i + Z.of_nat (String.length a))%Z.
Proof.
  induction a as [|x a IH]; intros i last Hb.
  - cbn [String.append rfind_from String.length]. rewrite Ascii.eqb_refl.
    rewrite rfind_from_lacks by exact Hb. lia.
  - cbn [String.append rfind_from String.length]. rewrite IH by exact Hb. lia.
Qed.

Lemma substring_prefix a b : substring 0 (String.length a) (a ++ b) = a.
Proof.
  induction a as [|x a IH]; cbn [String.append String.length substring].
  - now destruct b.
  - now rewrite IH.
Qed.

Lemma slice_to_prefix a b :
  slice_to (a ++ b) (Z.of_nat (String.length a)) = a.
Proof.
  unfold slice_to.
  assert (L : String.length (a ++ b) = (String.length a + String.length b)%nat).
  { induction a as [|x a IH]; cbn [String.append String.length]; [reflexivity|lia]. }
  destruct (Z.ltb_spec (Z.of_nat (String.length a)) 0); [lia|].
  rewrite L, Z.min_l by lia. rewrite Nat2Z.id. apply substring_prefix.
Qed.

Lemma slice_to_drop_last q c : slice_to (q ++ String c "") (-1) = q.
Proof.
  unfold slice_to.
  assert (L : String.length (q ++ String c "") = S (String.length q)).
  { induction q as [|x q IH]; cbn [String.append String.length]; [reflexivity|lia]. }
  rewrite L. cbn [Z.ltb Z.compare].
  replace (Z.to_nat (Z.max 0 (Z.of_nat (S (String.length q)) + -1)))
    with (String.length q) by lia.
  apply substring_prefix.
Qed.

(** X1. [new_jpg_path] replaces what follows the last dot by "jpg", and
    applying it twice is the same as applying it once. *)
Theorem new_jpg_path_replaces_extension :
  (forall stem ext,
     lacks "." ext = true ->
     new_jpg_path (stem ++ "." ++ ext) = stem ++ ".jpg")
  /\ (forall p, new_jpg_path (new_jpg_path p) = new_jpg_path p).
Proof.
  assert (H : forall stem ext,
             lacks "." ext = true ->
             new_jpg_path (stem ++ "." ++ ext) = stem ++ ".jpg").
  { intros stem ext Hext. unfold new_jpg_path, rfind.
    change (stem ++ "." ++ ext) with (stem ++ String "." ext).
    rewrite rfind_from_last by exact Hext. cbn [Z.add].
    now rewrite slice_to_prefix. }
  split; [exact H|].
  intros p. unfold new_jpg_path at 2.
  apply (H _ "jpg"). reflexivity.
Qed.

(** X2. A path without any dot loses its last character: [rfind] answers
    -1 and the slice [image_path[:-1]] drops it. *)
Theorem new_jpg_path_without_dot q c :
  lacks "." (q ++ String c "") = true ->
  new_jpg_path (q ++ String c "") = q ++ ".jpg".
Proof.
  intros H. unfold new_jpg_path, rfind.
  rewrite rfind_from_lacks by exact H. now rewrite slice_to_drop_last.
Qed.

End JpgPathFacts.


(** ** Geometry of the sheet *)

Lemma grid_cell_cases i :
  let col := i `mod` 6 in
  let row := (i `div` 6) `mod` 3 in
  (col = 0 \/ col = 1 \/ col = 2 \/ col = 3 \/ col = 4 \/ col = 5)
  /\ (row = 0 \/ row = 1 \/ row = 2).
Proof.
  intros col row.
  pose proof (Z.mod_pos_bound i 6 ltac:(lia)).
  pose proof (Z.mod_pos_bound (i `div` 6) 3 ltac:(lia)).
  split; lia.
Qed.

(** No cut guide of [add_a3_page] runs through a cell of the grid: every
    guide stays in the margins or in the gaps between the cells. *)
Lemma cut_guides_spare_cell i :
  forallb (fun g => negb (crosses g (sheet_x i) (sheet_y ((i `div` 6) `mod` 3))
                            (Binary64.promote Sheet.image_w)
                            (Binary64.promote Sheet.image_h)))
          cut_guides
  = true.
Proof.
  destruct (grid_cell_cases i) as [Hc Hr]. unfold sheet_x.
  set (col := i `mod` 6) in *. set (row := (i `div` 6) `mod` 3) in *.
  clearbody col row.
  destruct Hc as [-> | [-> | [-> | [-> | [-> | ->]]]]];
    destruct Hr as [-> | [-> | ->]]; vm_compute; reflexivity.
Qed.

(** Two different cells of the same sheet page have no inner point in
    common: they differ in the column or in the row, and cells are more
    than a card apart. *)
Lemma grid_cells_apart i j :
  0 <= i -> 0 <= j -> i <> j -> i `div` 18 = j `div` 18 ->
  boxes_apart (sheet_x i) (sheet_y ((i `div` 6) `mod` 3))
              (sheet_x j) (sheet_y ((j `div` 6) `mod` 3))
              (inject_Z Sheet.image_w) (inject_Z Sheet.image_h).
Proof.
  intros Hi Hj Hne Hpage.
  assert (Hcell : i `mod` 6 <> j `mod` 6
                  \/ (i `div` 6) `mod` 3 <> (j `div` 6) `mod` 3).
  { destruct (Z.eq_dec (i `mod` 6) (j `mod` 6)) as [Hc|]; [right|now left].
    intros Hr. apply Hne. clear Hne. Z.div_mod_to_equations. lia. }
  destruct (grid_cell_cases i) as [Hci Hri].
  destruct (grid_cell_cases j) as [Hcj Hrj].
  unfold sheet_x, boxes_apart.
  set (ci := i `mod` 6) in *. set (ri := (i `div` 6) `mod` 3) in *.
  set (cj := j `mod` 6) in *. set (rj := (j `div` 6) `mod` 3) in *.
  clearbody ci ri cj rj. clear Hpage Hi Hj.
  destruct Hci as [-> | [-> | [-> | [-> | [-> | ->]]]]];
    destruct Hcj as [-> | [-> | [-> | [-> | [-> | ->]]]]];
    destruct Hri as [-> | [-> | ->]];
    destruct Hrj as [-> | [-> | ->]];
    try (exfalso; destruct Hcell as [H|H]; apply H; reflexivity);
    clear Hcell;
    first [ left; vm_compute; discriminate
          | right; left; vm_compute; discriminate
          | right; right; left; vm_compute; discriminate
          | right; right; right; vm_compute; discriminate ].
Qed.


(** ** Edge behaviour of the two layouts *)

Lemma add_image_closed p m :
  pdf m = None -> add_image p m = (Raise AttributeError, m).
Proof.
  intros H. unfold add_image, pdf_add_page, pdf_call, bind. now rewrite H.
Qed.

(** X5. [export] opens its first document only at slot 0.  When the least
    slot of the mapping is not 0 and no document is open, it raises
    [AttributeError] at that slot: nothing is placed and nothing is
    written. *)
Theorem export_without_slot_zero m slot rest :
  sorted (keys (paths_by_slot m)) = slot :: rest ->
  slot <> 0 -> pdf m = None -> number_of_cards_per_file m <> 0 ->
  exists m',
    export m = (Raise AttributeError, m')
    /\ written m' = written m /\ journal m' = journal m /\ pdf m' = None.
Proof.
  intros Hsorted Hslot Hpdf Hk.
  assert (Hin : slot ∈ keys (paths_by_slot m)).
  { apply (elem_of_sorted slot). rewrite Hsorted. left. }
  destruct (get_is_Some _ _ Hin) as [[back front] Hget].
  unfold export. unfold bind at 1, read at 1. rewrite Hsorted.
  cbn [for_each]. unfold bind at 1. unfold bind at 1.
  unfold export_slot.
  cbv beta delta [bind read lift item set_state update int_mod ret] iota.
  rewrite Hget. cbv beta iota.
  destruct (Z.eqb_spec slot 0) as [|_]; [contradiction|].
  cbv beta iota. machine_simpl.
  destruct (Z.eqb_spec (number_of_cards_per_file m) 0) as [|_]; [contradiction|].
  cbv beta iota.
  destruct (slot `mod` number_of_cards_per_file m =? 0); cbv beta iota.
  - rewrite save_file_closed by (machine_simpl; exact Hpdf).
    eexists. split; [reflexivity|]. machine_simpl. auto.
  - rewrite add_image_closed by (machine_simpl; exact Hpdf).
    eexists. split; [reflexivity|]. machine_simpl. auto.
Qed.

(** X6. [export_a3] writes one file, under the current file number, and
    leaves that number as it was; the fronts are placed in ascending slot
    order before the file is written. *)
Theorem export_a3_single_file m :
  Z.of_nat (length (keys (paths_by_slot m))) <= 3 * 2 ^ 52 ->
  exists m',
    export_a3 m = (Ok tt, m')
    /\ file_num m' = file_num m
    /\ fst <$> written m'
       = (fst <$> written m) ++ [document_name (save_path m) (file_num m)]
    /\ journal m'
       = journal m
         ++ (Place ∘ front_of (paths_by_slot m) <$> sorted (keys (paths_by_slot m)))
         ++ [Output (document_name (save_path m) (file_num m))].
Proof.
  intros Hn. destruct (export_a3_run m) as [s Hrun].
  { now rewrite length_sorted. }
  eexists. split; [exact Hrun|]. machine_simpl.
  split; [reflexivity|]. split; [|reflexivity].
  now rewrite fmap_app.
Qed.


(** ** More on [prepare_images] *)

Lemma convert_to_jpg_result p m :
  exists jpeg calls w,
    convert_to_jpg p m
    = (Ok jpeg, with_journal (journal m ++ (Run <$> calls)) (with_world w m))
    /\ (calls = [] \/ calls = [MagickConvert p jpeg])
    /\ PyStr.endswith jpeg "jpg" = true.
Proof.
  unfold convert_to_jpg.
  assert (Hm : with_journal (journal m ++ (Run <$> [])) (with_world (world m) m) = m).
  { destruct m. cbn. now rewrite app_nil_r. }
  destruct (PyStr.endswith p "jpg") eqn:Hp.
  - exists p, [], (world m). rewrite Hm. auto.
  - unfold bind, read.
    destruct (path_exists (world m) (new_jpg_path p)).
    + exists (new_jpg_path p), [], (world m). rewrite Hm.
      auto using new_jpg_path_endswith.
    + unfold subprocess_run, ret.
      destruct (run _ (world m)) as [w out].
      exists (new_jpg_path p), [MagickConvert p (new_jpg_path p)], w.
      auto using new_jpg_path_endswith.
Qed.

Lemma prepare_slot_detail slot m r m' back front :
  prepare_slot slot m = (r, m') ->
  get slot (paths_by_slot m) = Some (back, front) ->
  exists jpeg before after,
    journal m'
    = journal m ++ (Run <$> before ++ IdentifyVerbose jpeg :: after)
    /\ (before = [] \/ before = [MagickConvert front jpeg])
    /\ (after = [] \/ after = [MogrifyShaveCrop jpeg])
    /\ PyStr.endswith jpeg "jpg" = true
    /\ paths_by_slot m' = set slot (back, jpeg) (paths_by_slot m).
Proof.
  intros E Hget. revert E.
  unfold prepare_slot. unfold bind at 1, read at 1. unfold bind at 1, lift at 1, item.
  rewrite Hget. cbn [fst snd]. unfold bind at 1.
  destruct (convert_to_jpg_result front m) as (jpeg & pre & w1 & -> & Hpre & Hjpg).
  set (m1 := with_journal _ _).
  unfold bind at 1, update at 1. unfold bind at 1, ret at 1.
  set (m2 := with_paths_by_slot _ m1).
  unfold bind at 1.
  destruct (images_havent_been_prepared_run jpeg m2)
    as [(reshape & _ & ->) | (e & _ & ->)].
  - set (m3 := record _ _).
    destruct (index_flags false reshape false) as (E0 & E1 & E2).
    unfold bind at 1, lift at 1. rewrite E2.
    unfold bind at 1, ret at 1.
    unfold bind at 1, lift at 1. rewrite E1.
    unfold bind at 1.
    destruct reshape.
    + unfold cut_and_reshape, subprocess_run, bind, ret, lift.
      destruct (run _ (world m3)) as [w3 out3]. rewrite E0.
      intros [= <- <-].
      exists jpeg, pre, [MogrifyShaveCrop jpeg].
      subst m3 m2 m1. machine_simpl.
      rewrite fmap_app, <- !app_assoc. auto 10.
    + unfold ret at 1. unfold bind, lift, ret. rewrite E0.
      intros [= <- <-].
      exists jpeg, pre, [].
      subst m3 m2 m1. machine_simpl.
      rewrite fmap_app, <- !app_assoc. auto 10.
  - intros [= <- <-]. exists jpeg, pre, [].
    subst m2 m1. machine_simpl.
    rewrite fmap_app, <- !app_assoc. auto 10.
Qed.

(** X7. One turn of the loop of [prepare_images], for a slot of the
    mapping: [identify] runs exactly once, after the conversion if there is
    one and before the shave-and-crop if there is one, all on the same .jpg
    path, which replaces the front of the slot; the back is kept. *)
Theorem prepare_slot_call_order slot m back front :
  get slot (paths_by_slot m) = Some (back, front) ->
  exists jpeg before after,
    journal (snd (prepare_slot slot m))
    = journal m ++ (Run <$> before ++ IdentifyVerbose jpeg :: after)
    /\ (before = [] \/ before = [MagickConvert front jpeg])
    /\ (after = [] \/ after = [MogrifyShaveCrop jpeg])
    /\ PyStr.endswith jpeg "jpg" = true
    /\ paths_by_slot (snd (prepare_slot slot m))
       = set slot (back, jpeg) (paths_by_slot m).
Proof.
  intros Hget. destruct (prepare_slot slot m) as [r m'] eqn:E.
  cbn [snd]. eapply prepare_slot_detail; eassumption.
Qed.

Lemma prepare_loop_paths l : forall m m',
  for_each l prepare_slot m = (Ok tt, m') ->
  keys (paths_by_slot m') = keys (paths_by_slot m)
  /\ (forall k, fst <$> get k (paths_by_slot m')
                = fst <$> get k (paths_by_slot m))
  /\ (forall k, k ∉ l -> get k (paths_by_slot m') = get k (paths_by_slot m))
  /\ (forall k, k ∈ l ->
        exists v, get k (paths_by_slot m') = Some v
                  /\ PyStr.endswith v.2 "jpg" = true).
Proof.
  induction l as [|slot l IH]; intros m m'; cbn [for_each].
  - intros [= <-]. repeat split; auto. intros k Hk. inversion Hk.
  - unfold bind. destruct (prepare_slot slot m) as [[[]|e] m1] eqn:E1;
      [|discriminate].
    intros E2. destruct (IH m1 m' E2) as (K2 & B2 & O2 & J2).
    destruct (prepare_slot_spec slot m _ _ E1) as (calls & _ & _ & S1).
    destruct (S1 eq_refl) as (back & front & jpeg0 & Hget & _ & _).
    destruct (prepare_slot_detail slot m _ _ back front E1 Hget)
      as (jpeg & _ & _ & _ & _ & _ & Hjpg & Hp1).
    assert (Hslot : slot ∈ keys (paths_by_slot m)).
    { apply keys_get. rewrite Hget. eauto. }
    split; [|split; [|split]].
    + rewrite K2, Hp1. now apply keys_set_present.
    + intros k. rewrite B2, Hp1.
      destruct (Z.eq_dec slot k) as [<-|Hne].
      * now rewrite get_set_eq, Hget.
      * now rewrite get_set_ne.
    + intros k Hk. apply not_elem_of_cons in Hk as [Hne Hk].
      rewrite (O2 k Hk), Hp1. apply get_set_ne. congruence.
    + intros k Hk. destruct (decide (k ∈ l)) as [Hin|Hnin]; [now apply J2|].
      apply elem_of_cons in Hk as [->|Hk]; [|contradiction].
      exists (back, jpeg). rewrite (O2 slot Hnin), Hp1, get_set_eq. auto.
Qed.

(** X8. When [prepare_images] returns, the mapping has the same slots in
    the same order, every back path is what it was, and every front path
    ends in "jpg". *)
Theorem prepare_images_keeps_backs m m' :
  prepare_images m = (Ok tt, m') ->
  keys (paths_by_slot m') = keys (paths_by_slot m)
  /\ forall slot back front,
       get slot (paths_by_slot m) = Some (back, front) ->
       exists jpeg,
         get slot (paths_by_slot m') = Some (back, jpeg)
         /\ PyStr.endswith jpeg "jpg" = true.
Proof.
  unfold prepare_images, bind, read. intros E.
  destruct (prepare_loop_paths _ _ _ E) as (K & B & _ & J).
  split; [exact K|]. intros slot back front Hget.
  destruct (J slot) as ([b jpeg] & Hv & Hjpg).
  { apply keys_get. rewrite Hget. eauto. }
  specialize (B slot). rewrite Hv, Hget in B. cbn in B.
  injection B as ->. eauto.
Qed.


(** ** More on slot resolution *)

Lemma get_foldl_same {V} (v : V) ks : forall (acc : dict V) k,
  get k (foldl (fun d k' => set k' v d) acc ks)
  = if decide (k ∈ ks) then Some v else get k acc.
Proof. intros acc k. apply (get_foldl_set (fun _ => v)). Qed.

Lemma slots_to_paths_app_get slot before card after acc :
  slot ∈ slots card ->
  (forall c, c ∈ after -> slot ∉ slots c) ->
  get slot
    (foldl (fun by_slots card =>
              foldl (fun by_slots slot => set slot (file_path card) by_slots)
                    by_slots (slots card))
           acc (before ++ card :: after))
  = Some (file_path card).
Proof.
  intros Hin Hafter. rewrite foldl_app. cbn [foldl].
  set (d := foldl _ (foldl _ acc before) (slots card)).
  assert (Hd : get slot d = Some (file_path card)).
  { unfold d. rewrite get_foldl_same. now destruct (decide (slot ∈ slots card)). }
  clearbody d. revert d Hd.
  induction after as [|c after IH]; intros d Hd; [exact Hd|].
  cbn [foldl]. apply IH.
  - intros c' Hc'. apply Hafter. now right.
  - rewrite get_foldl_same.
    destruct (decide (slot ∈ slots c)) as [Hc|_]; [|exact Hd].
    exfalso. apply (Hafter c); [left|exact Hc].
Qed.

Lemma keys_set_NoDup {V} k (v : V) (d : dict V) :
  NoDup (keys d) -> NoDup (keys (set k v d)).
Proof.
  intros H. destruct (decide (k ∈ keys d)) as [Hin|Hnin].
  - now rewrite keys_set_present.
  - rewrite keys_set_absent by exact Hnin. apply NoDup_app.
    split; [exact H|]. split; [|apply NoDup_singleton].
    intros x Hx Hx'. apply list_elem_of_singleton in Hx' as ->. contradiction.
Qed.

Lemma slots_to_paths_NoDup c : NoDup (keys (slots_to_paths c)).
Proof.
  unfold slots_to_paths.
  assert (G : forall l (acc : dict string), NoDup (keys acc) ->
            NoDup (keys (foldl (fun by_slots card =>
                     foldl (fun by_slots slot => set slot (file_path card) by_slots)
                           by_slots (slots card)) acc l))).
  { induction l as [|card l IH]; intros acc Hacc; [exact Hacc|].
    cbn [foldl]. apply IH. generalize (slots card). intros ss. revert acc Hacc.
    induction ss as [|s ss IHs]; intros acc Hacc; [exact Hacc|].
    cbn [foldl]. apply IHs. now apply keys_set_NoDup. }
  apply G. constructor.
Qed.

Lemma keys_foldl_set {V} (f : Z -> V) ks : forall (acc : dict V),
  NoDup ks -> (forall k, k ∈ ks -> k ∉ keys acc) ->
  keys (foldl (fun d k => set k (f k) d) acc ks) = keys acc ++ ks.
Proof.
  induction ks as [|k ks IH]; intros acc Hnd Hfresh; cbn [foldl].
  - now rewrite app_nil_r.
  - apply NoDup_cons in Hnd as [Hk Hnd].
    rewrite IH; [|exact Hnd|].
    + rewrite keys_set_absent by (apply Hfresh; left).
      now rewrite <- app_assoc.
    + intros k' Hk'. rewrite keys_set_absent by (apply Hfresh; left).
      intros Hin. apply elem_of_app in Hin as [Hin|Hin].
      * apply (Hfresh k'); [now right|exact Hin].
      * apply list_elem_of_singleton in Hin as ->. contradiction.
Qed.

(** The run of [download_and_collect_images] when slot 0 has a back. *)
Lemma download_and_collect_images_run m fallback :
  let backs_by_slots := slots_to_paths (backs (order m)) in
  let fronts_by_slots := slots_to_paths (fronts (order m)) in
  get 0 backs_by_slots = Some fallback ->
  exists m',
    download_and_collect_images m = (Ok tt, m')
    /\ paths_by_slot m'
       = foldl (fun d k =>
                  set k (default fallback (get k backs_by_slots),
                         default EmptyString (get k fronts_by_slots)) d)
               [] (keys fronts_by_slots).
Proof.
  intros backs_by_slots fronts_by_slots H0.
  unfold download_and_collect_images.
  cbv beta delta [bind read update lift] iota.
  fold backs_by_slots fronts_by_slots.
  rewrite (pair_paths_spec _ _ fallback) by
    (auto; intros k Hk; now apply get_is_Some).
  eexists. split; reflexivity.
Qed.

(** X9. When slot 0 has a back, [download_and_collect_images] succeeds.
    The slots of the resolved mapping are those of the mapping of the
    fronts, in the same order and each once; when several front cards list
    a slot, the last of them gives its front. *)
Theorem resolved_fronts_last_card_wins m fallback before card after slot :
  get 0 (slots_to_paths (backs (order m))) = Some fallback ->
  cards (fronts (order m)) = before ++ card :: after ->
  slot ∈ slots card ->
  (forall c, c ∈ after -> slot ∉ slots c) ->
  exists m' back,
    download_and_collect_images m = (Ok tt, m')
    /\ keys (paths_by_slot m') = keys (slots_to_paths (fronts (order m)))
    /\ NoDup (keys (paths_by_slot m'))
    /\ get slot (paths_by_slot m') = Some (back, file_path card).
Proof.
  intros H0 Hcards Hin Hafter.
  destruct (download_and_collect_images_run m fallback H0) as (m' & Hrun & Hp).
  assert (Hfront : get slot (slots_to_paths (fronts (order m)))
                   = Some (file_path card)).
  { unfold slots_to_paths. rewrite Hcards.
    now apply slots_to_paths_app_get. }
  assert (Hkeys : keys (paths_by_slot m')
                  = keys (slots_to_paths (fronts (order m)))).
  { rewrite Hp.
    rewrite (keys_foldl_set
               (fun k => (default fallback (get k (slots_to_paths (backs (order m)))),
                          default EmptyString (get k (slots_to_paths (fronts (order m))))))).
    - reflexivity.
    - apply slots_to_paths_NoDup.
    - intros k _ Hk. inversion Hk. }
  exists m'. eexists. split; [exact Hrun|]. split; [exact Hkeys|].
  split; [rewrite Hkeys; apply slots_to_paths_NoDup|].
  rewrite Hp.
  rewrite (get_foldl_set
             (fun k => (default fallback (get k (slots_to_paths (backs (order m)))),
                        default EmptyString (get k (slots_to_paths (fronts (order m))))))).
  destruct (decide (slot ∈ keys (slots_to_paths (fronts (order m))))) as [_|Hn].
  - rewrite Hfront. reflexivity.
  - exfalso. apply Hn, keys_get. rewrite Hfront. eauto.
Qed.

(** X10. An order without front cards resolves to the empty mapping,
    whatever its backs are, and [execute] then behaves as the layouts do on
    the empty mapping: in grid-sheet mode it writes a sheet with the cut
    guides only, in sequential mode (no document open) it raises
    [AttributeError] and writes nothing. *)
Theorem execute_without_fronts m :
  cards (fronts (order m)) = [] ->
  (separate_faces m = true ->
   exists m',
     execute m = (Ok tt, m')
     /\ written m'
        = written m
          ++ [(document_name (save_path m) (file_num m),
               {| orientation := "L"; page_unit := "mm"; format := A3;
                  ops := AddPage :: cut_guides |})])
  /\ (separate_faces m = false -> pdf m = None ->
      exists m',
        execute m = (Raise AttributeError, m') /\ written m' = written m).
Proof.
  intros Hcards.
  assert (Hd : exists m1,
             download_and_collect_images m = (Ok tt, m1)
             /\ paths_by_slot m1 = [] /\ separate_faces m1 = separate_faces m
             /\ pdf m1 = pdf m /\ written m1 = written m
             /\ save_path m1 = save_path m /\ file_num m1 = file_num m).
  { unfold download_and_collect_images.
    cbv beta delta [bind read update lift] iota.
    assert (Hnil : slots_to_paths (fronts (order m)) = [])
      by (unfold slots_to_paths; now rewrite Hcards).
    rewrite Hnil. cbn [keys fmap list_fmap pair_paths].
    eexists. split; [reflexivity|]. machine_simpl. auto 10. }
  destruct Hd as (m1 & Hrun & Hp & Hs & Hpdf & Hw & Hsp & Hf).
  split.
  - intros Hgrid. unfold execute. unfold bind at 1. rewrite Hrun.
    unfold bind at 1, read at 1. rewrite Hs, Hgrid.
    unfold bind at 1, update at 1. unfold bind at 1.
    unfold prepare_images at 1. unfold bind at 1, read at 1.
    machine_simpl. rewrite Hp. cbn [keys fmap list_fmap for_each]. unfold ret at 1.
    destruct (export_a3_run (with_number_of_cards_per_file 1 m1)) as [s Hrun3].
    { machine_simpl. rewrite Hp. cbn. lia. }
    rewrite Hrun3. machine_simpl. rewrite Hp.
    change (sorted (keys [])) with (@nil Z). cbn [grid_calls]. rewrite app_nil_r.
    eexists. split; [reflexivity|]. machine_simpl.
    now rewrite Hw, Hsp, Hf.
  - intros Hseq Hnone. unfold execute. unfold bind at 1. rewrite Hrun.
    unfold bind at 1, read at 1. rewrite Hs, Hseq.
    unfold export. cbv beta delta [bind read set_state update] iota.
    rewrite Hp. change (sorted (keys [])) with (@nil Z).
    cbn [for_each]. unfold ret.
    rewrite save_file_closed by (machine_simpl; congruence).
    eexists. split; [reflexivity|]. machine_simpl. exact Hw.
Qed.


(** ** Sequential layout of any slots *)

Lemma export_slot_later slot m cur back front :
  slot <> 0 -> number_of_cards_per_file m <> 0 ->
  pdf m = Some (card_document (card_width_in_inches m) (card_height_in_inches m) cur) ->
  get slot (paths_by_slot m) = Some (back, front) ->
  let w := card_width_in_inches m in
  let h := card_height_in_inches m in
  let break := bool_decide (slot `mod` number_of_cards_per_file m = 0) in
  exists m',
    export_slot slot m = (Ok tt, m')
    /\ paths_by_slot m' = paths_by_slot m
    /\ number_of_cards_per_file m' = number_of_cards_per_file m
    /\ save_path m' = save_path m
    /\ card_width_in_inches m' = w /\ card_height_in_inches m' = h
    /\ file_num m' = (if break then file_num m + 1 else file_num m)
    /\ written m'
       = written m
         ++ (if break
             then [(document_name (save_path m) (file_num m), card_document w h cur)]
             else [])
    /\ pdf m'
       = Some (card_document w h
                 ((if break then [] else cur)
                  ++ slot_pages (paths_by_slot m) w h slot)).
Proof.
  intros Hslot Hk Hpdf Hget w h break.
  unfold export_slot.
  cbv beta delta [bind read lift item set_state update generate_pdf int_mod] iota.
  rewrite Hget. cbv beta iota.
  destruct (Z.eqb_spec slot 0) as [|_]; [contradiction|].
  cbv beta iota. machine_simpl.
  destruct (Z.eqb_spec (number_of_cards_per_file m) 0) as [|_]; [contradiction|].
  cbv beta iota. unfold break.
  destruct (Z.eqb_spec (slot `mod` number_of_cards_per_file m) 0) as [Hmod|Hmod].
  - rewrite bool_decide_eq_true_2 by exact Hmod.
    erewrite save_file_spec by (machine_simpl; exact Hpdf).
    machine_simpl.
    erewrite add_image_spec by reflexivity.
    erewrite add_image_spec by reflexivity.
    eexists. split; [reflexivity|]. machine_simpl.
    repeat (split; [reflexivity|]).
    rewrite extend_extend. unfold extend, card_document, slot_pages.
    cbn [ops orientation page_unit format app].
    unfold back_of, front_of. rewrite Hget. reflexivity.
  - rewrite bool_decide_eq_false_2 by exact Hmod.
    unfold ret. cbv beta iota.
    erewrite add_image_spec by (machine_simpl; exact Hpdf).
    erewrite add_image_spec by reflexivity.
    eexists. split; [reflexivity|]. machine_simpl.
    repeat (split; [reflexivity|]).
    split; [now rewrite app_nil_r|].
    rewrite extend_extend. unfold extend, card_document, slot_pages.
    cbn [ops orientation page_unit format app].
    unfold back_of, front_of. rewrite Hget. reflexivity.
Qed.

(** The loop of [export] from an open document that holds the slots
    [chunk], followed by the last save. *)
Lemma export_loop_chunks slots : forall m chunk,
  0 ∉ slots -> number_of_cards_per_file m <> 0 ->
  pdf m = Some (card_document (card_width_in_inches m) (card_height_in_inches m)
                  (flat_map (slot_pages (paths_by_slot m) (card_width_in_inches m)
                               (card_height_in_inches m)) chunk)) ->
  (forall slot, slot ∈ slots -> is_Some (get slot (paths_by_slot m))) ->
  let k := number_of_cards_per_file m in
  exists m' tail later,
    bind (for_each slots export_slot)
         (fun _ => bind (read file_num)
            (fun file_num =>
               bind (set_state ("Saving PDF #" ++ PyStr.str_of_int file_num))
                    (fun _ => save_file))) m
    = (Ok tt, m')
    /\ slots = tail ++ concat later
    /\ Forall (fun s => s `mod` k <> 0) tail
    /\ Forall (fun c => exists s rest,
                 c = s :: rest /\ s `mod` k = 0
                 /\ Forall (fun x => x `mod` k <> 0) rest) later
    /\ length later = length (filter (fun s => s `mod` k = 0) slots)
    /\ file_num m' = file_num m + Z.of_nat (length later)
    /\ written m'
       = written m
         ++ zip_with (sequential_document (paths_by_slot m) (save_path m)
                        (card_width_in_inches m) (card_height_in_inches m))
              (seqZ (file_num m) (Z.of_nat (S (length later))))
              ((chunk ++ tail) :: later).
Proof.
  induction slots as [|slot slots IH]; intros m chunk H0 Hk Hpdf Hget k.
  - exists (record (Output (document_name (save_path m) (file_num m)))
              (with_written
                 (written m ++ [(document_name (save_path m) (file_num m),
                                 card_document (card_width_in_inches m)
                                   (card_height_in_inches m)
                                   (flat_map (slot_pages (paths_by_slot m)
                                                (card_width_in_inches m)
                                                (card_height_in_inches m)) chunk))])
                 (with_state ("Saving PDF #" ++ PyStr.str_of_int (file_num m)) m))),
      [], [].
    split.
    { cbn [for_each]. cbv beta delta [bind ret read set_state update] iota.
      erewrite save_file_spec by (machine_simpl; exact Hpdf). reflexivity. }
    machine_simpl. rewrite app_nil_r. cbn [concat length filter].
    repeat (split; [now auto|]). split; [lia|].
    rewrite (seqZ_cons (file_num m)) by lia. cbn [zip_with].
    now rewrite app_nil_r.
  - apply not_elem_of_cons in H0 as [Hslot H0].
    destruct (Hget slot) as [[back front] Hg]; [left|].
    destruct (export_slot_later slot m _ back front (not_eq_sym Hslot) Hk Hpdf Hg)
      as (m1 & Hrun & Hp1 & Hk1 & Hd1 & Hw1 & Hh1 & Hf1 & Hwr1 & Hpdf1).
    cbn [for_each]. unfold bind at 1. unfold bind at 1. rewrite Hrun.
    rewrite filter_cons. fold k in Hf1, Hwr1, Hpdf1 |- *.
    destruct (decide (slot `mod` k = 0)) as [Hmod|Hmod].
    + rewrite bool_decide_eq_true_2 in Hf1, Hwr1, Hpdf1 by exact Hmod.
      destruct (IH m1 [slot] H0) as (m' & tail & later & Hrun' & Hsplit & Htail
                                     & Hlater & Hlen & Hf' & Hwr').
      { now rewrite Hk1. }
      { rewrite Hp1, Hw1, Hh1, Hpdf1. cbn [flat_map app]. now rewrite app_nil_r. }
      { intros s Hs. rewrite Hp1. apply Hget. now right. }
      rewrite Hp1, Hk1, Hd1, Hw1, Hh1, Hf1, Hwr1 in *. fold k in Hlen, Hlater, Htail.
      exists m', [], ((slot :: tail) :: later).
      split; [exact Hrun'|].
      split; [cbn [concat app]; now rewrite Hsplit|].
      split; [constructor|].
      split; [constructor; [exists slot, tail; auto|exact Hlater]|].
      split; [cbn [length]; now rewrite Hlen|].
      split; [rewrite Hf'; cbn [length]; lia|].
      rewrite Hwr', <- app_assoc, app_nil_r. f_equal.
      rewrite (seqZ_cons (file_num m)) by lia. cbn [zip_with app].
      unfold sequential_document at 3. f_equal.
      replace (Z.succ (file_num m)) with (file_num m + 1) by lia.
      now replace (Z.pred (Z.of_nat (S (length ((slot :: tail) :: later)))))
        with (Z.of_nat (S (length later))) by (cbn [length]; lia).
    + rewrite bool_decide_eq_false_2 in Hf1, Hwr1, Hpdf1 by exact Hmod.
      rewrite app_nil_r in Hwr1.
      destruct (IH m1 (chunk ++ [slot]) H0) as (m' & tail & later & Hrun' & Hsplit
                                                & Htail & Hlater & Hlen & Hf' & Hwr').
      { now rewrite Hk1. }
      { rewrite Hp1, Hw1, Hh1, Hpdf1, flat_map_app. cbn [flat_map].
        now rewrite app_nil_r. }
      { intros s Hs. rewrite Hp1. apply Hget. now right. }
      rewrite Hp1, Hk1, Hd1, Hw1, Hh1, Hf1, Hwr1 in *. fold k in Hlen, Hlater, Htail.
      exists m', (slot :: tail), later.
      split; [exact Hrun'|].
      split; [cbn [app]; now rewrite Hsplit|].
      split; [constructor; assumption|].
      split; [exact Hlater|]. split; [exact Hlen|]. split; [exact Hf'|].
      rewrite Hwr'. now rewrite <- app_assoc.
Qed.

(** X11. Sequential layout of any mapping whose least slot is 0, whatever
    the other slots are.  [export] closes a document in front of exactly
    the later slots that the number of cards per file divides: the slots
    fall into consecutive runs, the first starting at slot 0 and every
    other at such a multiple, with no multiple inside a run; each run is
    written as one document, numbered on from the first file number, with
    the back and the front of its slots in order.  With gaps in the slots
    the documents need not hold that number of cards. *)
Theorem export_breaks_at_multiples m slots :
  NoDup (keys (paths_by_slot m)) ->
  sorted (keys (paths_by_slot m)) = 0 :: slots ->
  number_of_cards_per_file m <> 0 ->
  let k := number_of_cards_per_file m in
  exists m' first later,
    export m = (Ok tt, m')
    /\ slots = first ++ concat later
    /\ Forall (fun s => s `mod` k <> 0) first
    /\ Forall (fun run => exists s rest,
                 run = s :: rest /\ s `mod` k = 0
                 /\ Forall (fun x => x `mod` k <> 0) rest) later
    /\ length later = length (filter (fun s => s `mod` k = 0) slots)
    /\ file_num m' = file_num m + Z.of_nat (length later)
    /\ written m'
       = written m
         ++ zip_with (sequential_document (paths_by_slot m) (save_path m)
                        (card_width_in_inches m) (card_height_in_inches m))
              (seqZ (file_num m) (Z.of_nat (S (length later))))
              ((0 :: first) :: later).
Proof.
  intros Hnd Hsorted Hk k.
  assert (Hnd' : NoDup (0 :: slots)).
  { rewrite <- Hsorted. now rewrite sorted_perm. }
  apply NoDup_cons in Hnd' as [H0 _].
  assert (Hall : forall s, s ∈ 0 :: slots -> is_Some (get s (paths_by_slot m))).
  { intros s Hs. apply get_is_Some.
    apply (elem_of_sorted s (keys (paths_by_slot m))). now rewrite Hsorted. }
  destruct (Hall 0) as [[back front] Hg0]; [left|].
  set (w := card_width_in_inches m). set (h := card_height_in_inches m).
  assert (Hfirst : exists m1,
    export_slot 0 m = (Ok tt, m1)
    /\ paths_by_slot m1 = paths_by_slot m
    /\ number_of_cards_per_file m1 = number_of_cards_per_file m
    /\ save_path m1 = save_path m
    /\ card_width_in_inches m1 = w /\ card_height_in_inches m1 = h
    /\ file_num m1 = file_num m /\ written m1 = written m
    /\ pdf m1 = Some (card_document w h (slot_pages (paths_by_slot m) w h 0))).
  { unfold export_slot.
    cbv beta delta [bind read lift item set_state update generate_pdf] iota.
    rewrite Hg0. simpl (0 =? 0). cbv beta iota.
    erewrite add_image_spec by reflexivity.
    erewrite add_image_spec by reflexivity.
    eexists. split; [reflexivity|]. machine_simpl.
    repeat (split; [reflexivity|]).
    rewrite extend_extend. unfold extend, card_document, slot_pages.
    cbn [ops orientation page_unit format app].
    unfold back_of, front_of. rewrite Hg0. reflexivity. }
  destruct Hfirst as (m1 & Hrun1 & Hp1 & Hk1 & Hd1 & Hw1 & Hh1 & Hf1 & Hwr1 & Hpdf1).
  destruct (export_loop_chunks slots m1 [0] H0)
    as (m' & first & later & Hrun & Hsplit & Hfirst & Hlater & Hlen & Hf & Hwr).
  { now rewrite Hk1. }
  { rewrite Hp1, Hw1, Hh1, Hpdf1. cbn [flat_map]. now rewrite app_nil_r. }
  { intros s Hs. rewrite Hp1. apply Hall. now right. }
  rewrite Hp1, Hk1, Hd1, Hw1, Hh1, Hf1, Hwr1 in *.
  fold k in Hfirst, Hlater, Hlen.
  exists m', first, later.
  split.
  { unfold export. unfold bind at 1. unfold read at 1.
    rewrite Hsorted. cbn [for_each]. unfold bind at 1. unfold bind at 1.
    rewrite Hrun1. unfold bind at 1 in Hrun. exact Hrun. }
  auto 10.
Qed.


(** ** More on the inspection *)

Lemma inspect_line_geometry d s c w h :
  0 <= w < 2 ^ 1000 -> 0 <= h < 2 ^ 1000 ->
  exists w_ratio h_ratio,
    Binary64.true_div w 63 = Ok w_ratio
    /\ Binary64.true_div h 88 = Ok h_ratio
    /\ inspect_line (d, s, c) (geometry_line w h)
       = Ok (d,
             if Binary64.feqb (Binary64.round1 w_ratio) (Binary64.round1 h_ratio)
             then false else s,
             c).
Proof.
  intros Hw Hh.
  destruct (true_div_finite w 63 Hw ltac:(split; reflexivity)) as [wr Ewr].
  destruct (true_div_finite h 88 Hh ltac:(split; reflexivity)) as [hr Ehr].
  destruct (geometry_of_geometry_line w h Hw Hh) as [Hc Hg].
  exists wr, hr. split; [exact Ewr|]. split; [exact Ehr|].
  unfold inspect_line. rewrite Hc, Hg. cbn [rbind]. rewrite Ewr. cbn [rbind].
  rewrite Ehr. reflexivity.
Qed.

Lemma inspect_lines_cleared output :
  Forall (fun line =>
            PyStr.contains "Geometry" line = false
            \/ exists w h, 0 <= w < 2 ^ 1000 /\ 0 <= h < 2 ^ 1000
                           /\ line = geometry_line w h) output ->
  inspect_lines output (false, false, false) = Ok (false, false, false).
Proof.
  induction 1 as [|line rest Hline _ IH]; [reflexivity|].
  cbn [inspect_lines].
  destruct Hline as [Hnone|(w & h & Hw & Hh & ->)].
  - unfold inspect_line. rewrite Hnone. cbn [rbind]. exact IH.
  - destruct (inspect_line_geometry false false false w h Hw Hh)
      as (wr & hr & _ & _ & ->).
    cbn [rbind]. now destruct (Binary64.feqb _ _).
Qed.

Lemma inspect_lines_readable output : forall s,
  Forall (fun line =>
            PyStr.contains "Geometry" line = false
            \/ exists w h, 0 <= w < 2 ^ 1000 /\ 0 <= h < 2 ^ 1000
                           /\ line = geometry_line w h) output ->
  exists s', inspect_lines output (false, s, false) = Ok (false, s', false).
Proof.
  induction output as [|line rest IH]; intros s H; [now exists s|].
  apply Forall_cons in H as [Hline Hrest].
  cbn [inspect_lines].
  destruct Hline as [Hnone|(w & h & Hw & Hh & ->)].
  - unfold inspect_line. rewrite Hnone. cbn [rbind]. now apply IH.
  - destruct (inspect_line_geometry false s false w h Hw Hh)
      as (wr & hr & _ & _ & ->).
    cbn [rbind]. now apply IH.
Qed.

(** X12. When [identify] prints several geometry lines, one line whose two
    rounded ratios agree is enough: [need_reshape] is then [False],
    whatever the geometry lines before and after it say.  The flag is never
    set back. *)
Theorem need_reshape_cleared_by_any_line p m pre post w h w_ratio h_ratio :
  let stdout := (run (command (IdentifyVerbose p)) (world m)).2 in
  0 <= w < 2 ^ 1000 -> 0 <= h < 2 ^ 1000 ->
  PyStr.splitlines stdout = pre ++ geometry_line w h :: post ->
  Forall (fun line =>
            PyStr.contains "Geometry" line = false
            \/ exists w' h', 0 <= w' < 2 ^ 1000 /\ 0 <= h' < 2 ^ 1000
                             /\ line = geometry_line w' h') (pre ++ post) ->
  Binary64.true_div w 63 = Ok w_ratio ->
  Binary64.true_div h 88 = Ok h_ratio ->
  Binary64.round1 w_ratio == Binary64.round1 h_ratio ->
  exists m1,
    images_havent_been_prepared p m = (Ok [false; false; false], m1).
Proof.
  intros stdout Hw Hh Hlines Hread Ewr Ehr Heq.
  apply Forall_app in Hread as [Hpre Hpost].
  assert (Hins : inspect_lines (PyStr.splitlines stdout) (false, true, false)
                 = Ok (false, false, false)).
  { rewrite Hlines, inspect_lines_app.
    destruct (inspect_lines_readable pre true Hpre) as [s ->].
    cbn [rbind inspect_lines].
    destruct (inspect_line_geometry false s false w h Hw Hh)
      as (wr & hr & Ewr' & Ehr' & ->).
    rewrite Ewr in Ewr'. rewrite Ehr in Ehr'.
    injection Ewr' as <-. injection Ehr' as <-.
    unfold Binary64.feqb. rewrite (proj2 (Qeq_bool_iff _ _) Heq).
    cbn [rbind]. now apply inspect_lines_cleared. }
  destruct (images_havent_been_prepared_run p m)
    as [(s & Hs & ->) | (e & He & _)]; fold stdout in Hs || fold stdout in He.
  - rewrite Hins in Hs. injection Hs as <-. eauto.
  - rewrite Hins in He. discriminate.
Qed.

Lemma geometry_of_line_no_field line :
  PyStr.lacks " " (PyStr.strip line) = true ->
  geometry_of_line line = Raise IndexError.
Proof.
  intros H. unfold geometry_of_line. now rewrite split_lacks.
Qed.

(** X13. A line of the [identify] output that mentions "Geometry" but has no
    second field (no space once it is stripped) makes the turn of
    [prepare_images] for the slot fail with [IndexError].  By then the
    inspection has run and the slot has been written back; no shave-and-crop
    follows and nothing is written. *)
Theorem malformed_geometry_line_raises slot m back front pre line post :
  get slot (paths_by_slot m) = Some (back, front) ->
  PyStr.endswith front "jpg" = true ->
  PyStr.splitlines (run (command (IdentifyVerbose front)) (world m)).2
  = pre ++ line :: post ->
  (forall l, l ∈ pre -> PyStr.contains "Geometry" l = false) ->
  PyStr.contains "Geometry" line = true ->
  PyStr.lacks " " (PyStr.strip line) = true ->
  exists m',
    prepare_slot slot m = (Raise IndexError, m')
    /\ journal m' = journal m ++ [Run (IdentifyVerbose front)]
    /\ written m' = written m
    /\ paths_by_slot m' = set slot (back, front) (paths_by_slot m).
Proof.
  intros Hget Hjpg Hlines Hpre Hline Hfield.
  unfold prepare_slot. unfold bind at 1, read at 1. unfold bind at 1, lift at 1, item.
  rewrite Hget. cbn [fst snd]. unfold bind at 1.
  unfold convert_to_jpg. rewrite Hjpg. unfold ret at 1.
  unfold bind at 1, update at 1. unfold bind at 1, ret at 1.
  set (m2 := with_paths_by_slot _ m).
  unfold bind at 1.
  destruct (images_havent_been_prepared_run front m2)
    as [(s & Hs & _) | (e & He & ->)].
  - exfalso. subst m2. machine_simpl. rewrite Hlines, inspect_lines_app in Hs.
    rewrite inspect_lines_skip in Hs by exact Hpre.
    cbn [rbind inspect_lines] in Hs. unfold inspect_line at 1 in Hs.
    rewrite Hline, geometry_of_line_no_field in Hs by exact Hfield.
    discriminate.
  - subst m2. machine_simpl. rewrite Hlines, inspect_lines_app in He.
    rewrite inspect_lines_skip in He by exact Hpre.
    cbn [rbind inspect_lines] in He. unfold inspect_line at 1 in He.
    rewrite Hline, geometry_of_line_no_field in He by exact Hfield.
    cbn [rbind] in He. injection He as <-.
    eexists. split; [reflexivity|]. machine_simpl. auto.
Qed.


(** ** The layout with one document per face *)

Lemma export_separate_faces_slot_run slot m back front :
  get slot (paths_by_slot m) = Some (back, front) ->
  let w := card_width_in_inches m in
  let h := card_height_in_inches m in
  exists m',
    export_separate_faces_slot ["backs"; "fronts"]%string slot m = (Ok tt, m')
    /\ paths_by_slot m' = paths_by_slot m
    /\ save_path m' = save_path m
    /\ card_width_in_inches m' = w /\ card_height_in_inches m' = h
    /\ file_num m' = file_num m + 1
    /\ current_face m' = "fronts"%string
    /\ written m'
       = written m
         ++ face_documents (paths_by_slot m) (save_path m) w h (file_num m) [slot].
Proof.
  intros Hget w h.
  unfold export_separate_faces_slot.
  cbv beta delta [bind read lift item set_state update] iota.
  rewrite Hget. cbv beta iota. cbn [for_each].
  unfold export_face.
  cbv beta delta [bind read lift set_state update generate_pdf ret] iota.
  change (list_index "backs" ["backs"; "fronts"]%string) with (Ok 0).
  change (list_index "fronts" ["backs"; "fronts"]%string) with (Ok 1).
  cbv beta iota. cbn [fst snd].
  change (index [back; front] 0) with (Ok back).
  change (index [back; front] 1) with (Ok front).
  cbv beta iota.
  erewrite add_image_spec by reflexivity.
  erewrite save_file_spec by reflexivity.
  simpl (0 =? 1). cbv beta iota.
  erewrite add_image_spec by reflexivity.
  erewrite save_file_spec by reflexivity.
  simpl (1 =? 1). cbv beta iota.
  eexists. split; [reflexivity|]. machine_simpl.
  repeat (split; [reflexivity|]).
  rewrite <- app_assoc. f_equal.
  unfold face_documents, extend, card_document, back_of, front_of.
  cbn [ops orientation page_unit format app]. rewrite Hget. reflexivity.
Qed.

Lemma export_separate_faces_loop slots : forall m,
  (forall slot, slot ∈ slots -> is_Some (get slot (paths_by_slot m))) ->
  exists m',
    for_each slots (export_separate_faces_slot ["backs"; "fronts"]%string) m
    = (Ok tt, m')
    /\ paths_by_slot m' = paths_by_slot m
    /\ file_num m' = file_num m + Z.of_nat (length slots)
    /\ written m'
       = written m
         ++ face_documents (paths_by_slot m) (save_path m)
              (card_width_in_inches m) (card_height_in_inches m)
              (file_num m) slots.
Proof.
  induction slots as [|slot slots IH]; intros m Hall.
  - exists m. cbn [for_each face_documents length]. unfold ret.
    now rewrite app_nil_r, Z.add_0_r.
  - destruct (Hall slot) as [[back front] Hget]; [left|].
    destruct (export_separate_faces_slot_run slot m back front Hget)
      as (m1 & Hrun & Hp1 & Hd1 & Hw1 & Hh1 & Hf1 & _ & Hwr1).
    destruct (IH m1) as (m' & Hrun' & Hp' & Hf' & Hwr').
    { intros s Hs. rewrite Hp1. apply Hall. now right. }
    cbn [for_each]. unfold bind at 1. rewrite Hrun.
    exists m'. split; [exact Hrun'|]. split; [congruence|].
    split; [rewrite Hf', Hf1; cbn [length]; lia|].
    rewrite Hwr', Hwr1, Hp1, Hd1, Hw1, Hh1, Hf1, <- app_assoc. reflexivity.
Qed.

(** X14. [export_separate_faces] never fails, whatever the mapping and
    whether a document is open or not.  For every slot, in ascending order,
    it writes a one-page document with the back and then a one-page
    document with the front, both under the same file name: the face is not
    part of the name.  The file number goes up by one per slot. *)
Theorem export_separate_faces_same_name m :
  let slots := sorted (keys (paths_by_slot m)) in
  exists m',
    export_separate_faces m = (Ok tt, m')
    /\ file_num m' = file_num m + Z.of_nat (length slots)
    /\ written m'
       = written m
         ++ face_documents (paths_by_slot m) (save_path m)
              (card_width_in_inches m) (card_height_in_inches m)
              (file_num m) slots.
Proof.
  intros slots. unfold export_separate_faces. unfold bind, read. fold slots.
  destruct (export_separate_faces_loop slots m) as (m' & Hrun & _ & Hf & Hwr).
  { intros slot Hslot. apply get_is_Some.
    exact (proj1 (elem_of_sorted slot (keys (paths_by_slot m))) Hslot). }
  exists m'. rewrite Hrun. auto.
Qed.


(** ** The sheet that [export_a3] writes *)

Lemma grid_calls_lines paths slots : forall i g,
  g ∈ grid_calls paths i slots ->
  g ∈ cut_guides \/ (forall x y w h, crosses g x y w h = false).
Proof.
  induction slots as [|slot slots IH]; intros i g Hg; [inversion Hg|].
  cbn [grid_calls] in Hg. apply elem_of_app in Hg as [Hg|Hg].
  - unfold page_break in Hg. destruct (_ && _); [|inversion Hg].
    apply elem_of_cons in Hg as [->|Hg]; [now right|now left].
  - apply elem_of_cons in Hg as [->|Hg]; [now right|]. now apply (IH (i + 1)).
Qed.

(** The document of [export_a3], its images, and its lines. *)
Lemma export_a3_sheet m :
  let paths := paths_by_slot m in
  let slots := sorted (keys paths) in
  Z.of_nat (length slots) <= 3 * 2 ^ 52 ->
  exists doc m',
    export_a3 m = (Ok tt, m')
    /\ written m'
       = written m ++ [(document_name (save_path m) (file_num m), doc)]
    /\ placements (-1) (ops doc)
       = imap (fun j slot =>
                 {| on_page := Z.of_nat j `div` 18;
                    placed_path := front_of paths slot;
                    at_x := sheet_x (Z.of_nat j);
                    at_y := sheet_y ((Z.of_nat j `div` 6) `mod` 3);
                    width := Binary64.promote Sheet.image_w;
                    height := Binary64.promote Sheet.image_h |}) slots
    /\ forall g, g ∈ ops doc ->
         g ∈ cut_guides \/ (forall x y w h, crosses g x y w h = false).
Proof.
  intros paths slots Hn.
  destruct (export_a3_run m Hn) as [s Hrun]. fold paths slots in Hrun.
  eexists _, _. split; [exact Hrun|].
  machine_simpl. split; [reflexivity|]. cbn [ops]. split.
  - cbn [placements]. rewrite placements_app.
    rewrite (proj1 (cut_guides_no_image _)), (proj2 (cut_guides_no_image 0)).
    etransitivity; [apply (placements_grid paths slots 0); lia|reflexivity].
  - intros g Hg. apply elem_of_cons in Hg as [->|Hg]; [now right|].
    apply elem_of_app in Hg as [Hg|Hg]; [now left|].
    eapply grid_calls_lines, Hg.
Qed.

(** X3. In the sheet document that [export_a3] writes, no line runs through
    an image: the cut guides of [add_a3_page] stay in the margins and in the
    gaps between the images. *)
Theorem export_a3_guides_spare_images m :
  Z.of_nat (length (keys (paths_by_slot m))) <= 3 * 2 ^ 52 ->
  exists doc m',
    export_a3 m = (Ok tt, m')
    /\ written m'
       = written m ++ [(document_name (save_path m) (file_num m), doc)]
    /\ forall g p,
         g ∈ ops doc -> p ∈ placements (-1) (ops doc) ->
         crosses g (at_x p) (at_y p) (width p) (height p) = false.
Proof.
  intros Hn. destruct (export_a3_sheet m) as (doc & m' & Hrun & Hwr & Hpl & Hg).
  { now rewrite length_sorted. }
  exists doc, m'. split; [exact Hrun|]. split; [exact Hwr|].
  intros g p Hin Hp. rewrite Hpl in Hp.
  apply list_elem_of_lookup in Hp as [j Hj].
  rewrite list_lookup_imap in Hj.
  destruct (sorted (keys (paths_by_slot m)) !! j) as [slot|]; [|discriminate].
  injection Hj as <-. cbn [at_x at_y width height].
  destruct (Hg g Hin) as [Hguide|Hother]; [|apply Hother].
  pose proof (cut_guides_spare_cell (Z.of_nat j)) as H.
  rewrite forallb_forall in H. apply negb_true_iff, H.
  now apply list_elem_of_In.
Qed.

(** X4. In the sheet document that [export_a3] writes, two different images
    on the same page never overlap. *)
Theorem export_a3_images_apart m :
  Z.of_nat (length (keys (paths_by_slot m))) <= 3 * 2 ^ 52 ->
  exists doc m',
    export_a3 m = (Ok tt, m')
    /\ written m'
       = written m ++ [(document_name (save_path m) (file_num m), doc)]
    /\ forall (i j : nat) p q,
         i <> j ->
         placements (-1) (ops doc) !! i = Some p ->
         placements (-1) (ops doc) !! j = Some q ->
         on_page p = on_page q ->
         boxes_apart (at_x p) (at_y p) (at_x q) (at_y q) (width p) (height p).
Proof.
  intros Hn. destruct (export_a3_sheet m) as (doc & m' & Hrun & Hwr & Hpl & _).
  { now rewrite length_sorted. }
  exists doc, m'. split; [exact Hrun|]. split; [exact Hwr|].
  intros i j p q Hne Hp Hq Hpage. rewrite Hpl, list_lookup_imap in Hp, Hq.
  destruct (sorted (keys (paths_by_slot m)) !! i) as [si|]; [|discriminate].
  destruct (sorted (keys (paths_by_slot m)) !! j) as [sj|]; [|discriminate].
  injection Hp as <-. injection Hq as <-.
  cbn [at_x at_y width height on_page] in *.
  pose proof (grid_cells_apart (Z.of_nat i) (Z.of_nat j)
                ltac:(lia) ltac:(lia) ltac:(lia) Hpage) as H.
  unfold boxes_apart in *.
  destruct promote_image_size as [Hw Hh]. rewrite Hw, Hh. exact H.
Qed.


(** ** More on the configuration *)

(** X15. The answers decide the layout.  With "Yes" the exporter is put in
    grid-sheet mode with one card per file and the second answer is not
    read at all, so it may be missing; with "No" and a count typed as the
    decimal digits of [n], for [n] below 10^4300 (the longest numeral that
    [int()] reads), the number of cards per file becomes [max(1, n)] and
    the mode is left as it was. *)
Theorem ask_questions_sets_layout m :
  (forall v,
     ask_questions {| split_faces := true; cards_per_file := v |} m
     = (Ok tt, with_number_of_cards_per_file 1 (with_separate_faces true m)))
  /\ (forall n, 0 <= n < 10 ^ PyStr.int_max_str_digits ->
        ask_questions {| split_faces := false;
                         cards_per_file := PyStr (PyStr.str_of_int n) |} m
        = (Ok tt, with_number_of_cards_per_file (Z.max 1 n) m)).
Proof.
  split.
  - intros v. reflexivity.
  - intros n Hn. unfold ask_questions, bind, lift, update.
    cbn [split_faces cards_per_file int_of_value].
    rewrite py_int_str_of_int by exact Hn.
    destruct (Z.ltb_spec n 1).
    + now replace (Z.max 1 n) with 1 by lia.
    + now replace (Z.max 1 n) with n by lia.
Qed.


(** ** The stages of an export *)












(** ** A second run of the conditioning step *)





End ExporterFacts.

(** * Examples

    The theorems above at concrete exporters, in the small world of
    [Demo]. *)

Import PyDict.

(** Twenty slots fill one sheet and start a second one. *)
Lemma export_a3_grid_layout_witness :
  exists doc m',
    export_a3 (Demo.exporter Demo.no_order true 1 Demo.twenty_slots) = (Ok tt, m')
    /\ written m' = [("export/cards/1.pdf"%string, doc)]
    /\ page_count (ops doc) = 2
    /\ length (placements (-1) (ops doc)) = 20%nat.
Proof.
  destruct (export_a3_grid_layout
              (Demo.exporter Demo.no_order true 1 Demo.twenty_slots))
    as (doc & m' & Hrun & Hw & _ & Hpages & Hlen & _).
  - vm_compute. discriminate.
  - vm_compute. discriminate.
  - exists doc, m'. repeat split; assumption.
Defined.

(** Five slots, two per document: three documents. *)
Lemma export_sequential_documents_witness :
  exists m',
    export (Demo.exporter Demo.no_order false 2 Demo.five_slots) = (Ok tt, m')
    /\ file_num m' = 3
    /\ fst <$> written m'
       = ["export/cards/1.pdf"; "export/cards/2.pdf"; "export/cards/3.pdf"]%string.
Proof.
  destruct (export_sequential_documents
              (Demo.exporter Demo.no_order false 2 Demo.five_slots) 5)
    as (m' & Hrun & Hnum & Hw).
  - apply (Permutation_trans (l' := sorted (keys Demo.five_slots))).
    + symmetry. apply sorted_perm.
    + vm_compute. reflexivity.
  - lia.
  - vm_compute. discriminate.
  - reflexivity.
  - exists m'. split; [exact Hrun|]. split; [exact Hnum|].
    rewrite Hw. vm_compute. reflexivity.
Defined.

(** C3 fails on the code: with no slot at all [export_a3] raises nothing
    and writes a document. *)
Lemma export_a3_empty_no_error :
  exists m',
    export_a3 (Demo.exporter Demo.no_order true 1 []) = (Ok tt, m')
    /\ length (written m') = 1%nat
    /\ forall e, fst (export_a3 (Demo.exporter Demo.no_order true 1 []))
                 <> Raise e.
Proof.
  eexists. split; [vm_compute; reflexivity|]. split; [reflexivity|].
  intros e. vm_compute. discriminate.
Qed.

Lemma export_empty_mapping_witness :
  exists m',
    export (Demo.exporter Demo.no_order false 60 []) = (Raise AttributeError, m')
    /\ written m' = [].
Proof.
  destruct (export_empty_mapping (Demo.exporter Demo.no_order false 60 []))
    as [_ H]; [reflexivity|].
  destruct H as (m' & Hrun & Hw & _); [reflexivity|].
  exists m'. split; [exact Hrun|exact Hw].
Defined.

(** C4 fails on the code: slot 0 has a front and no back, and resolution
    raises [KeyError] instead of giving it a default back. *)
Lemma missing_back_at_slot_zero_raises :
  (exists card,
     card ∈ cards (fronts Demo.order_without_back_at_zero) /\ 0 ∈ slots card)
  /\ (forall card,
        card ∈ cards (backs Demo.order_without_back_at_zero) -> 0 ∉ slots card)
  /\ fst (@download_and_collect_images _ (Demo.outside "")
             (Demo.exporter Demo.order_without_back_at_zero false 60 []))
     = Raise KeyError.
Proof.
  split; [|split].
  - eexists. split; [left|]. left.
  - intros card Hc H0. cbn in Hc.
    apply list_elem_of_singleton in Hc as ->. cbn in H0.
    apply list_elem_of_singleton in H0. discriminate.
  - reflexivity.
Qed.

Lemma missing_back_falls_back_to_slot_zero_witness :
  exists m',
    @download_and_collect_images _ (Demo.outside "")
      (Demo.exporter Demo.order_with_back_at_zero false 60 [])
    = (Ok tt, m')
    /\ get 1 (paths_by_slot m') = Some ("back0.png", "front.png")%string.
Proof.
  destruct (@missing_back_falls_back_to_slot_zero _ (Demo.outside "")
              (Demo.exporter Demo.order_with_back_at_zero false 60 [])
              "back0.png")
    as (m' & Hrun & Hslots); [reflexivity|].
  exists m'. split; [exact Hrun|].
  destruct (Hslots 1) as (front & Hf & _ & Hnone).
  - eexists. split; [left|]. right. left.
  - injection Hf as <-. apply Hnone.
    intros card Hc H1. apply list_elem_of_singleton in Hc as ->.
    apply list_elem_of_singleton in H1. discriminate.
Defined.

(** 630 x 880 needs no reshape, 600 x 880 does. *)
Lemma need_reshape_iff_ratios_differ_witness :
  (exists m1,
     @images_havent_been_prepared _ (Demo.outside (Demo.geometry "630" "880"))
       "card.jpg" (Demo.exporter Demo.no_order true 1 [])
     = (Ok [false; false; false], m1))
  /\ (exists m1,
        @images_havent_been_prepared _ (Demo.outside (Demo.geometry "600" "880"))
          "card.jpg" (Demo.exporter Demo.no_order true 1 [])
        = (Ok [false; true; false], m1)).
Proof.
  split.
  - destruct (@need_reshape_iff_ratios_differ _
                (Demo.outside (Demo.geometry "630" "880"))
                "card.jpg" (Demo.exporter Demo.no_order true 1 [])) as [H _].
    destruct (H ["Image:"%string] ["  Page geometry: 630x880+0+0"%string] 630 880)
      as (wr & hr & nr & m1 & Hw & Hh & Hrun & Hiff).
    + split; [lia|reflexivity].
    + split; [lia|reflexivity].
    + reflexivity.
    + intros line Hl.
      repeat (apply elem_of_cons in Hl as [->|Hl]; [reflexivity|]).
      inversion Hl.
    + exists m1. rewrite Hrun.
      vm_compute in Hw, Hh. injection Hw as <-. injection Hh as <-.
      assert (nr = false) as -> by (apply Hiff; vm_compute; reflexivity).
      reflexivity.
  - destruct (@need_reshape_iff_ratios_differ _
                (Demo.outside (Demo.geometry "600" "880"))
                "card.jpg" (Demo.exporter Demo.no_order true 1 [])) as [H _].
    destruct (H ["Image:"%string] ["  Page geometry: 600x880+0+0"%string] 600 880)
      as (wr & hr & nr & m1 & Hw & Hh & Hrun & Hiff).
    + split; [lia|reflexivity].
    + split; [lia|reflexivity].
    + reflexivity.
    + intros line Hl.
      repeat (apply elem_of_cons in Hl as [->|Hl]; [reflexivity|]).
      inversion Hl.
    + exists m1. rewrite Hrun.
      vm_compute in Hw, Hh. injection Hw as <-. injection Hh as <-.
      destruct nr; [reflexivity|].
      exfalso. destruct Hiff as [Hiff _]. specialize (Hiff eq_refl).
      vm_compute in Hiff. discriminate Hiff.
Defined.

Lemma need_downsize_always_false_witness :
  exists calls,
    journal (snd (@prepare_images _ (Demo.outside (Demo.geometry "600" "880"))
                    (Demo.exporter Demo.no_order true 1 Demo.five_slots)))
    = Run <$> calls
    /\ forall p, MogrifyResize p ∉ calls.
Proof.
  destruct (@need_downsize_always_false _
              (Demo.outside (Demo.geometry "600" "880"))
              (Demo.exporter Demo.no_order true 1 Demo.five_slots)) as [_ H].
  exact (H _ _ (surjective_pairing _)).
Defined.

Lemma need_compression_always_false_witness :
  exists calls,
    journal (snd (@prepare_images _ (Demo.outside (Demo.geometry "600" "880"))
                    (Demo.exporter Demo.no_order true 1 Demo.five_slots)))
    = Run <$> calls
    /\ forall p, MagickCompress p ∉ calls.
Proof.
  destruct (@need_compression_always_false _
              (Demo.outside (Demo.geometry "600" "880"))
              (Demo.exporter Demo.no_order true 1 Demo.five_slots)) as [_ H].
  exact (H _ _ (surjective_pairing _)).
Defined.

(** The answer "0" is raised to one card per file. *)
Lemma ask_questions_then_export_divides_witness :
  exists m',
    @ask_questions (list string)
      {| split_faces := false; cards_per_file := PyStr "0" |}
      (Demo.exporter Demo.no_order false 60 Demo.five_slots)
    = (Ok tt, m')
    /\ number_of_cards_per_file m' = 1
    /\ fst (export m') <> Raise ZeroDivisionError.
Proof.
  eexists. split; [reflexivity|]. split; [reflexivity|].
  eapply (@ask_questions_then_export_divides (list string)
            {| split_faces := false; cards_per_file := PyStr "0" |}
            (Demo.exporter Demo.no_order false 60 Demo.five_slots));
    reflexivity.
Defined.



(** "cards/front.png" becomes "cards/front.jpg". *)
Lemma new_jpg_path_replaces_extension_witness :
  new_jpg_path "cards/front.png"%string = "cards/front.jpg"%string.
Proof.
  exact (proj1 new_jpg_path_replaces_extension
           "cards/front"%string "png"%string eq_refl).
Defined.

(** "card" becomes "car.jpg". *)
Lemma new_jpg_path_without_dot_witness :
  new_jpg_path "card"%string = "car.jpg"%string.
Proof. exact (new_jpg_path_without_dot "car"%string "d"%char eq_refl). Defined.

(** The sheet of twenty slots: no guide runs through an image. *)
Lemma export_a3_guides_spare_images_witness :
  exists doc m',
    export_a3 (Demo.exporter Demo.no_order true 1 Demo.twenty_slots) = (Ok tt, m')
    /\ written m' = [("export/cards/1.pdf"%string, doc)]
    /\ forall g p,
         g ∈ ops doc -> p ∈ placements (-1) (ops doc) ->
         crosses g (at_x p) (at_y p) (width p) (height p) = false.
Proof.
  destruct (export_a3_guides_spare_images
              (Demo.exporter Demo.no_order true 1 Demo.twenty_slots))
    as (doc & m' & Hrun & Hw & Hfree).
  - vm_compute. discriminate.
  - exists doc, m'. split; [exact Hrun|]. split; [exact Hw|exact Hfree].
Defined.

(** The sheet of twenty slots: the images of a page do not overlap. *)
Lemma export_a3_images_apart_witness :
  exists doc m',
    export_a3 (Demo.exporter Demo.no_order true 1 Demo.twenty_slots) = (Ok tt, m')
    /\ forall (i j : nat) p q,
         i <> j ->
         placements (-1) (ops doc) !! i = Some p ->
         placements (-1) (ops doc) !! j = Some q ->
         on_page p = on_page q ->
         boxes_apart (at_x p) (at_y p) (at_x q) (at_y q) (width p) (height p).
Proof.
  destruct (export_a3_images_apart
              (Demo.exporter Demo.no_order true 1 Demo.twenty_slots))
    as (doc & m' & Hrun & _ & Hapart).
  - vm_compute. discriminate.
  - exists doc, m'. split; [exact Hrun|exact Hapart].
Defined.

(** Slots 1 and 2 only: the sequential layout fails at slot 1. *)
Lemma export_without_slot_zero_witness :
  exists m',
    export (Demo.exporter Demo.no_order false 2
              [(1, ("b1.png", "f1.png")); (2, ("b2.png", "f2.png"))]%string)
    = (Raise AttributeError, m')
    /\ written m' = [] /\ journal m' = [].
Proof.
  destruct (export_without_slot_zero
              (Demo.exporter Demo.no_order false 2
                 [(1, ("b1.png", "f1.png")); (2, ("b2.png", "f2.png"))]%string)
              1 [2])
    as (m' & Hrun & Hw & Hj & _).
  - reflexivity.
  - discriminate.
  - reflexivity.
  - discriminate.
  - exists m'. split; [exact Hrun|]. split; [exact Hw|exact Hj].
Defined.

(** Twenty slots in grid-sheet mode: one file, and the number stays 1. *)
Lemma export_a3_single_file_witness :
  exists m',
    export_a3 (Demo.exporter Demo.no_order true 1 Demo.twenty_slots) = (Ok tt, m')
    /\ file_num m' = 1
    /\ fst <$> written m' = ["export/cards/1.pdf"%string].
Proof.
  destruct (export_a3_single_file
              (Demo.exporter Demo.no_order true 1 Demo.twenty_slots))
    as (m' & Hrun & Hnum & Hw & _).
  - vm_compute. discriminate.
  - exists m'. split; [exact Hrun|]. split; [exact Hnum|exact Hw].
Defined.

(** One turn for a .png front. *)
Lemma prepare_slot_call_order_witness :
  exists jpeg before after,
    journal (snd (@prepare_slot _ (Demo.outside (Demo.geometry "600" "880")) 0
                    (Demo.exporter Demo.no_order true 1
                       [(0, ("b0.png", "f0.png"))]%string)))
    = Run <$> before ++ IdentifyVerbose jpeg :: after
    /\ PyStr.endswith jpeg "jpg" = true.
Proof.
  destruct (@prepare_slot_call_order _ (Demo.outside (Demo.geometry "600" "880")) 0
              (Demo.exporter Demo.no_order true 1
                 [(0, ("b0.png", "f0.png"))]%string)
              "b0.png"%string "f0.png"%string eq_refl)
    as (jpeg & before & after & Hj & _ & _ & Hjpg & _).
  exists jpeg, before, after. split; [exact Hj|exact Hjpg].
Defined.

(** Conditioning of two slots keeps the backs. *)
Lemma prepare_images_keeps_backs_witness :
  keys (paths_by_slot
          (snd (@prepare_images _ (Demo.outside (Demo.geometry "630" "880"))
                  (Demo.exporter Demo.no_order true 1
                     [(0, ("b0.png", "f0.png")); (1, ("b1.png", "f1.jpg"))]%string))))
  = [0; 1]
  /\ exists jpeg,
       get 0 (paths_by_slot
                (snd (@prepare_images _ (Demo.outside (Demo.geometry "630" "880"))
                        (Demo.exporter Demo.no_order true 1
                           [(0, ("b0.png", "f0.png")); (1, ("b1.png", "f1.jpg"))]%string))))
       = Some ("b0.png"%string, jpeg)
       /\ PyStr.endswith jpeg "jpg" = true.
Proof.
  set (m := Demo.exporter Demo.no_order true 1
              [(0, ("b0.png", "f0.png")); (1, ("b1.png", "f1.jpg"))]%string).
  set (m' := snd (@prepare_images _ (Demo.outside (Demo.geometry "630" "880")) m)).
  assert (Hrun : @prepare_images _ (Demo.outside (Demo.geometry "630" "880")) m
                 = (Ok tt, m'))
    by (vm_compute; reflexivity).
  destruct (@prepare_images_keeps_backs _ _ m m' Hrun) as [Hk Hb].
  split; [exact Hk|]. exact (Hb 0 "b0.png"%string "f0.png"%string eq_refl).
Defined.

(** Two front cards list slot 1: the second one gives its front. *)
Lemma resolved_fronts_last_card_wins_witness :
  exists m' back,
    @download_and_collect_images _ (Demo.outside "")
      (Demo.exporter
         {| fronts := {| cards := [ {| slots := [0; 1]; file_path := "a.png" |};
                                    {| slots := [1]; file_path := "b.png" |} ] |};
            backs := {| cards := [ {| slots := [0]; file_path := "back.png" |} ] |} |}
         false 60 [])
    = (Ok tt, m')
    /\ keys (paths_by_slot m') = [0; 1]
    /\ get 1 (paths_by_slot m') = Some (back, "b.png"%string).
Proof.
  destruct (@resolved_fronts_last_card_wins _ (Demo.outside "")
              (Demo.exporter
                 {| fronts := {| cards := [ {| slots := [0; 1]; file_path := "a.png" |};
                                            {| slots := [1]; file_path := "b.png" |} ] |};
                    backs := {| cards := [ {| slots := [0]; file_path := "back.png" |} ] |} |}
                 false 60 [])
              "back.png"%string
              [ {| slots := [0; 1]; file_path := "a.png" |} ]
              {| slots := [1]; file_path := "b.png" |}
              [] 1)
    as (m' & back & Hrun & Hkeys & _ & Hget).
  - reflexivity.
  - reflexivity.
  - left.
  - intros c Hc. inversion Hc.
  - exists m', back. split; [exact Hrun|]. split; [exact Hkeys|exact Hget].
Defined.

(** An order without cards, in grid-sheet mode: one sheet of guides. *)
Lemma execute_without_fronts_witness :
  exists m',
    @execute _ (Demo.outside "") (Demo.exporter Demo.no_order true 60 [])
    = (Ok tt, m')
    /\ written m'
       = [("export/cards/1.pdf"%string,
           {| orientation := "L"; page_unit := "mm"; format := A3;
              ops := AddPage :: cut_guides |})].
Proof.
  destruct (@execute_without_fronts _ (Demo.outside "")
              (Demo.exporter Demo.no_order true 60 []) eq_refl) as [H _].
  destruct (H eq_refl) as (m' & Hrun & Hw).
  exists m'. split; [exact Hrun|exact Hw].
Defined.

(** Slots 0, 1, 4 and 5 with two cards per file: a document is closed in
    front of slot 4 only. *)
Lemma export_breaks_at_multiples_witness :
  exists m' first later,
    export (Demo.exporter Demo.no_order false 2
              [(0, ("b0.png", "f0.png")); (1, ("b1.png", "f1.png"));
               (4, ("b4.png", "f4.png")); (5, ("b5.png", "f5.png"))]%string)
    = (Ok tt, m')
    /\ [1; 4; 5] = first ++ concat later
    /\ file_num m' = 2
    /\ fst <$> written m' = ["export/cards/1.pdf"; "export/cards/2.pdf"]%string.
Proof.
  destruct (export_breaks_at_multiples
              (Demo.exporter Demo.no_order false 2
                 [(0, ("b0.png", "f0.png")); (1, ("b1.png", "f1.png"));
                  (4, ("b4.png", "f4.png")); (5, ("b5.png", "f5.png"))]%string)
              [1; 4; 5])
    as (m' & first & later & Hrun & Hsplit & _ & _ & Hlen & Hnum & Hw).
  - apply (bool_decide_unpack _). vm_compute. exact I.
  - reflexivity.
  - discriminate.
  - exists m', first, later. split; [exact Hrun|]. split; [exact Hsplit|].
    destruct later as [|run [|run' later]]; try discriminate Hlen.
    split; [exact Hnum|]. rewrite Hw. reflexivity.
Defined.

(** Two geometry lines, the first with equal ratios, the second without. *)
Lemma need_reshape_cleared_by_any_line_witness :
  exists m1,
    @images_havent_been_prepared _
      (Demo.outside ("  Geometry: 630x880+0+0" ++ String "010" "  Geometry: 600x880+0+0"))
      "card.jpg" (Demo.exporter Demo.no_order true 1 [])
    = (Ok [false; false; false], m1).
Proof.
  destruct (Binary64.true_div 630 63) as [wr|] eqn:Ew;
    [|vm_compute in Ew; discriminate].
  destruct (Binary64.true_div 880 88) as [hr|] eqn:Eh;
    [|vm_compute in Eh; discriminate].
  apply (@need_reshape_cleared_by_any_line _
           (Demo.outside ("  Geometry: 630x880+0+0"
                          ++ String "010" "  Geometry: 600x880+0+0"))
           "card.jpg" (Demo.exporter Demo.no_order true 1 [])
           [] [geometry_line 600 880] 630 880 wr hr).
  - split; [lia|reflexivity].
  - split; [lia|reflexivity].
  - reflexivity.
  - constructor; [|constructor]. right. exists 600, 880.
    split; [split; [lia|reflexivity]|]. split; [split; [lia|reflexivity]|reflexivity].
  - exact Ew.
  - exact Eh.
  - vm_compute in Ew, Eh. injection Ew as <-. injection Eh as <-.
    vm_compute. reflexivity.
Defined.

(** A geometry line without a space. *)
Lemma malformed_geometry_line_raises_witness :
  exists m',
    @prepare_slot _ (Demo.outside "Geometry:630x880") 0
      (Demo.exporter Demo.no_order true 1 [(0, ("b0.png", "f0.jpg"))]%string)
    = (Raise IndexError, m')
    /\ journal m' = [Run (IdentifyVerbose "f0.jpg")]
    /\ written m' = [].
Proof.
  destruct (@malformed_geometry_line_raises _ (Demo.outside "Geometry:630x880") 0
              (Demo.exporter Demo.no_order true 1 [(0, ("b0.png", "f0.jpg"))]%string)
              "b0.png"%string "f0.jpg"%string [] "Geometry:630x880"%string [])
    as (m' & Hrun & Hj & Hw & _).
  - reflexivity.
  - reflexivity.
  - reflexivity.
  - intros l Hl. inversion Hl.
  - reflexivity.
  - reflexivity.
  - exists m'. split; [exact Hrun|]. split; [exact Hj|exact Hw].
Defined.

(** The count typed as "60", and as "0". *)
Lemma ask_questions_sets_layout_witness :
  number_of_cards_per_file
    (snd (ask_questions {| split_faces := false; cards_per_file := PyStr "60" |}
            (Demo.exporter Demo.no_order false 1 []))) = 60
  /\ number_of_cards_per_file
       (snd (ask_questions {| split_faces := false; cards_per_file := PyStr "0" |}
               (Demo.exporter Demo.no_order false 5 []))) = 1.
Proof.
  split.
  - change (PyStr "60") with (PyStr (PyStr.str_of_int 60)).
    rewrite (proj2 (ask_questions_sets_layout
                      (Demo.exporter Demo.no_order false 1 [])) 60)
      by (split; [lia|reflexivity]).
    reflexivity.
  - change (PyStr "0") with (PyStr (PyStr.str_of_int 0)).
    rewrite (proj2 (ask_questions_sets_layout
                      (Demo.exporter Demo.no_order false 5 [])) 0)
      by (split; [lia|reflexivity]).
    reflexivity.
Defined.


